(** * Dual-channel control / streaming server of the lane following car

    A shallow embedding of [raspberry_pi/server/main.py], [motor.py],
    [tcp_server.py] and [camera.py].

    Conventions.
    - A Python [str] of ASCII characters is the Rocq string of those
      characters; any other [str] is held as the bytes of its UTF-8
      encoding.  The builtins [strip], [upper], [int] and [repr] are those
      of CPython on ASCII text; a property that depends on what they do to
      other text is stated for ASCII text, with [Py.is_ascii].
    - Python [int] is [Z]; [bytes] is [list byte].
    - A Python method that mutates [self] is a computation in the monad
      [M S A], a state transformer that may end in a raised exception; the
      state reached when the exception is raised is kept, as in Python.
    - Fields and functions marked "ghost" record the history of calls a
      component received; they are not attributes of the Python objects.
    - The PCA9685 chip driver and the socket layer are outside the
      repository.  The source guards both with [try]/[except], so each is
      modelled as a device that either serves a call or raises.  Picamera2
      is called without any guard and is modelled as returning normally.
    - Threads are interleaved at the grain of a Python statement: a step
      relation has one step for each stretch of code between two points
      where another thread can change the state it reads.  For the camera
      there are two relations: [Camera.step] takes each call as one step,
      [Camera.fine_step] cuts the calls at their lines. *)

From Stdlib Require Import ZArith List String Ascii Bool Lia Arith.
From Stdlib.Strings Require Import Byte.
Import ListNotations.

Local Open Scope string_scope.
Local Open Scope list_scope.

(* ------------------------------------------------------------------ *)
(** ** Computations with state and exceptions *)

Inductive outcome (A : Type) : Type :=
| Ret : A -> outcome A
| Exc : string -> outcome A.
Arguments Ret {A} _.
Arguments Exc {A} _.

Definition M (S A : Type) : Type := S -> outcome A * S.

Definition ret {S A : Type} (a : A) : M S A := fun s => (Ret a, s).

Definition raise {S A : Type} (msg : string) : M S A := fun s => (Exc msg, s).

Definition bind {S A B : Type} (m : M S A) (k : A -> M S B) : M S B :=
  fun s => match m s with
           | (Ret a, s') => k a s'
           | (Exc e, s') => (Exc e, s')
           end.

(** [try: m except Exception as e: h e] *)
Definition try_except {S A : Type} (m : M S A) (h : string -> M S A) : M S A :=
  fun s => match m s with
           | (Ret a, s') => (Ret a, s')
           | (Exc e, s') => h e s'
           end.

Definition get {S : Type} : M S S := fun s => (Ret s, s).
Definition modify {S : Type} (f : S -> S) : M S unit := fun s => (Ret tt, f s).

(** Run a method of a component held in a field of [self]. *)
Definition zoom {S T A : Type} (proj : S -> T) (inj : T -> S -> S)
    (m : M T A) : M S A :=
  fun s => let (r, t') := m (proj s) in (r, inj t' s).

Declare Scope py_scope.
Delimit Scope py_scope with py.
Notation "x <- m ;; k" := (bind m (fun x => k))
  (at level 61, m at next level, right associativity) : py_scope.
Notation "m ;;; k" := (bind m (fun _ => k))
  (at level 61, right associativity) : py_scope.

(* ------------------------------------------------------------------ *)
(** ** Object heaps and dicts *)

(** Objects that are shared by reference (sockets, [StreamingOutput]s) live
    in a list; the index is the object's identity. *)
Fixpoint update {A : Type} (i : nat) (f : A -> A) (l : list A) : list A :=
  match l, i with
  | [], _ => []
  | x :: l', O => f x :: l'
  | x :: l', S i' => x :: update i' f l'
  end.

(** A Python dict keyed by object identity, in insertion order. *)
Module Dict.

Definition dict (V : Type) : Type := list (nat * V).

Definition mem {V : Type} (k : nat) (d : dict V) : bool :=
  existsb (fun kv => (fst kv =? k)%nat) d.

(** [d[k] = v] *)
Fixpoint set {V : Type} (k : nat) (v : V) (d : dict V) : dict V :=
  match d with
  | [] => [(k, v)]
  | (k', v') :: d' => if (k' =? k)%nat then (k, v) :: d' else (k', v') :: set k v d'
  end.

(** [del d[k]] for a key that is present *)
Definition del {V : Type} (k : nat) (d : dict V) : dict V :=
  filter (fun kv => negb (fst kv =? k)%nat) d.

(** [len(d)] *)
Definition len {V : Type} (d : dict V) : Z := Z.of_nat (List.length d).

Definition non_empty {V : Type} (d : dict V) : bool :=
  match d with
  | [] => false
  | _ :: _ => true
  end.

End Dict.

(* ------------------------------------------------------------------ *)
(** ** Python builtins used by the server *)

Module Py.

(** A [str] of ASCII characters is held as the Rocq string of those
    characters; a [str] with other characters is held as the bytes of its
    UTF-8 encoding.  [split] on an ASCII separator, [encode], [startswith]
    and concatenation are exact on both.  [strip], [upper], [int] and
    [repr] are modelled for ASCII text and are exact there; on other text
    CPython also strips Unicode spaces (U+0085, U+00A0, ...), uppercases
    letters beyond a-z (U+017F gives S) and reads Unicode decimal digits
    (U+0664 is 4), which these definitions do not.  [is_ascii] delimits the
    text on which they are exact. *)

Definition code (c : ascii) : nat := nat_of_ascii c.

Definition between (lo hi n : nat) : bool := (lo <=? n)%nat && (n <=? hi)%nat.

(** [s.isascii()] *)
Fixpoint is_ascii (s : string) : bool :=
  match s with
  | String c s' => (code c <? 128)%nat && is_ascii s'
  | EmptyString => true
  end.

(** [str.isspace] on an ASCII character: TAB..CR, FS..US and space. *)
Definition is_space (c : ascii) : bool :=
  between 9 13 (code c) || between 28 32 (code c).

(** [Py_ISSPACE], the test [int()] applies to ASCII text: TAB..CR and space. *)
Definition is_c_space (c : ascii) : bool :=
  between 9 13 (code c) || (code c =? 32)%nat.

Definition is_digit (c : ascii) : bool := between 48 57 (code c).

Definition digit_value (c : ascii) : Z := Z.of_nat (code c) - 48.

Fixpoint lstrip (s : string) : string :=
  match s with
  | String c s' => if is_space c then lstrip s' else s
  | EmptyString => EmptyString
  end.

Fixpoint rstrip (s : string) : string :=
  match s with
  | String c s' =>
      let r := rstrip s' in
      if is_space c && (r =? "") then "" else String c r
  | EmptyString => EmptyString
  end.

(** [s.strip()], for ASCII text. *)
Definition strip (s : string) : string := rstrip (lstrip s).

(** [s.split(sep)] for a separator of one character. *)
Fixpoint split (sep : ascii) (s : string) : list string :=
  match s with
  | EmptyString => [""]
  | String c s' =>
      if Ascii.eqb c sep then "" :: split sep s'
      else match split sep s' with
           | h :: t => String c h :: t
           | [] => [String c ""]
           end
  end.

Definition upper_char (c : ascii) : ascii :=
  if between 97 122 (code c) then ascii_of_nat (code c - 32) else c.

(** [s.upper()], for ASCII text. *)
Fixpoint upper (s : string) : string :=
  match s with
  | String c s' => String (upper_char c) (upper s')
  | EmptyString => EmptyString
  end.

(** [s.startswith(p)] *)
Fixpoint startswith (p s : string) : bool :=
  match p, s with
  | EmptyString, _ => true
  | String a p', String b s' => Ascii.eqb a b && startswith p' s'
  | String _ _, EmptyString => false
  end.

(** *** [repr] of a string *)

Definition squote : ascii := "'"%char.
Definition dquote : ascii := "034"%char.
Definition backslash : ascii := "\"%char.

Fixpoint contains (q : ascii) (s : string) : bool :=
  match s with
  | String c s' => Ascii.eqb c q || contains q s'
  | EmptyString => false
  end.

Definition hex_digit (n : nat) : ascii :=
  nth n (list_ascii_of_string "0123456789abcdef") "0"%char.

Definition char_str (c : ascii) : string := String c "".

Definition repr_char (q c : ascii) : string :=
  if Ascii.eqb c q || Ascii.eqb c backslash then String backslash (char_str c)
  else if (code c =? 9)%nat then "\t"
  else if (code c =? 10)%nat then "\n"
  else if (code c =? 13)%nat then "\r"
  else if (code c <? 32)%nat || (code c =? 127)%nat then
    "\x" ++ String (hex_digit (code c / 16)) (char_str (hex_digit (code c mod 16)))
  else char_str c.

Fixpoint repr_body (q : ascii) (s : string) : string :=
  match s with
  | String c s' => repr_char q c ++ repr_body q s'
  | EmptyString => ""
  end.

(** [repr(s)]: single quotes unless [s] holds one and no double quote. *)
Definition repr (s : string) : string :=
  let q := if contains squote s && negb (contains dquote s) then dquote else squote in
  String q (repr_body q s ++ char_str q).

(** *** [int(s)] *)

Fixpoint skip_c_space (s : string) : string :=
  match s with
  | String c s' => if is_c_space c then skip_c_space s' else s
  | EmptyString => EmptyString
  end.

(** The digit loop of [PyLong_FromString]: decimal digits with single
    underscores between them.  Yields the value read, the number of digits
    and the unread rest, or [None] on a doubled or trailing underscore. *)
Fixpoint scan_digits (s : string) (prev_underscore : bool) (acc : Z) (digits : nat)
    : option (Z * nat * string) :=
  match s with
  | String c s' =>
      if is_digit c then scan_digits s' false (10 * acc + digit_value c) (S digits)
      else if Ascii.eqb c "_" then
        if prev_underscore then None else scan_digits s' true acc digits
      else if prev_underscore then None else Some (acc, digits, s)
  | EmptyString => if prev_underscore then None else Some (acc, digits, "")
  end.

Definition starts_with_underscore (s : string) : bool :=
  match s with
  | String c _ => Ascii.eqb c "_"
  | EmptyString => false
  end.

(** The value of the literal, when it is one; for ASCII text. *)
Definition parse_int (s : string) : option Z :=
  let s1 := skip_c_space s in
  let '(negative, s2) :=
    match s1 with
    | String "+" r => (false, r)
    | String "-" r => (true, r)
    | _ => (false, s1)
    end in
  if starts_with_underscore s2 then None
  else match scan_digits s2 false 0 0 with
       | None => None
       | Some (v, digits, rest) =>
           if (digits =? 0)%nat then None
           else match skip_c_space rest with
                | EmptyString => Some (if negative then - v else v)%Z
                | String _ _ => None
                end
       end.

(** The text of the [ValueError]; the repr is cut at 200 characters. *)
Definition int_error (s : string) : string :=
  "invalid literal for int() with base 10: " ++ String.substring 0 200 (repr s).

(** [int(s)].  The limit CPython puts on the number of digits (4300 by
    default) is out of reach: a command is at most 1024 bytes. *)
Definition int {S : Type} (s : string) : M S Z :=
  match parse_int s with
  | Some v => ret v
  | None => raise (int_error s)
  end.

(** [[int(x) for x in xs]] *)
Fixpoint int_list {S : Type} (xs : list string) : M S (list Z) :=
  match xs with
  | [] => ret []
  | x :: xs' => (v <- int x ;; vs <- int_list xs' ;; ret (v :: vs))%py
  end.

(** *** [struct.pack('<L', n)] *)

Definition byte_of_Z (z : Z) : byte :=
  match Byte.of_N (Z.to_N (z mod 256)) with
  | Some b => b
  | None => x00
  end.

Definition Z_of_byte (b : byte) : Z := Z.of_N (Byte.to_N b).

Definition le_u32 (n : Z) : list byte :=
  [byte_of_Z n; byte_of_Z (Z.shiftr n 8); byte_of_Z (Z.shiftr n 16);
   byte_of_Z (Z.shiftr n 24)].

Definition pack_L {S : Type} (n : Z) : M S (list byte) :=
  if ((0 <=? n) && (n <=? 4294967295))%Z then ret (le_u32 n)
  else raise "'L' format requires 0 <= number <= 4294967295".

(** [s.encode('utf-8')]: the bytes that hold the text. *)
Definition encode (s : string) : list byte := list_byte_of_string s.

(** Whether [bytes.decode('utf-8')] accepts the bytes: well-formed UTF-8,
    with no overlong form, no surrogate and nothing above U+10FFFF. *)
Definition byte_in (lo hi : Z) (b : byte) : bool :=
  ((lo <=? Z_of_byte b) && (Z_of_byte b <=? hi))%Z.

Definition continuation (b : byte) : bool := byte_in 128 191 b.

(** The second byte of a sequence of three, and of four, after lead [b0]. *)
Definition second_of_three (b0 b1 : byte) : bool :=
  if (Z_of_byte b0 =? 224)%Z then byte_in 160 191 b1
  else if (Z_of_byte b0 =? 237)%Z then byte_in 128 159 b1
  else continuation b1.

Definition second_of_four (b0 b1 : byte) : bool :=
  if (Z_of_byte b0 =? 240)%Z then byte_in 144 191 b1
  else if (Z_of_byte b0 =? 244)%Z then byte_in 128 143 b1
  else continuation b1.

Fixpoint utf8_valid (data : list byte) : bool :=
  match data with
  | [] => true
  | b0 :: r0 =>
      if (Z_of_byte b0 <? 128)%Z then utf8_valid r0
      else if byte_in 194 223 b0 then
        match r0 with
        | b1 :: r1 => continuation b1 && utf8_valid r1
        | _ => false
        end
      else if byte_in 224 239 b0 then
        match r0 with
        | b1 :: b2 :: r2 => second_of_three b0 b1 && continuation b2 && utf8_valid r2
        | _ => false
        end
      else if byte_in 240 244 b0 then
        match r0 with
        | b1 :: b2 :: b3 :: r3 =>
            second_of_four b0 b1 && continuation b2 && continuation b3 && utf8_valid r3
        | _ => false
        end
      else false
  end.

(** *** [json.dumps] of a dict from plain keys to booleans *)

Definition json_bool (b : bool) : string := if b then "true" else "false".

Definition json_item (kv : string * bool) : string :=
  String dquote (fst kv ++ String dquote (": " ++ json_bool (snd kv))).

Definition json_dumps (d : list (string * bool)) : string :=
  "{" ++ String.concat ", " (map json_item d) ++ "}".

(** [s] between double quotes. *)
Definition quoted (s : string) : string :=
  String dquote s ++ String dquote "".

(** *** Reading a flat JSON object back

    The part of [json.loads] a client of STATUS needs: an object whose
    keys are plain strings and whose values are [true] or [false]. *)

Fixpoint skip_ws (s : string) : string :=
  match s with
  | String c s' => if is_c_space c then skip_ws s' else s
  | EmptyString => EmptyString
  end.

(** Reads a key up to its closing quote; escapes are not accepted. *)
Fixpoint read_key (s : string) : option (string * string) :=
  match s with
  | EmptyString => None
  | String c s' =>
      if Ascii.eqb c dquote then Some ("", s')
      else if Ascii.eqb c backslash then None
      else match read_key s' with
           | Some (k, r) => Some (String c k, r)
           | None => None
           end
  end.

Fixpoint drop (n : nat) (s : string) : string :=
  match n, s with
  | S n', String _ s' => drop n' s'
  | _, _ => s
  end.

Definition read_bool (s : string) : option (bool * string) :=
  if startswith "true" s then Some (true, drop 4 s)
  else if startswith "false" s then Some (false, drop 5 s)
  else None.

(** The members of an object after its opening brace, up to the end of
    the text. *)
Fixpoint read_members (fuel : nat) (s : string) : option (list (string * bool)) :=
  match fuel with
  | O => None
  | S fuel' =>
      match skip_ws s with
      | String q s1 =>
          if negb (Ascii.eqb q dquote) then None
          else match read_key s1 with
               | None => None
               | Some (k, s2) =>
                   match skip_ws s2 with
                   | String ":" s3 =>
                       match read_bool (skip_ws s3) with
                       | None => None
                       | Some (b, s4) =>
                           match skip_ws s4 with
                           | String "," s5 =>
                               match read_members fuel' s5 with
                               | Some l => Some ((k, b) :: l)
                               | None => None
                               end
                           | String "}" s5 =>
                               match skip_ws s5 with
                               | EmptyString => Some [(k, b)]
                               | String _ _ => None
                               end
                           | _ => None
                           end
                       end
                   | _ => None
                   end
               end
      | EmptyString => None
      end
  end.

Definition json_loads_flags (s : string) : option (list (string * bool)) :=
  match skip_ws s with
  | String "{" s1 =>
      match skip_ws s1 with
      | String "}" s2 => match skip_ws s2 with EmptyString => Some [] | _ => None end
      | _ => read_members (String.length s) s1
      end
  | _ => None
  end.

End Py.

(* ------------------------------------------------------------------ *)
(** ** motor.py *)

Module Motor.

Local Open Scope Z_scope.

(** The PCA9685 chip as the driver sees it: the PWM frequency set, the
    [(channel, duty)] pairs written so far, and whether the chip answers
    ([pwm_fault = None]) or every call raises with the given text. *)
Record PCA9685 : Type := mkPCA9685 {
  pwm_fault : option string;
  pwm_freq : option Z;
  pwm_writes : list (Z * Z)
}.

(** [self.pwm] is absent when the constructor did not get that far.
    [speed_calls] is ghost: the arguments of every [set_motor_speeds] call. *)
Record MotorController : Type := mkMotorController {
  pwm : option PCA9685;
  initialized : bool;
  speed_calls : list (Z * Z * Z * Z)
}.

Definition set_pwm (p : option PCA9685) (mc : MotorController) : MotorController :=
  mkMotorController p (initialized mc) (speed_calls mc).

Definition log_speed_call (c : Z * Z * Z * Z) (mc : MotorController) : MotorController :=
  mkMotorController (pwm mc) (initialized mc) (speed_calls mc ++ [c]).

(** [PCA9685.set_pwm_freq(freq)] *)
Definition set_pwm_freq (freq : Z) : M PCA9685 unit :=
  fun dev => match pwm_fault dev with
             | Some e => (Exc e, dev)
             | None => (Ret tt, mkPCA9685 None (Some freq) (pwm_writes dev))
             end.

(** [PCA9685.set_motor_pwm(channel, duty)] *)
Definition set_motor_pwm (channel duty : Z) : M PCA9685 unit :=
  fun dev => match pwm_fault dev with
             | Some e => (Exc e, dev)
             | None => (Ret tt, mkPCA9685 None (pwm_freq dev) (pwm_writes dev ++ [(channel, duty)]))
             end.

(** [MotorController.__init__]; [hw] is what [from pca9685 import PCA9685]
    followed by [PCA9685(0x40)] yields: no module ([ImportError]) or a chip. *)
Definition __init__ (hw : option PCA9685) : MotorController :=
  match hw with
  | None => mkMotorController None false []
  | Some dev =>
      match set_pwm_freq 50 dev with
      | (Ret _, dev') => mkMotorController (Some dev') true []
      | (Exc _, dev') => mkMotorController (Some dev') false []
      end
  end.

(** [self.pwm.set_motor_pwm(channel, duty)] *)
Definition self_pwm_set_motor_pwm (channel duty : Z) : M MotorController unit :=
  fun mc => match pwm mc with
            | None => (Exc "'MotorController' object has no attribute 'pwm'", mc)
            | Some dev =>
                let (r, dev') := set_motor_pwm channel duty dev in
                (r, set_pwm (Some dev') mc)
            end.

Definition _duty_range (duty : Z) : Z :=
  if duty >? 4095 then 4095
  else if duty <? -4095 then -4095
  else duty.

Definition _set_motor (motor_index duty : Z) : M MotorController unit :=
  fun mc =>
  if negb (initialized mc) then (Ret tt, mc)
  else
    let duty := _duty_range duty in
    if motor_index =? 0 then
      if duty >? 0 then
        (self_pwm_set_motor_pwm 0 0 ;;; self_pwm_set_motor_pwm 1 duty)%py mc
      else if duty <? 0 then
        (self_pwm_set_motor_pwm 1 0 ;;; self_pwm_set_motor_pwm 0 (Z.abs duty))%py mc
      else
        (self_pwm_set_motor_pwm 0 4095 ;;; self_pwm_set_motor_pwm 1 4095)%py mc
    else if motor_index =? 1 then
      if duty >? 0 then
        (self_pwm_set_motor_pwm 3 0 ;;; self_pwm_set_motor_pwm 2 duty)%py mc
      else if duty <? 0 then
        (self_pwm_set_motor_pwm 2 0 ;;; self_pwm_set_motor_pwm 3 (Z.abs duty))%py mc
      else
        (self_pwm_set_motor_pwm 2 4095 ;;; self_pwm_set_motor_pwm 3 4095)%py mc
    else if motor_index =? 2 then
      if duty >? 0 then
        (self_pwm_set_motor_pwm 6 0 ;;; self_pwm_set_motor_pwm 7 duty)%py mc
      else if duty <? 0 then
        (self_pwm_set_motor_pwm 7 0 ;;; self_pwm_set_motor_pwm 6 (Z.abs duty))%py mc
      else
        (self_pwm_set_motor_pwm 6 4095 ;;; self_pwm_set_motor_pwm 7 4095)%py mc
    else if motor_index =? 3 then
      if duty >? 0 then
        (self_pwm_set_motor_pwm 4 0 ;;; self_pwm_set_motor_pwm 5 duty)%py mc
      else if duty <? 0 then
        (self_pwm_set_motor_pwm 5 0 ;;; self_pwm_set_motor_pwm 4 (Z.abs duty))%py mc
      else
        (self_pwm_set_motor_pwm 4 4095 ;;; self_pwm_set_motor_pwm 5 4095)%py mc
    else (Ret tt, mc).

Definition set_motor_speeds (left_upper left_lower right_upper right_lower : Z)
    : M MotorController unit :=
  fun mc0 =>
  let mc := log_speed_call (left_upper, left_lower, right_upper, right_lower) mc0 in
  if negb (initialized mc) then (Ret tt, mc)
  else
    let left_upper := _duty_range left_upper in
    let left_lower := _duty_range left_lower in
    let right_upper := _duty_range right_upper in
    let right_lower := _duty_range right_lower in
    (_set_motor 0 left_upper ;;;
     _set_motor 1 left_lower ;;;
     _set_motor 2 right_upper ;;;
     _set_motor 3 right_lower)%py mc.

Definition stop : M MotorController unit := set_motor_speeds 0 0 0 0.

(** [move_forward(speed)], [move_backward(speed)], [turn_left(speed)],
    [turn_right(speed)]; the default of [speed] is 2000. *)
Definition move_forward (speed : Z) : M MotorController unit :=
  set_motor_speeds speed speed speed speed.

Definition move_backward (speed : Z) : M MotorController unit :=
  set_motor_speeds (- speed) (- speed) (- speed) (- speed).

Definition turn_left (speed : Z) : M MotorController unit :=
  set_motor_speeds (- speed) (- speed) speed speed.

Definition turn_right (speed : Z) : M MotorController unit :=
  set_motor_speeds speed speed (- speed) (- speed).

(** [self.pwm.close()]; the chip keeps no trace of it. *)
Definition self_pwm_close : M MotorController unit :=
  fun mc => match pwm mc with
            | None => (Exc "'MotorController' object has no attribute 'pwm'", mc)
            | Some dev =>
                match pwm_fault dev with
                | Some e => (Exc e, mc)
                | None => (Ret tt, mc)
                end
            end.

(** [MotorController.close] *)
Definition close : M MotorController unit :=
  fun mc =>
  if initialized mc then
    (stop ;;; try_except self_pwm_close (fun _ => ret tt))%py mc
  else (Ret tt, mc).

(** *** Reading the chip's log *)

(** The PWM writes made so far; none when there is no chip object. *)
Definition writes (mc : MotorController) : list (Z * Z) :=
  match pwm mc with
  | Some dev => pwm_writes dev
  | None => []
  end.

(** The chip serves the calls an initialized controller makes. *)
Definition responsive (mc : MotorController) : bool :=
  negb (initialized mc) ||
  match pwm mc with
  | Some dev => match pwm_fault dev with None => true | Some _ => false end
  | None => false
  end.

(** The other channel of the same wheel: the pairs are 0/1, 2/3, 4/5 and
    6/7. *)
Definition mirror (w : Z * Z) : Z * Z := (Z.lxor (fst w) 1, snd w).

(** The wiring of the wheels as a table: the two channels of each wheel,
    the one written first for a positive duty coming first. *)
Definition channels (motor_index : Z) : option (Z * Z) :=
  if motor_index =? 0 then Some (0, 1)
  else if motor_index =? 1 then Some (3, 2)
  else if motor_index =? 2 then Some (6, 7)
  else if motor_index =? 3 then Some (4, 5)
  else None.

(** The PWM writes a wheel gets for a duty: one channel low and the other
    at the magnitude of the duty, or both at 4095 for a zero duty. *)
Definition wheel_writes (motor_index duty : Z) : list (Z * Z) :=
  match channels motor_index with
  | None => []
  | Some (a, b) =>
      if duty >? 0 then [(a, 0); (b, duty)]
      else if duty <? 0 then [(b, 0); (a, Z.abs duty)]
      else [(Z.min a b, 4095); (Z.max a b, 4095)]
  end.

(** All PWM writes of one [set_motor_speeds] call on a chip that answers. *)
Definition speed_writes (left_upper left_lower right_upper right_lower : Z) : list (Z * Z) :=
  wheel_writes 0 (_duty_range left_upper) ++ wheel_writes 1 (_duty_range left_lower) ++
  wheel_writes 2 (_duty_range right_upper) ++ wheel_writes 3 (_duty_range right_lower).

End Motor.

(* ------------------------------------------------------------------ *)
(** ** camera.py *)

Module Camera.

Definition thread := nat.

(** [StreamingOutput]: the latest frame and the threads blocked in
    [condition.wait()] on this object's condition. *)
Record StreamingOutput : Type := mkStreamingOutput {
  frame : option (list byte);
  waiters : list thread
}.

(** The Picamera2 object: whether [start()] was called, and the output
    object the running encoder writes to, if an encoder runs. *)
Record Picamera2 : Type := mkPicamera2 {
  started : bool;
  encoder_output : option nat
}.

(** [outputs] is the heap of [StreamingOutput] objects ever created;
    [streaming_output] refers into it.  [woken] is ghost: the threads whose
    [wait()] has returned and that have not yet run the [return] of
    [get_frame]. *)
Record Camera : Type := mkCamera {
  camera : option Picamera2;
  streaming_output : option nat;
  is_streaming : bool;
  outputs : list StreamingOutput;
  woken : list thread
}.

Definition __init__ : Camera := mkCamera None None false [] [].

Definition set_camera (p : option Picamera2) (c : Camera) : Camera :=
  mkCamera p (streaming_output c) (is_streaming c) (outputs c) (woken c).

Definition set_is_streaming (b : bool) (c : Camera) : Camera :=
  mkCamera (camera c) (streaming_output c) b (outputs c) (woken c).

Definition set_outputs (os : list StreamingOutput) (c : Camera) : Camera :=
  mkCamera (camera c) (streaming_output c) (is_streaming c) os (woken c).

Definition set_woken (w : list thread) (c : Camera) : Camera :=
  mkCamera (camera c) (streaming_output c) (is_streaming c) (outputs c) w.

(** [Camera.initialize] *)
Definition initialize (c : Camera) : Camera :=
  set_camera (Some (mkPicamera2 false None)) c.

(** [Camera.start_streaming] *)
Definition start_streaming (c : Camera) : Camera :=
  if is_streaming c then c
  else
    let c := match camera c with None => initialize c | Some _ => c end in
    let o := List.length (outputs c) in
    let c := mkCamera (camera c) (Some o) (is_streaming c)
                      (outputs c ++ [mkStreamingOutput None []]) (woken c) in
    let c := set_camera (Some (mkPicamera2 true (Some o))) c in
    set_is_streaming true c.

(** [Camera.stop_streaming] *)
Definition stop_streaming (c : Camera) : Camera :=
  if negb (is_streaming c) then c
  else match camera c with
       | Some p => set_is_streaming false (set_camera (Some (mkPicamera2 (started p) None)) c)
       | None => c
       end.

(** [Camera.close] *)
Definition close (c : Camera) : Camera :=
  let c := if is_streaming c then stop_streaming c else c in
  match camera c with
  | Some _ => set_camera None c
  | None => c
  end.

(** [StreamingOutput.write(buf)] on the object at [o]: store the frame and
    [notify_all], which ends the wait of every thread waiting there. *)
Definition write (o : nat) (buf : list byte) (c : Camera) : Camera :=
  match nth_error (outputs c) o with
  | Some out =>
      mkCamera (camera c) (streaming_output c) (is_streaming c)
               (update o (fun _ => mkStreamingOutput (Some buf) []) (outputs c))
               (woken c ++ waiters out)
  | None => c
  end.

(** What a call of [get_frame] by thread [t] does up to its first
    suspension point. *)
Inductive call_result : Type :=
| Returned (r : option (list byte))
| Blocked (o : nat)
| Raised (msg : string).

Definition get_frame_call (t : thread) (c : Camera) : call_result * Camera :=
  if negb (is_streaming c) then (Returned None, c)
  else match streaming_output c with
       | None => (Raised "'NoneType' object has no attribute 'condition'", c)
       | Some o =>
           (Blocked o,
            set_outputs (update o (fun out => mkStreamingOutput (frame out) (waiters out ++ [t]))
                                (outputs c)) c)
       end.

(** The [return self.streaming_output.frame] of a woken thread. *)
Definition get_frame_return (t : thread) (c : Camera) : call_result * Camera :=
  let c' := set_woken (filter (fun t' => negb (t' =? t)%nat) (woken c)) c in
  match streaming_output c with
  | None => (Raised "'NoneType' object has no attribute 'frame'", c')
  | Some o =>
      match nth_error (outputs c) o with
      | Some out => (Returned (frame out), c')
      | None => (Raised "no such object", c')
      end
  end.

(** [t] is blocked in [wait()] on the condition of output [o]. *)
Definition waits_on (t : thread) (o : nat) (c : Camera) : Prop :=
  exists out, nth_error (outputs c) o = Some out /\ In t (waiters out).

Definition waits_onb (t : thread) (o : nat) (c : Camera) : bool :=
  match nth_error (outputs c) o with
  | Some out => existsb (Nat.eqb t) (waiters out)
  | None => false
  end.

(** No encoder writes to output [o]. *)
Definition no_encoder_on (o : nat) (c : Camera) : Prop :=
  forall p, camera c = Some p -> encoder_output p <> Some o.

(** The calls that reach the camera of a running server, from whichever
    thread, and the frames of the encoder, each call taken as one step:
    the states inside [start_streaming], [stop_streaming] and [close] are
    not states of this relation ([fine_step] below has them).  The encoder
    writes only to the output it was started with, and only while it
    runs. *)
Inductive step : Camera -> Camera -> Prop :=
| step_start c : step c (start_streaming c)
| step_stop c : step c (stop_streaming c)
| step_close c : step c (close c)
| step_encoder_frame c p o buf :
    camera c = Some p -> encoder_output p = Some o ->
    step c (write o buf c)
| step_get_frame c t : step c (snd (get_frame_call t c))
| step_get_frame_return c t : In t (woken c) -> step c (snd (get_frame_return t c)).

Inductive steps : Camera -> Camera -> Prop :=
| steps_refl c : steps c c
| steps_next c1 c2 c3 : steps c1 c2 -> step c2 c3 -> steps c1 c3.

(** The flag, the output reference and the encoder agree: while
    [is_streaming] holds the encoder writes to the current output object;
    otherwise no encoder runs; and [streaming_output] refers to an object
    that exists. *)
Definition consistent (c : Camera) : Prop :=
  (is_streaming c = true ->
   exists o, streaming_output c = Some o /\
             camera c = Some (mkPicamera2 true (Some o))) /\
  (is_streaming c = false ->
   forall p, camera c = Some p -> encoder_output p = None) /\
  (forall o, streaming_output c = Some o -> (o < List.length (outputs c))%nat).

(** *** The calls, line by line

    [step] takes a call of [start_streaming], [stop_streaming] or [close]
    as one step.  Here the calls are cut at every line that writes a field
    or calls the Picamera2 object.  One thread makes these calls, one after
    the other, as the command thread and [stop()] of the server do; the
    encoder and the threads in [get_frame] run between any two lines.
    [point] is the line the calling thread is about to execute, named by
    its number in camera.py; [Stop_77] and [Stop_79] remember whether
    [stop_streaming] was called from [close]. *)
Inductive point : Type :=
| Idle
| Start_53 | Start_56 | Start_58 | Start_59 | Start_60
| Stop_77 (in_close : bool) | Stop_79 (in_close : bool)
| Close_86.

Inductive call : Type :=
| Call_start_streaming
| Call_stop_streaming
| Call_close.

(** Where [stop_streaming] returns to. *)
Definition after_stop (in_close : bool) : point :=
  if in_close then Close_86 else Idle.

(** Entering a call: the test on [is_streaming] of lines 50, 74 and 84. *)
Definition enter (k : call) (c : Camera) : point :=
  match k with
  | Call_start_streaming => if is_streaming c then Idle else Start_53
  | Call_stop_streaming => if negb (is_streaming c) then Idle else Stop_77 false
  | Call_close => if is_streaming c then Stop_77 true else Close_86
  end.

(** The line at [pt], executed.  A call on a missing Picamera2 object
    raises [AttributeError], which ends the call. *)
Definition line (pt : point) (c : Camera) : point * Camera :=
  match pt with
  | Idle => (Idle, c)
  | Start_53 =>
      (Start_56, match camera c with None => initialize c | Some _ => c end)
  | Start_56 =>
      (Start_58,
       mkCamera (camera c) (Some (List.length (outputs c))) (is_streaming c)
                (outputs c ++ [mkStreamingOutput None []]) (woken c))
  | Start_58 =>
      match camera c with
      | Some p => (Start_59, set_camera (Some (mkPicamera2 true (encoder_output p))) c)
      | None => (Idle, c)
      end
  | Start_59 =>
      match camera c with
      | Some p =>
          (Start_60, set_camera (Some (mkPicamera2 (started p) (streaming_output c))) c)
      | None => (Idle, c)
      end
  | Start_60 => (Idle, set_is_streaming true c)
  | Stop_77 k =>
      match camera c with
      | Some p => (Stop_79 k, set_camera (Some (mkPicamera2 (started p) None)) c)
      | None => (after_stop k, c)
      end
  | Stop_79 k => (after_stop k, set_is_streaming false c)
  | Close_86 =>
      (Idle, match camera c with Some _ => set_camera None c | None => c end)
  end.

Inductive fine_step : point * Camera -> point * Camera -> Prop :=
| fine_enter k c : fine_step (Idle, c) (enter k c, c)
| fine_line pt c : pt <> Idle -> fine_step (pt, c) (line pt c)
| fine_encoder_frame pt c p o buf :
    camera c = Some p -> encoder_output p = Some o ->
    fine_step (pt, c) (pt, write o buf c)
| fine_get_frame pt c t : fine_step (pt, c) (pt, snd (get_frame_call t c))
| fine_get_frame_return pt c t :
    In t (woken c) -> fine_step (pt, c) (pt, snd (get_frame_return t c)).

Inductive fine_steps : point * Camera -> point * Camera -> Prop :=
| fine_steps_refl x : fine_steps x x
| fine_steps_next x y z : fine_steps x y -> fine_step y z -> fine_steps x z.

(** The encoder writes to the current output; no encoder runs. *)
Definition encoder_on_current (c : Camera) : Prop :=
  exists o, streaming_output c = Some o /\
            camera c = Some (mkPicamera2 true (Some o)).

Definition no_encoder (c : Camera) : Prop :=
  forall p, camera c = Some p -> encoder_output p = None.

(** What holds at each line. *)
Definition fine_consistent (pt : point) (c : Camera) : Prop :=
  (forall o, streaming_output c = Some o -> (o < List.length (outputs c))%nat) /\
  match pt with
  | Idle =>
      (is_streaming c = true -> encoder_on_current c) /\
      (is_streaming c = false -> no_encoder c)
  | Start_53 => is_streaming c = false /\ no_encoder c
  | Start_56 => is_streaming c = false /\ no_encoder c /\ camera c <> None
  | Start_58 =>
      is_streaming c = false /\ no_encoder c /\ camera c <> None /\
      streaming_output c <> None
  | Start_59 =>
      is_streaming c = false /\ camera c = Some (mkPicamera2 true None) /\
      streaming_output c <> None
  | Start_60 => is_streaming c = false /\ encoder_on_current c
  | Stop_77 _ => is_streaming c = true /\ encoder_on_current c
  | Stop_79 _ =>
      is_streaming c = true /\ no_encoder c /\ streaming_output c <> None
  | Close_86 => is_streaming c = false /\ no_encoder c
  end.

End Camera.

(* ------------------------------------------------------------------ *)
(** ** tcp_server.py *)

Module TcpServer.

Local Open Scope Z_scope.

(** A peer address [(host, port)]. *)
Definition address : Type := string * Z.

Definition address_eqb (a b : address) : bool :=
  (fst a =? fst b)%string && (snd a =? snd b).

(** A connected socket: whether [close()] was called, whether writes fail
    ([fault], the text of the error raised), what the calls of [recv] to
    come will find ([inbox], one item per call: the peer's byte stream as
    the network delivers it, which need not be cut where the peer's writes
    were), and the data of each [sendall] so far. *)
Record Socket : Type := mkSocket {
  closed : bool;
  fault : option string;
  inbox : list (list byte);
  sent : list (list byte)
}.

(** A socket is in order when it is open and its peer takes writes. *)
Definition healthy (sk : Socket) : Prop :=
  closed sk = false /\ fault sk = None.

(** The same test on the socket at [s] of a heap of sockets. *)
Definition writable (l : list Socket) (s : nat) : bool :=
  match nth_error l s with
  | Some sk => negb (closed sk) && match fault sk with None => true | Some _ => false end
  | None => false
  end.

(** [socket.sendall(data)] *)
Definition sendall (data : list byte) : M Socket unit :=
  fun s =>
  if closed s then (Exc "[Errno 9] Bad file descriptor", s)
  else match fault s with
       | Some e => (Exc e, s)
       | None => (Ret tt, mkSocket (closed s) (fault s) (inbox s) (sent s ++ [data]))
       end.

(** [socket.recv(bufsize)]: at most [bufsize] bytes of what has arrived,
    the rest staying for the next call; an empty inbox is a peer that has
    closed. *)
Definition recv (bufsize : nat) : M Socket (list byte) :=
  fun s =>
  if closed s then (Exc "[Errno 9] Bad file descriptor", s)
  else match inbox s with
       | [] => (Ret [], s)
       | chunk :: rest =>
           let later := skipn bufsize chunk in
           (Ret (firstn bufsize chunk),
            mkSocket (closed s) (fault s)
                     (match later with [] => rest | _ => later :: rest end) (sent s))
       end.

(** [socket.close()] *)
Definition close (s : Socket) : Socket :=
  mkSocket true (fault s) (inbox s) (sent s).

(** [sockets] is the heap of client sockets handed out by [accept].
    [command_socket] and [video_socket] are the two listening sockets:
    [None] until [start_server] creates them, then whether [close()] was
    called on them.  [responses] and [client_threads] are ghost: the
    arguments of every [send_command_response] call, and the
    [handle_client_commands] threads started.  The handles of the accept
    threads are not modelled; connections arrive from the environment. *)
Record TCPServer : Type := mkTCPServer {
  command_socket : option bool;
  video_socket : option bool;
  command_clients : Dict.dict address;
  video_clients : Dict.dict address;
  message_queue : list (address * string);
  running : bool;
  max_clients : Z;
  sockets : list Socket;
  responses : list (address * string);
  client_threads : list (nat * address)
}.

Definition __init__ : TCPServer := mkTCPServer None None [] [] [] false 1 [] [] [].

Definition set_command_socket (l : option bool) (s : TCPServer) : TCPServer :=
  mkTCPServer l (video_socket s) (command_clients s) (video_clients s) (message_queue s)
              (running s) (max_clients s) (sockets s) (responses s) (client_threads s).

Definition set_video_socket (l : option bool) (s : TCPServer) : TCPServer :=
  mkTCPServer (command_socket s) l (command_clients s) (video_clients s) (message_queue s)
              (running s) (max_clients s) (sockets s) (responses s) (client_threads s).

Definition set_command_clients (d : Dict.dict address) (s : TCPServer) : TCPServer :=
  mkTCPServer (command_socket s) (video_socket s) d (video_clients s) (message_queue s)
              (running s) (max_clients s) (sockets s) (responses s) (client_threads s).

Definition set_video_clients (d : Dict.dict address) (s : TCPServer) : TCPServer :=
  mkTCPServer (command_socket s) (video_socket s) (command_clients s) d (message_queue s)
              (running s) (max_clients s) (sockets s) (responses s) (client_threads s).

Definition set_message_queue (q : list (address * string)) (s : TCPServer) : TCPServer :=
  mkTCPServer (command_socket s) (video_socket s) (command_clients s) (video_clients s) q
              (running s) (max_clients s) (sockets s) (responses s) (client_threads s).

Definition set_running (b : bool) (s : TCPServer) : TCPServer :=
  mkTCPServer (command_socket s) (video_socket s) (command_clients s) (video_clients s)
              (message_queue s) b (max_clients s) (sockets s) (responses s)
              (client_threads s).

Definition set_sockets (l : list Socket) (s : TCPServer) : TCPServer :=
  mkTCPServer (command_socket s) (video_socket s) (command_clients s) (video_clients s)
              (message_queue s) (running s) (max_clients s) l (responses s)
              (client_threads s).

Definition set_responses (l : list (address * string)) (s : TCPServer) : TCPServer :=
  mkTCPServer (command_socket s) (video_socket s) (command_clients s) (video_clients s)
              (message_queue s) (running s) (max_clients s) (sockets s) l
              (client_threads s).

Definition set_client_threads (l : list (nat * address)) (s : TCPServer) : TCPServer :=
  mkTCPServer (command_socket s) (video_socket s) (command_clients s) (video_clients s)
              (message_queue s) (running s) (max_clients s) (sockets s) (responses s) l.

(** Call a method of the socket object [s]. *)
Definition on_socket {A : Type} (s : nat) (m : M Socket A) : M TCPServer A :=
  fun srv =>
  match nth_error (sockets srv) s with
  | None => (Exc "no such socket", srv)
  | Some sk => let (r, sk') := m sk in
               (r, set_sockets (update s (fun _ => sk') (sockets srv)) srv)
  end.

Definition socket_close (s : nat) : M TCPServer unit :=
  modify (fun srv => set_sockets (update s close (sockets srv)) srv).

(** [listening_socket.accept()] when a peer at [addr] connects, with [data]
    what the calls of [recv] on the connection will find: a new socket
    object and the peer address. *)
Definition accept (addr : address) (data : list (list byte)) : M TCPServer (nat * address) :=
  fun srv =>
  (Ret (List.length (sockets srv), addr),
   set_sockets (sockets srv ++ [mkSocket false None data []]) srv).

(** *** [handle_command_clients]: one turn of the loop in which [accept]
    returns a connection.  The turn is cut where another thread can run
    between the capacity test and the registration. *)

(** Lines 79-84: yields the connection when it passes the capacity test. *)
Definition command_accept (addr : address) (data : list (list byte))
    : M TCPServer (option (nat * address)) :=
  (conn <- accept addr data ;;
   srv <- get ;;
   if Dict.len (command_clients srv) >=? max_clients srv then
     socket_close (fst conn) ;;; ret None
   else ret (Some conn))%py.

(** Lines 86-95. *)
Definition command_register (conn : nat * address) : M TCPServer unit :=
  modify (fun srv =>
    set_client_threads (client_threads srv ++ [conn])
      (set_command_clients (Dict.set (fst conn) (snd conn) (command_clients srv)) srv)).

Definition handle_command_clients_turn (addr : address) (data : list (list byte))
    : M TCPServer unit :=
  (c <- command_accept addr data ;;
   match c with
   | None => ret tt
   | Some conn => command_register conn
   end)%py.

(** *** [handle_video_clients], cut the same way. *)

Definition video_accept (addr : address) (data : list (list byte))
    : M TCPServer (option (nat * address)) :=
  (conn <- accept addr data ;;
   srv <- get ;;
   if Dict.len (video_clients srv) >=? max_clients srv then
     socket_close (fst conn) ;;; ret None
   else ret (Some conn))%py.

Definition video_register (conn : nat * address) : M TCPServer unit :=
  modify (fun srv =>
    set_video_clients (Dict.set (fst conn) (snd conn) (video_clients srv)) srv).

Definition handle_video_clients_turn (addr : address) (data : list (list byte))
    : M TCPServer unit :=
  (c <- video_accept addr data ;;
   match c with
   | None => ret tt
   | Some conn => video_register conn
   end)%py.

(** *** [handle_client_commands] *)

(** [data.decode('utf-8')]: the text these bytes hold, or
    [UnicodeDecodeError] when they are not well-formed UTF-8. *)
Definition decode {S : Type} (data : list byte) : M S string :=
  if Py.utf8_valid data
  then ret (string_of_list_byte data)
  else raise "'utf-8' codec can't decode bytes".

(** What makes a delivery a command the loop can queue: not empty, one
    [recv] long at most, and text. *)
Definition is_command (chunk : list byte) : Prop :=
  chunk <> [] /\ (List.length chunk <= 1024)%nat /\
  Py.utf8_valid chunk = true.

(** One turn of the [while self.running] loop; [false] is the [break]. *)
Definition handle_client_commands_turn (client_socket : nat) (client_address : address)
    : M TCPServer bool :=
  (data <- on_socket client_socket (recv 1024) ;;
   match data with
   | [] => ret false
   | _ =>
       command <- decode data ;;
       modify (fun srv =>
         set_message_queue (message_queue srv ++ [(client_address, command)]) srv) ;;;
       ret true
   end)%py.

(** The [finally] block. *)
Definition handle_client_commands_finally (client_socket : nat) : M TCPServer unit :=
  (srv <- get ;;
   (if Dict.mem client_socket (command_clients srv)
    then modify (fun srv => set_command_clients (Dict.del client_socket (command_clients srv)) srv)
    else ret tt) ;;;
   socket_close client_socket)%py.

(** *** [send_video_data] *)

(** The [try] statement in the body of the first loop; yields what it
    appends to [clients_to_remove]. *)
Definition try_send_frame (size_data frame_data : list byte) (client_socket : nat)
    : M TCPServer (list nat) :=
  try_except
    (on_socket client_socket (sendall size_data) ;;;
     on_socket client_socket (sendall frame_data) ;;;
     ret [])%py
    (fun _ => ret [client_socket]).

(** The [for ... in self.video_clients.items()] loop; yields
    [clients_to_remove]. *)
Fixpoint send_frame_loop (size_data frame_data : list byte) (items : list (nat * address))
    : M TCPServer (list nat) :=
  match items with
  | [] => ret []
  | (client_socket, _) :: rest =>
      (failed <- try_send_frame size_data frame_data client_socket ;;
       more <- send_frame_loop size_data frame_data rest ;;
       ret (failed ++ more))%py
  end.

(** The [for client_socket in clients_to_remove] loop. *)
Fixpoint remove_failed_loop (clients_to_remove : list nat) : M TCPServer unit :=
  match clients_to_remove with
  | [] => ret tt
  | client_socket :: rest =>
      (srv <- get ;;
       (if Dict.mem client_socket (video_clients srv) then ret tt
        else raise "KeyError") ;;;
       modify (fun srv => set_video_clients (Dict.del client_socket (video_clients srv)) srv) ;;;
       socket_close client_socket ;;;
       remove_failed_loop rest)%py
  end.

Definition send_video_data (frame_data : list byte) : M TCPServer bool :=
  (srv <- get ;;
   match video_clients srv with
   | [] => ret false
   | items =>
       size_data <- Py.pack_L (Z.of_nat (List.length frame_data)) ;;
       clients_to_remove <- send_frame_loop size_data frame_data items ;;
       remove_failed_loop clients_to_remove ;;;
       ret true
   end)%py.

(** *** [send_command_response] *)

Fixpoint send_response_loop (client_address : address) (response : string)
    (items : list (nat * address)) : M TCPServer bool :=
  match items with
  | [] => ret false
  | (client_socket, addr) :: rest =>
      if address_eqb addr client_address then
        try_except
          (on_socket client_socket (sendall (Py.encode response)) ;;; ret true)%py
          (fun _ => ret false)
      else send_response_loop client_address response rest
  end.

Definition send_command_response (client_address : address) (response : string)
    : M TCPServer bool :=
  (modify (fun srv => set_responses (responses srv ++ [(client_address, response)]) srv) ;;;
   srv <- get ;;
   send_response_loop client_address response (command_clients srv))%py.

(** *** [handle_client_commands], whole

    [fuel] bounds the turns of the [while] loop; [None] is a loop that has
    not ended within the bound. *)
Fixpoint client_loop (fuel : nat) (client_socket : nat) (client_address : address)
    : M TCPServer (option unit) :=
  match fuel with
  | O => ret None
  | S fuel' =>
      (srv <- get ;;
       if running srv then
         go_on <- handle_client_commands_turn client_socket client_address ;;
         if go_on then client_loop fuel' client_socket client_address
         else ret (Some tt)
       else ret (Some tt))%py
  end.

(** The [try] with its two [except] clauses, then the [finally] block. *)
Definition handle_client_commands (fuel : nat) (client_socket : nat)
    (client_address : address) : M TCPServer (option unit) :=
  (r <- try_except (client_loop fuel client_socket client_address)
                   (fun _ => ret (Some tt)) ;;
   match r with
   | Some _ => handle_client_commands_finally client_socket ;;; ret (Some tt)
   | None => ret None
   end)%py.

(** *** [broadcast_command] *)

Fixpoint broadcast_loop (message : string) (items : list (nat * address))
    : M TCPServer (list nat) :=
  match items with
  | [] => ret []
  | (client_socket, _) :: rest =>
      (failed <- try_except
                   (on_socket client_socket (sendall (Py.encode message)) ;;; ret [])%py
                   (fun _ => ret [client_socket]) ;;
       more <- broadcast_loop message rest ;;
       ret (failed ++ more))%py
  end.

Definition broadcast_command (message : string) : M TCPServer bool :=
  (srv <- get ;;
   match command_clients srv with
   | [] => ret false
   | items => broadcast_loop message items ;;; ret true
   end)%py.

(** [self.get_command_queue().get()] on a queue that is not empty. *)
Definition queue_get : M TCPServer (option (address * string)) :=
  fun srv => match message_queue srv with
             | [] => (Ret None, srv)
             | item :: rest => (Ret (Some item), set_message_queue rest srv)
             end.

Definition has_video_clients (srv : TCPServer) : bool :=
  Dict.len (video_clients srv) >? 0.

Definition has_command_clients (srv : TCPServer) : bool :=
  Dict.len (command_clients srv) >? 0.

(** [start_server] when the operating system grants both ports: [running]
    is set and the two listening sockets are created, bound and listening.
    The accept threads it starts are the steps of the environment. *)
Definition start_server (srv : TCPServer) : TCPServer :=
  set_video_socket (Some false) (set_command_socket (Some false) (set_running true srv)).

(** [if listening_socket: listening_socket.close()] *)
Definition close_listening (l : option bool) : option bool :=
  match l with
  | Some _ => Some true
  | None => None
  end.

Definition close_all (keys : list nat) (l : list Socket) : list Socket :=
  fold_left (fun l k => update k close l) keys l.

Definition stop_server (srv : TCPServer) : TCPServer :=
  let srv := set_running false srv in
  let srv := set_sockets (close_all (map fst (command_clients srv)) (sockets srv)) srv in
  let srv := set_command_clients [] srv in
  let srv := set_sockets (close_all (map fst (video_clients srv)) (sockets srv)) srv in
  let srv := set_video_clients [] srv in
  let srv := set_command_socket (close_listening (command_socket srv)) srv in
  set_video_socket (close_listening (video_socket srv)) srv.

(** The two registries and their capacity. *)
Definition registries (srv : TCPServer) : Dict.dict address * Dict.dict address * Z :=
  (command_clients srv, video_clients srv, max_clients srv).

(** *** The threads of the server, interleaved

    [command_pending] and [video_pending] hold the connection an accept
    thread has tested against the capacity and not yet registered.  Only
    the accept threads add to a registry; every other step removes entries
    or leaves them, so the accept loops are the ones cut in two. *)
Record System : Type := mkSystem {
  server : TCPServer;
  command_pending : option (nat * address);
  video_pending : option (nat * address)
}.

Definition initial : System := mkSystem __init__ None None.

Inductive step : System -> System -> Prop :=
| step_start_server srv cp vp :
    step (mkSystem srv cp vp) (mkSystem (start_server srv) cp vp)
| step_command_accept srv vp addr data :
    step (mkSystem srv None vp)
         (mkSystem (snd (command_accept addr data srv))
                   (match fst (command_accept addr data srv) with
                    | Ret c => c
                    | Exc _ => None
                    end) vp)
| step_command_register srv vp conn :
    step (mkSystem srv (Some conn) vp)
         (mkSystem (snd (command_register conn srv)) None vp)
| step_video_accept srv cp addr data :
    step (mkSystem srv cp None)
         (mkSystem (snd (video_accept addr data srv)) cp
                   (match fst (video_accept addr data srv) with
                    | Ret c => c
                    | Exc _ => None
                    end))
| step_video_register srv cp conn :
    step (mkSystem srv cp (Some conn))
         (mkSystem (snd (video_register conn srv)) cp None)
| step_client_turn srv cp vp s addr :
    In (s, addr) (client_threads srv) ->
    step (mkSystem srv cp vp)
         (mkSystem (snd (handle_client_commands_turn s addr srv)) cp vp)
| step_client_finally srv cp vp s addr :
    In (s, addr) (client_threads srv) ->
    step (mkSystem srv cp vp)
         (mkSystem (snd (handle_client_commands_finally s srv)) cp vp)
| step_send_video srv cp vp frame_data :
    step (mkSystem srv cp vp)
         (mkSystem (snd (send_video_data frame_data srv)) cp vp)
| step_send_response srv cp vp addr response :
    step (mkSystem srv cp vp)
         (mkSystem (snd (send_command_response addr response srv)) cp vp)
| step_queue_get srv cp vp :
    step (mkSystem srv cp vp)
         (mkSystem (set_message_queue (tl (message_queue srv)) srv) cp vp)
| step_peer_fault srv cp vp s e :
    step (mkSystem srv cp vp)
         (mkSystem (set_sockets
                      (update s (fun sk => mkSocket (closed sk) (Some e) (inbox sk) (sent sk))
                              (sockets srv)) srv) cp vp)
| step_stop_server srv cp vp :
    step (mkSystem srv cp vp) (mkSystem (stop_server srv) cp vp).

Inductive reachable : System -> Prop :=
| reachable_initial : reachable initial
| reachable_step s s' : reachable s -> step s s' -> reachable s'.

(** What holds of the server whichever way its threads interleave. *)
Definition within_capacity (sys : System) : Prop :=
  let srv := server sys in
  max_clients srv = 1 /\
  (List.length (command_clients srv) <= 1)%nat /\
  (List.length (video_clients srv) <= 1)%nat /\
  (command_pending sys <> None -> command_clients srv = []) /\
  (video_pending sys <> None -> video_clients srv = []).

(** *** The video wire format, read back

    The conformance reader, as the specification words it: a 4-byte
    little-endian unsigned length, then that many bytes of payload.  Yields
    the payload and the bytes after it. *)
Definition decode_u32 (b : list byte) : Z :=
  match b with
  | [b0; b1; b2; b3] =>
      Py.Z_of_byte b0 + 256 * (Py.Z_of_byte b1 + 256 * (Py.Z_of_byte b2 + 256 * Py.Z_of_byte b3))
  | _ => 0
  end.

Definition read_frame (stream : list byte) : option (list byte * list byte) :=
  if (List.length stream <? 4)%nat then None
  else
    let n := Z.to_nat (decode_u32 (firstn 4 stream)) in
    let body := skipn 4 stream in
    if (List.length body <? n)%nat then None
    else Some (firstn n body, skipn n body).

End TcpServer.

(* ------------------------------------------------------------------ *)
(** ** main.py *)

Module Main.

Import TcpServer.

(** What a started thread runs. *)
Inductive target : Type :=
| process_commands
| stream_video_frames.

(** [threads] is ghost: the target of every [Thread] started by this
    object, in order; a thread handle is the position of its entry. *)
Record LaneFollowingCar : Type := mkLaneFollowingCar {
  camera : Camera.Camera;
  tcp_server : TCPServer;
  motor_controller : Motor.MotorController;
  running : bool;
  streaming : bool;
  video_thread : option nat;
  command_thread : option nat;
  threads : list target
}.

Definition set_camera (c : Camera.Camera) (self : LaneFollowingCar) : LaneFollowingCar :=
  mkLaneFollowingCar c (tcp_server self) (motor_controller self) (running self)
    (streaming self) (video_thread self) (command_thread self) (threads self).

Definition set_tcp_server (t : TCPServer) (self : LaneFollowingCar) : LaneFollowingCar :=
  mkLaneFollowingCar (camera self) t (motor_controller self) (running self)
    (streaming self) (video_thread self) (command_thread self) (threads self).

Definition set_motor_controller (m : Motor.MotorController) (self : LaneFollowingCar)
    : LaneFollowingCar :=
  mkLaneFollowingCar (camera self) (tcp_server self) m (running self)
    (streaming self) (video_thread self) (command_thread self) (threads self).

Definition set_running (b : bool) (self : LaneFollowingCar) : LaneFollowingCar :=
  mkLaneFollowingCar (camera self) (tcp_server self) (motor_controller self) b
    (streaming self) (video_thread self) (command_thread self) (threads self).

Definition set_streaming (b : bool) (self : LaneFollowingCar) : LaneFollowingCar :=
  mkLaneFollowingCar (camera self) (tcp_server self) (motor_controller self) (running self)
    b (video_thread self) (command_thread self) (threads self).

Definition set_video_thread (t : option nat) (self : LaneFollowingCar) : LaneFollowingCar :=
  mkLaneFollowingCar (camera self) (tcp_server self) (motor_controller self) (running self)
    (streaming self) t (command_thread self) (threads self).

Definition set_command_thread (t : option nat) (self : LaneFollowingCar) : LaneFollowingCar :=
  mkLaneFollowingCar (camera self) (tcp_server self) (motor_controller self) (running self)
    (streaming self) (video_thread self) t (threads self).

Definition set_threads (l : list target) (self : LaneFollowingCar) : LaneFollowingCar :=
  mkLaneFollowingCar (camera self) (tcp_server self) (motor_controller self) (running self)
    (streaming self) (video_thread self) (command_thread self) l.

(** [self.motor_controller.m(...)], [self.tcp_server.m(...)], [self.camera.m()] *)
Definition on_motor_controller {A : Type} (m : M Motor.MotorController A) : M LaneFollowingCar A :=
  zoom motor_controller set_motor_controller m.

Definition on_tcp_server {A : Type} (m : M TCPServer A) : M LaneFollowingCar A :=
  zoom tcp_server set_tcp_server m.

Definition on_camera (f : Camera.Camera -> Camera.Camera) : M LaneFollowingCar unit :=
  modify (fun self => set_camera (f (camera self)) self).

(** [threading.Thread(target=...)] followed by [start()]; yields the handle. *)
Definition start_thread (tg : target) : M LaneFollowingCar nat :=
  fun self => (Ret (List.length (threads self)), set_threads (threads self ++ [tg]) self).

(** [LaneFollowingCar.__init__]; [hw] is the PCA9685 chip the motor
    controller finds, if any. *)
Definition __init__ (hw : option Motor.PCA9685) : LaneFollowingCar :=
  mkLaneFollowingCar Camera.__init__ TcpServer.__init__ (Motor.__init__ hw)
    false false None None [].

(** [LaneFollowingCar.start] *)
Definition start : M LaneFollowingCar unit :=
  (modify (set_running true) ;;;
   modify (fun self => set_tcp_server (start_server (tcp_server self)) self) ;;;
   on_camera Camera.initialize ;;;
   t <- start_thread process_commands ;;
   modify (set_command_thread (Some t)))%py.

Definition start_video_streaming : M LaneFollowingCar unit :=
  fun self =>
  if streaming self then (Ret tt, self)
  else
    (modify (set_streaming true) ;;;
     on_camera Camera.start_streaming ;;;
     t <- start_thread stream_video_frames ;;
     modify (set_video_thread (Some t)))%py self.

Definition stop_video_streaming : M LaneFollowingCar unit :=
  fun self =>
  if negb (streaming self) then (Ret tt, self)
  else
    (modify (set_streaming false) ;;;
     modify (fun self => match video_thread self with
                         | Some _ => set_video_thread None self
                         | None => self
                         end) ;;;
     on_camera Camera.stop_streaming)%py self.

Definition handle_motor_command (args : list string) : M LaneFollowingCar string :=
  try_except
    (if negb (List.length args =? 4)%nat then
       ret "ERROR#Invalid motor command format. Expected 4 speed values."
     else
       speeds <- Py.int_list args ;;
       match speeds with
       | [s0; s1; s2; s3] =>
           on_motor_controller (Motor.set_motor_speeds s0 s1 s2 s3) ;;;
           ret "OK#MOTOR"
       | _ => raise "list index out of range"
       end)%py
    (fun e => ret ("ERROR#" ++ e)%string).

Definition handle_stop_command (args : list string) : M LaneFollowingCar string :=
  (on_motor_controller Motor.stop ;;; ret "OK#STOP")%py.

Definition handle_stream_command (args : list string) : M LaneFollowingCar string :=
  match args with
  | [] => ret "ERROR#Missing streaming command (START/STOP)"
  | arg0 :: _ =>
      let action := Py.upper arg0 in
      if action =? "START" then
        (self <- get ;;
         if negb (streaming self) then start_video_streaming ;;; ret "OK#STREAM#STARTED"
         else ret "OK#STREAM#ALREADY_RUNNING")%py
      else if action =? "STOP" then
        (self <- get ;;
         if streaming self then stop_video_streaming ;;; ret "OK#STREAM#STOPPED"
         else ret "OK#STREAM#NOT_RUNNING")%py
      else ret ("ERROR#Unknown streaming command: " ++ action)%string
  end.

Definition handle_status_command (args : list string) : M LaneFollowingCar string :=
  (self <- get ;;
   let status :=
     [("running", running self);
      ("streaming", streaming self);
      ("video_clients", has_video_clients (tcp_server self));
      ("command_clients", has_command_clients (tcp_server self))] in
   ret ("STATUS#" ++ Py.json_dumps status)%string)%py.

(** [self.commands] *)
Definition commands : list (string * (list string -> M LaneFollowingCar string)) :=
  [("MOTOR", handle_motor_command);
   ("STOP", handle_stop_command);
   ("STREAM", handle_stream_command);
   ("STATUS", handle_status_command)].

Fixpoint lookup {V : Type} (k : string) (d : list (string * V)) : option V :=
  match d with
  | [] => None
  | (k', v) :: d' => if k' =? k then Some v else lookup k d'
  end.

Definition parse_and_execute_command (client_address : address) (command_text : string)
    : M LaneFollowingCar unit :=
  try_except
    (match Py.split "#" (Py.strip command_text) with
     | [] => ret tt
     | part0 :: rest =>
         let command := Py.upper part0 in
         let args := rest in
         match lookup command commands with
         | Some handler =>
             response <- handler args ;;
             if response =? "" then ret tt
             else
               on_tcp_server (send_command_response client_address response) ;;; ret tt
         | None =>
             on_tcp_server
               (send_command_response client_address ("ERROR#Unknown command: " ++ command)%string) ;;;
             ret tt
         end
     end)%py
    (fun e =>
       (on_tcp_server (send_command_response client_address ("ERROR#" ++ e)%string) ;;; ret tt)%py).

(** The inner loop of [process_commands]: take commands off the queue
    until it is empty.  [fuel] bounds the turns; [None] is a loop that has
    not ended within the bound. *)
Fixpoint process_queue (fuel : nat) : M LaneFollowingCar (option unit) :=
  match fuel with
  | O => ret None
  | S fuel' =>
      (item <- on_tcp_server queue_get ;;
       match item with
       | None => ret (Some tt)
       | Some (client_address, command_text) =>
           parse_and_execute_command client_address command_text ;;;
           process_queue fuel'
       end)%py
  end.

(** One turn of the loop of [stream_video_frames], from the loop test to
    the call of [get_frame], made by thread [t]. *)
Inductive turn : Type :=
| Finished
| Idle
| Frame (r : Camera.call_result).

Definition stream_video_frames_turn (t : Camera.thread) (self : LaneFollowingCar)
    : turn * LaneFollowingCar :=
  if negb (streaming self && running self) then (Finished, self)
  else if negb (has_video_clients (tcp_server self)) then (Idle, self)
  else let (r, cam) := Camera.get_frame_call t (camera self) in
       (Frame r, set_camera cam self).

(** The rest of the turn once [get_frame] has returned [frame]. *)
Definition stream_video_frames_send (frame : option (list byte)) : M LaneFollowingCar unit :=
  match frame with
  | Some (b :: data) => (on_tcp_server (send_video_data (b :: data)) ;;; ret tt)%py
  | _ => ret tt
  end.

(** [LaneFollowingCar.stop] *)
Definition stop : M LaneFollowingCar unit :=
  (modify (set_running false) ;;;
   self <- get ;;
   (if streaming self then stop_video_streaming else ret tt) ;;;
   on_motor_controller Motor.stop ;;;
   modify (fun self => set_tcp_server (stop_server (tcp_server self)) self) ;;;
   on_camera Camera.close ;;;
   on_motor_controller Motor.close)%py.

(** The car after the commands of [items], each with its sender, have
    been dispatched one after the other. *)
Definition dispatch_all (items : list (address * string)) (self : LaneFollowingCar)
    : LaneFollowingCar :=
  fold_left (fun self item => snd (parse_and_execute_command (fst item) (snd item) self))
            items self.

(** The flags of the car, its thread handle and the camera agree on
    whether the video pipeline runs. *)
Definition stream_consistent (self : LaneFollowingCar) : Prop :=
  Camera.is_streaming (camera self) = streaming self /\
  Camera.camera (camera self) <> None /\
  (streaming self = true ->
   video_thread self <> None /\
   exists o, Camera.streaming_output (camera self) = Some o /\
             (o < List.length (Camera.outputs (camera self)))%nat /\
             Camera.camera (camera self) = Some (Camera.mkPicamera2 true (Some o))) /\
  (streaming self = false ->
   video_thread self = None /\
   forall p, Camera.camera (camera self) = Some p -> Camera.encoder_output p = None).

(** What every handler leaves behind: the TCP server and [running] as
    they were, and a response that is not empty when it returns one. *)
Definition handler_ok (h : list string -> M LaneFollowingCar string) : Prop :=
  forall args self,
    tcp_server (snd (h args self)) = tcp_server self /\
    running (snd (h args self)) = running self /\
    forall r, fst (h args self) = Ret r -> r <> ""%string.

(** The fields of the car that only the STREAM handler writes. *)
Definition stream_state (self : LaneFollowingCar)
    : Camera.Camera * bool * option nat * list target :=
  (camera self, streaming self, video_thread self, threads self).

(** *** Reading the state *)

(** The state after [self.tcp_server.send_command_response(addr, response)]. *)
Definition responded (addr : address) (response : string) (self : LaneFollowingCar)
    : LaneFollowingCar :=
  snd (on_tcp_server (send_command_response addr response) self).

(** Every response handed to the TCP server so far, with its addressee. *)
Definition sent_responses (self : LaneFollowingCar) : list (address * string) :=
  responses (tcp_server self).

(** The verb as the specification words the parser: split on [#], first
    token uppercased. *)
Definition verb_by_split_only (command_text : string) : string :=
  Py.upper (hd "" (Py.split "#" command_text)).

End Main.

(* ------------------------------------------------------------------ *)
(** ** States and inputs to run the model on *)

Module Sample.

(** A PCA9685 chip that answers. *)
Definition chip : Motor.PCA9685 := Motor.mkPCA9685 None None [].

(** The car after [__init__] and [start()], with a working chip. *)
Definition car : Main.LaneFollowingCar := snd (Main.start (Main.__init__ (Some chip))).

(** The car after [__init__] and [start()] when the [pca9685] module is
    missing. *)
Definition car_without_chip : Main.LaneFollowingCar := snd (Main.start (Main.__init__ None)).

(** The started car when the chip has stopped answering on the bus. *)
Definition car_with_silent_chip : Main.LaneFollowingCar :=
  Main.set_motor_controller
    (Motor.mkMotorController
       (Some (Motor.mkPCA9685 (Some "[Errno 121] Remote I/O error") (Some 50%Z) []))
       true [])
    car.

Definition peer : TcpServer.address := ("192.168.1.20", 50000%Z).

Definition viewer : TcpServer.address := ("192.168.1.21", 50001%Z).

(** A server with one video client, admitted by the accept loop. *)
Definition server_with_viewer : TcpServer.TCPServer :=
  snd (TcpServer.handle_video_clients_turn viewer []
         (TcpServer.start_server TcpServer.__init__)).

(** A payload of 65536 zero bytes. *)
Definition big_payload : list byte := repeat x00 (N.to_nat 65536).

(** The server threads after one command client was admitted and
    registered. *)
Definition system_with_operator : TcpServer.System :=
  TcpServer.mkSystem
    (snd (TcpServer.handle_command_clients_turn peer [] TcpServer.__init__)) None None.

Definition newline : string := String "010"%char "".

(** The server whose one video client has dropped the connection. *)
Definition server_with_lost_viewer : TcpServer.TCPServer :=
  TcpServer.set_sockets [TcpServer.mkSocket false (Some "[Errno 32] Broken pipe") [] []]
    server_with_viewer.

(** The server with one command client whose [recv] calls will return
    two commands, one per call, and then the end of the stream; with one
    whose two commands arrive in a single [recv] result; and with one that
    has sent bytes that are not text. *)
Definition server_with_session : TcpServer.TCPServer :=
  TcpServer.start_server
    (snd (TcpServer.handle_command_clients_turn peer
            [Py.encode "STATUS"; Py.encode "STOP"] TcpServer.__init__)).

Definition server_with_merged_writes : TcpServer.TCPServer :=
  TcpServer.start_server
    (snd (TcpServer.handle_command_clients_turn peer
            [Py.encode "STATUS" ++ Py.encode "STOP"] TcpServer.__init__)).

Definition server_with_garbage : TcpServer.TCPServer :=
  TcpServer.start_server
    (snd (TcpServer.handle_command_clients_turn peer [[xff; xfe]] TcpServer.__init__)).

(** The started car with two commands waiting in the queue. *)
Definition car_with_queue : Main.LaneFollowingCar :=
  Main.set_tcp_server
    (TcpServer.set_message_queue [(peer, "status"); (viewer, "stop#1")]%string
       (Main.tcp_server car))
    car.

End Sample.

(* ================================================================== *)
(** * Properties *)

Local Open Scope Z_scope.

(** Unfolds the plumbing of the monad. *)
Ltac run_py :=
  unfold bind, ret, raise, modify, get, zoom, try_except; simpl.

(* ------------------------------------------------------------------ *)
(** ** The motor driver *)

Lemma duty_range_bounds (d : Z) : -4095 <= Motor._duty_range d <= 4095.
Proof.
  unfold Motor._duty_range.
  destruct (Z.gtb_spec d 4095); [lia|].
  destruct (Z.ltb_spec d (-4095)); lia.
Qed.

Lemma duty_range_id (d : Z) : -4095 <= d <= 4095 -> Motor._duty_range d = d.
Proof.
  intros H. unfold Motor._duty_range.
  destruct (Z.gtb_spec d 4095); [lia|].
  destruct (Z.ltb_spec d (-4095)); [lia|reflexivity].
Qed.

Lemma duty_range_idem (d : Z) :
  Motor._duty_range (Motor._duty_range d) = Motor._duty_range d.
Proof. apply duty_range_id, duty_range_bounds. Qed.

(** On a chip that answers, [_set_motor] makes the writes of the wiring
    table, for the duty limited to the valid range. *)
Lemma set_motor_writes (i d : Z) (dev : Motor.PCA9685) (calls : list (Z * Z * Z * Z)) :
  0 <= i <= 3 ->
  Motor.pwm_fault dev = None ->
  Motor._set_motor i d (Motor.mkMotorController (Some dev) true calls) =
  (Ret tt,
   Motor.mkMotorController
     (Some (Motor.mkPCA9685 None (Motor.pwm_freq dev)
              (Motor.pwm_writes dev ++ Motor.wheel_writes i (Motor._duty_range d))))
     true calls).
Proof.
  intros Hi Hf.
  assert (Hcase : i = 0 \/ i = 1 \/ i = 2 \/ i = 3) by lia.
  destruct dev as [flt freq ws]; simpl in Hf; subst flt.
  unfold Motor._set_motor, Motor.wheel_writes.
  destruct Hcase as [-> | [-> | [-> | ->]]]; simpl;
    destruct (Z.gtb_spec (Motor._duty_range d) 0);
    try destruct (Z.ltb_spec (Motor._duty_range d) 0);
    unfold bind, Motor.self_pwm_set_motor_pwm, Motor.set_motor_pwm; simpl;
    rewrite <- ?app_assoc; reflexivity.
Qed.

(** [set_motor_speeds] on a chip that answers. *)
Lemma set_motor_speeds_writes (a b c d : Z) (dev : Motor.PCA9685)
    (calls : list (Z * Z * Z * Z)) :
  Motor.pwm_fault dev = None ->
  Motor.set_motor_speeds a b c d (Motor.mkMotorController (Some dev) true calls) =
  (Ret tt,
   Motor.mkMotorController
     (Some (Motor.mkPCA9685 None (Motor.pwm_freq dev)
              (Motor.pwm_writes dev ++ Motor.speed_writes a b c d)))
     true (calls ++ [(a, b, c, d)])).
Proof.
  intros Hf. unfold Motor.set_motor_speeds, Motor.log_speed_call. simpl.
  unfold bind.
  rewrite set_motor_writes by (lia || assumption).
  rewrite set_motor_writes by (lia || reflexivity).
  rewrite set_motor_writes by (lia || reflexivity).
  rewrite set_motor_writes by (lia || reflexivity).
  simpl. rewrite !duty_range_idem. unfold Motor.speed_writes.
  rewrite <- !app_assoc. reflexivity.
Qed.

(** [set_motor_speeds] on a controller that is not initialized: nothing
    but the return. *)
Lemma set_motor_speeds_degraded (a b c d : Z) (mc : Motor.MotorController) :
  Motor.initialized mc = false ->
  Motor.set_motor_speeds a b c d mc = (Ret tt, Motor.log_speed_call (a, b, c, d) mc).
Proof.
  intros H. unfold Motor.set_motor_speeds. simpl. rewrite H. reflexivity.
Qed.

(** Whatever the chip does, [set_motor_speeds] records its call and
    nothing else in the ghost history. *)
Lemma set_motor_speeds_call (a b c d : Z) (mc : Motor.MotorController) :
  Motor.speed_calls (snd (Motor.set_motor_speeds a b c d mc)) =
  Motor.speed_calls mc ++ [(a, b, c, d)].
Proof.
  assert (Hpw : forall ch du m,
             Motor.speed_calls (snd (Motor.self_pwm_set_motor_pwm ch du m)) = Motor.speed_calls m).
  { intros ch du m. unfold Motor.self_pwm_set_motor_pwm.
    destruct (Motor.pwm m) as [dev|]; [|reflexivity].
    unfold Motor.set_motor_pwm. destruct (Motor.pwm_fault dev); reflexivity. }
  assert (Hseq : forall c1 d1 c2 d2 m,
             Motor.speed_calls
               (snd ((Motor.self_pwm_set_motor_pwm c1 d1 ;;; Motor.self_pwm_set_motor_pwm c2 d2)%py m))
             = Motor.speed_calls m).
  { intros. unfold bind.
    pose proof (Hpw c1 d1 m) as H1.
    destruct (Motor.self_pwm_set_motor_pwm c1 d1 m) as [[[]|e] m1]; simpl in H1.
    - rewrite Hpw. exact H1.
    - exact H1. }
  assert (Hsm : forall i du m,
             Motor.speed_calls (snd (Motor._set_motor i du m)) = Motor.speed_calls m).
  { intros i du m. unfold Motor._set_motor.
    destruct (negb (Motor.initialized m)); [reflexivity|].
    repeat match goal with
           | |- context [if ?b then _ else _] => destruct b
           end; try apply Hseq; reflexivity. }
  unfold Motor.set_motor_speeds.
  set (m0 := Motor.log_speed_call (a, b, c, d) mc).
  change (Motor.speed_calls mc ++ [(a, b, c, d)]) with (Motor.speed_calls m0).
  destruct (negb (Motor.initialized m0)); [reflexivity|].
  unfold bind.
  pose proof (Hsm 0 (Motor._duty_range a) m0) as H0.
  destruct (Motor._set_motor 0 (Motor._duty_range a) m0) as [[[]|e] m1]; simpl in H0; [|exact H0].
  pose proof (Hsm 1 (Motor._duty_range b) m1) as H1.
  destruct (Motor._set_motor 1 (Motor._duty_range b) m1) as [[[]|e] m2]; simpl in H1; [|simpl; congruence].
  pose proof (Hsm 2 (Motor._duty_range c) m2) as H2.
  destruct (Motor._set_motor 2 (Motor._duty_range c) m2) as [[[]|e] m3]; simpl in H2; [|simpl; congruence].
  simpl. rewrite Hsm. congruence.
Qed.

(* ------------------------------------------------------------------ *)
(** ** Sending a response *)

Lemma send_response_loop_total (a : TcpServer.address) (r : string)
    (items : list (nat * TcpServer.address)) (srv : TcpServer.TCPServer) :
  exists b, fst (TcpServer.send_response_loop a r items srv) = Ret b.
Proof.
  induction items as [|[s addr] rest IH]; simpl.
  - exists false. reflexivity.
  - destruct (TcpServer.address_eqb addr a); [|exact IH].
    unfold try_except, bind, TcpServer.on_socket.
    destruct (nth_error (TcpServer.sockets srv) s) as [sk|]; simpl.
    + destruct (TcpServer.sendall (Py.encode r) sk) as [[[]|e] sk']; simpl; eauto.
    + eauto.
Qed.

(** Apart from the sockets written to, a response loop changes nothing. *)
Lemma send_response_loop_frame (a : TcpServer.address) (r : string)
    (items : list (nat * TcpServer.address)) (srv : TcpServer.TCPServer) :
  exists l, snd (TcpServer.send_response_loop a r items srv) = TcpServer.set_sockets l srv.
Proof.
  induction items as [|[s addr] rest IH]; simpl.
  - exists (TcpServer.sockets srv). destruct srv; reflexivity.
  - destruct (TcpServer.address_eqb addr a); [|exact IH].
    unfold try_except, bind, TcpServer.on_socket.
    destruct (nth_error (TcpServer.sockets srv) s) as [sk|]; simpl.
    + destruct (TcpServer.sendall (Py.encode r) sk) as [[[]|e] sk']; simpl; eauto.
    + exists (TcpServer.sockets srv). destruct srv; reflexivity.
Qed.

Lemma send_command_response_total (a : TcpServer.address) (r : string)
    (srv : TcpServer.TCPServer) :
  exists b, TcpServer.send_command_response a r srv =
            (Ret b, snd (TcpServer.send_command_response a r srv)).
Proof.
  unfold TcpServer.send_command_response. run_py.
  match goal with
  | |- context [TcpServer.send_response_loop a r ?i ?s] =>
      destruct (send_response_loop_total a r i s) as [b Hb];
      destruct (TcpServer.send_response_loop a r i s) as [o s']
  end.
  simpl in Hb. subst o. exists b. reflexivity.
Qed.

Lemma send_command_response_frame (a : TcpServer.address) (r : string)
    (srv : TcpServer.TCPServer) :
  exists l, snd (TcpServer.send_command_response a r srv) =
            TcpServer.set_sockets l
              (TcpServer.set_responses (TcpServer.responses srv ++ [(a, r)]) srv).
Proof.
  unfold TcpServer.send_command_response. run_py.
  match goal with
  | |- context [TcpServer.send_response_loop a r ?i ?s] =>
      destruct (send_response_loop_frame a r i s) as [l Hl];
      destruct (send_response_loop_total a r i s) as [b Hb];
      destruct (TcpServer.send_response_loop a r i s) as [o s']
  end.
  simpl in Hl, Hb. subst o s'. exists l. reflexivity.
Qed.

Lemma address_eqb_refl (a : TcpServer.address) : TcpServer.address_eqb a a = true.
Proof.
  unfold TcpServer.address_eqb. rewrite String.eqb_refl, Z.eqb_refl. reflexivity.
Qed.

(** With the addressee as the one registered command client, on a socket
    in order, the response is written to that socket, encoded, in one
    [sendall]. *)
Lemma response_reaches_client (a : TcpServer.address) (r : string)
    (srv : TcpServer.TCPServer) (s : nat) (sk : TcpServer.Socket) :
  TcpServer.command_clients srv = [(s, a)] ->
  nth_error (TcpServer.sockets srv) s = Some sk ->
  TcpServer.healthy sk ->
  TcpServer.send_command_response a r srv =
  (Ret true,
   TcpServer.set_sockets
     (update s (fun _ => TcpServer.mkSocket false None (TcpServer.inbox sk)
                           (TcpServer.sent sk ++ [Py.encode r]))
             (TcpServer.sockets srv))
     (TcpServer.set_responses (TcpServer.responses srv ++ [(a, r)]) srv)).
Proof.
  intros Hreg Hn [Hc Hf]. unfold TcpServer.send_command_response, bind, modify, get.
  simpl. rewrite Hreg. simpl. rewrite address_eqb_refl.
  unfold try_except, bind, TcpServer.on_socket, TcpServer.sendall. simpl.
  rewrite Hn, Hc, Hf. reflexivity.
Qed.

(** With no command client registered, sending a response writes nothing. *)
Lemma response_without_client (a : TcpServer.address) (r : string)
    (srv : TcpServer.TCPServer) :
  TcpServer.command_clients srv = [] ->
  TcpServer.send_command_response a r srv =
  (Ret false, TcpServer.set_responses (TcpServer.responses srv ++ [(a, r)]) srv).
Proof.
  intros Hreg. unfold TcpServer.send_command_response, bind, modify, get.
  simpl. rewrite Hreg. reflexivity.
Qed.

Lemma responded_eq (a : TcpServer.address) (r : string) (self : Main.LaneFollowingCar) :
  exists b, Main.on_tcp_server (TcpServer.send_command_response a r) self =
            (Ret b, Main.responded a r self).
Proof.
  unfold Main.responded, Main.on_tcp_server, zoom.
  destruct (send_command_response_total a r (Main.tcp_server self)) as [b Hb].
  rewrite Hb. exists b. reflexivity.
Qed.

(** What [responded] changes: the response history grows by the response,
    and sockets may be written to. *)
Lemma responded_frame (a : TcpServer.address) (r : string) (self : Main.LaneFollowingCar) :
  Main.sent_responses (Main.responded a r self) = Main.sent_responses self ++ [(a, r)] /\
  Main.motor_controller (Main.responded a r self) = Main.motor_controller self /\
  Main.camera (Main.responded a r self) = Main.camera self /\
  Main.running (Main.responded a r self) = Main.running self /\
  Main.streaming (Main.responded a r self) = Main.streaming self /\
  Main.video_thread (Main.responded a r self) = Main.video_thread self /\
  Main.threads (Main.responded a r self) = Main.threads self /\
  TcpServer.command_clients (Main.tcp_server (Main.responded a r self)) =
    TcpServer.command_clients (Main.tcp_server self) /\
  TcpServer.video_clients (Main.tcp_server (Main.responded a r self)) =
    TcpServer.video_clients (Main.tcp_server self).
Proof.
  unfold Main.responded, Main.sent_responses, Main.on_tcp_server, zoom.
  destruct (send_command_response_total a r (Main.tcp_server self)) as [b Hb].
  destruct (send_command_response_frame a r (Main.tcp_server self)) as [l Hl].
  rewrite Hb. simpl. rewrite Hl. simpl. repeat split; reflexivity.
Qed.

(* ------------------------------------------------------------------ *)
(** ** The dispatcher *)

(** A command whose verb is in the table: the handler runs, and its
    response, or the text of the exception it raised, is sent back. *)
Lemma dispatch_known (addr : TcpServer.address) (text part0 : string) (args : list string)
    (h : list string -> M Main.LaneFollowingCar string) (self : Main.LaneFollowingCar) :
  Py.split "#" (Py.strip text) = part0 :: args ->
  Main.lookup (Py.upper part0) Main.commands = Some h ->
  Main.parse_and_execute_command addr text self =
  (Ret tt,
   match h args self with
   | (Ret response, self') =>
       if (response =? "")%string then self' else Main.responded addr response self'
   | (Exc e, self') => Main.responded addr ("ERROR#" ++ e)%string self'
   end).
Proof.
  intros Hs Hl. unfold Main.parse_and_execute_command.
  rewrite Hs, Hl. unfold try_except, bind at 1.
  destruct (h args self) as [[response|e] self'].
  - destruct (response =? "")%string; [reflexivity|].
    unfold bind. destruct (responded_eq addr response self') as [b ->]. reflexivity.
  - unfold bind. destruct (responded_eq addr ("ERROR#" ++ e)%string self') as [b ->].
    reflexivity.
Qed.

(** A command whose verb is not in the table: one response, nothing else. *)
Lemma dispatch_unknown (addr : TcpServer.address) (text part0 : string) (args : list string)
    (self : Main.LaneFollowingCar) :
  Py.split "#" (Py.strip text) = part0 :: args ->
  Main.lookup (Py.upper part0) Main.commands = None ->
  Main.parse_and_execute_command addr text self =
  (Ret tt, Main.responded addr ("ERROR#Unknown command: " ++ Py.upper part0)%string self).
Proof.
  intros Hs Hl. unfold Main.parse_and_execute_command.
  rewrite Hs, Hl. unfold try_except, bind.
  destruct (responded_eq addr ("ERROR#Unknown command: " ++ Py.upper part0)%string self)
    as [b ->].
  reflexivity.
Qed.

Lemma split_nonempty (sep : ascii) (s : string) : Py.split sep s <> [].
Proof.
  destruct s as [|c s]; simpl; [discriminate|].
  destruct (Ascii.eqb c sep); [discriminate|].
  destruct (Py.split sep s); discriminate.
Qed.

Lemma lookup_none_iff {V : Type} (k : string) (d : list (string * V)) :
  Main.lookup k d = None <-> ~ In k (map fst d).
Proof.
  induction d as [|[k' v] d IH]; cbn [Main.lookup map fst In].
  - tauto.
  - destruct (String.eqb_spec k' k) as [->|Hne].
    + split; [discriminate|]. intros H. exfalso. apply H. now left.
    + rewrite IH. tauto.
Qed.

(* ------------------------------------------------------------------ *)
(** ** MOTOR and STOP *)

Lemma int_list_values {S : Type} (args : list string) (vs : list Z) (s : S) :
  Forall2 (fun t v => Py.parse_int t = Some v) args vs ->
  Py.int_list args s = (Ret vs, s).
Proof.
  intros H. induction H as [|t v args vs Ht _ IH]; simpl; [reflexivity|].
  unfold bind, Py.int. rewrite Ht. unfold ret at 1. rewrite IH. reflexivity.
Qed.

Lemma int_list_error {S : Type} (args : list string) (s : S) :
  (exists t, In t args /\ Py.parse_int t = None) ->
  exists t, In t args /\ Py.parse_int t = None /\
            Py.int_list args s = (Exc (Py.int_error t), s).
Proof.
  induction args as [|a args IH]; intros [t [Hin Ht]]; [destruct Hin|].
  simpl. unfold bind, Py.int.
  destruct (Py.parse_int a) as [v|] eqn:Ha.
  - destruct Hin as [->|Hin]; [congruence|].
    destruct IH as [t' [Hin' [Ht' Heq]]]; [eauto|].
    exists t'. unfold ret at 1. rewrite Heq. auto.
  - exists a. unfold raise. auto.
Qed.

(** MOTOR with four integer tokens: the values go to [set_motor_speeds];
    the response is OK#MOTOR unless the chip raised. *)
Lemma handle_motor_four (t0 t1 t2 t3 : string) (v0 v1 v2 v3 : Z)
    (self : Main.LaneFollowingCar) :
  Py.parse_int t0 = Some v0 -> Py.parse_int t1 = Some v1 ->
  Py.parse_int t2 = Some v2 -> Py.parse_int t3 = Some v3 ->
  Main.handle_motor_command [t0; t1; t2; t3] self =
  match Motor.set_motor_speeds v0 v1 v2 v3 (Main.motor_controller self) with
  | (Ret _, mc) => (Ret "OK#MOTOR"%string, Main.set_motor_controller mc self)
  | (Exc e, mc) => (Ret ("ERROR#" ++ e)%string, Main.set_motor_controller mc self)
  end.
Proof.
  intros H0 H1 H2 H3. unfold Main.handle_motor_command. cbn [List.length Nat.eqb negb].
  unfold try_except, bind at 1.
  rewrite (int_list_values [t0; t1; t2; t3] [v0; v1; v2; v3]) by (repeat constructor; assumption).
  unfold bind, Main.on_motor_controller, zoom.
  destruct (Motor.set_motor_speeds v0 v1 v2 v3 (Main.motor_controller self)) as [[[]|e] mc];
    reflexivity.
Qed.

Lemma responsive_cases (mc : Motor.MotorController) :
  Motor.responsive mc = true ->
  Motor.initialized mc = false \/
  exists dev calls, mc = Motor.mkMotorController (Some dev) true calls /\
                    Motor.pwm_fault dev = None.
Proof.
  destruct mc as [p [|] calls]; unfold Motor.responsive; simpl; [|auto].
  destruct p as [dev|]; [|discriminate].
  destruct (Motor.pwm_fault dev) eqn:E; [discriminate|]. intros _. right. eauto.
Qed.

(** With a chip that answers, or with none in use, [set_motor_speeds]
    returns normally. *)
Lemma set_motor_speeds_returns (a b c d : Z) (mc : Motor.MotorController) :
  Motor.responsive mc = true ->
  fst (Motor.set_motor_speeds a b c d mc) = Ret tt /\
  Motor.writes (snd (Motor.set_motor_speeds a b c d mc)) =
    Motor.writes mc ++ (if Motor.initialized mc then Motor.speed_writes a b c d else []).
Proof.
  intros H. destruct (responsive_cases mc H) as [Hi | [dev [calls [-> Hf]]]].
  - rewrite set_motor_speeds_degraded by assumption. rewrite Hi. simpl.
    unfold Motor.writes. simpl. rewrite app_nil_r. auto.
  - rewrite set_motor_speeds_writes by assumption. auto.
Qed.

(** C1. A dispatched MOTOR command with exactly four integer tokens, each
    within [-4095, 4095], is answered OK#MOTOR, and [set_motor_speeds] is
    called once, with those four values in the order of the command; on an
    initialized controller they reach the chip unchanged.  The chip is
    assumed to answer (or the controller not to be initialized). *)
Theorem motor_command_in_range (addr : TcpServer.address) (text part0 t0 t1 t2 t3 : string)
    (v0 v1 v2 v3 : Z) (self : Main.LaneFollowingCar) :
  Py.split "#" (Py.strip text) = [part0; t0; t1; t2; t3] ->
  Py.upper part0 = "MOTOR"%string ->
  Py.parse_int t0 = Some v0 -> Py.parse_int t1 = Some v1 ->
  Py.parse_int t2 = Some v2 -> Py.parse_int t3 = Some v3 ->
  -4095 <= v0 <= 4095 -> -4095 <= v1 <= 4095 ->
  -4095 <= v2 <= 4095 -> -4095 <= v3 <= 4095 ->
  Motor.responsive (Main.motor_controller self) = true ->
  let self' := snd (Main.parse_and_execute_command addr text self) in
  Main.sent_responses self' = Main.sent_responses self ++ [(addr, "OK#MOTOR"%string)] /\
  Motor.speed_calls (Main.motor_controller self') =
    Motor.speed_calls (Main.motor_controller self) ++ [(v0, v1, v2, v3)] /\
  (Motor.initialized (Main.motor_controller self) = true ->
   Motor.writes (Main.motor_controller self') =
     Motor.writes (Main.motor_controller self) ++
     Motor.wheel_writes 0 v0 ++ Motor.wheel_writes 1 v1 ++
     Motor.wheel_writes 2 v2 ++ Motor.wheel_writes 3 v3).
Proof.
  intros Hs Hu H0 H1 H2 H3 R0 R1 R2 R3 Hr self'. subst self'.
  rewrite (dispatch_known addr text part0 [t0; t1; t2; t3] Main.handle_motor_command)
    by (assumption || (rewrite Hu; reflexivity)).
  rewrite (handle_motor_four t0 t1 t2 t3 v0 v1 v2 v3) by assumption.
  pose proof (set_motor_speeds_returns v0 v1 v2 v3 _ Hr) as [Hret Hw].
  pose proof (set_motor_speeds_call v0 v1 v2 v3 (Main.motor_controller self)) as Hc.
  destruct (Motor.set_motor_speeds v0 v1 v2 v3 (Main.motor_controller self)) as [o mc].
  simpl in Hret, Hw, Hc. subst o. cbn [snd String.eqb].
  destruct (responded_frame addr "OK#MOTOR" (Main.set_motor_controller mc self))
    as (Hresp & Hmc & _).
  rewrite Hresp, Hmc. simpl. repeat split; try assumption.
  intros Hi. rewrite Hw, Hi. unfold Motor.speed_writes.
  rewrite !duty_range_id by assumption. reflexivity.
Qed.

Lemma motor_command_in_range_witness :
  let self' := snd (Main.parse_and_execute_command Sample.peer "MOTOR#100#-200#0#4095"
                      Sample.car) in
  Main.sent_responses self' = [(Sample.peer, "OK#MOTOR"%string)] /\
  Motor.speed_calls (Main.motor_controller self') = [(100, -200, 0, 4095)] /\
  (Motor.initialized (Main.motor_controller Sample.car) = true ->
   Motor.writes (Main.motor_controller self') =
     [(0, 0); (1, 100); (2, 0); (3, 200); (6, 4095); (7, 4095); (4, 0); (5, 4095)]).
Proof.
  apply (motor_command_in_range Sample.peer "MOTOR#100#-200#0#4095" "MOTOR"
           "100" "-200" "0" "4095" 100 (-200) 0 4095 Sample.car);
    first [reflexivity | lia].
Defined.

(** When the chip raises, the [except] of the MOTOR handler reports the
    text of the error; [set_motor_speeds] has been called all the same. *)
Lemma motor_command_chip_error :
  let self' := snd (Main.parse_and_execute_command Sample.peer "MOTOR#1#2#3#4"
                      Sample.car_with_silent_chip) in
  Main.sent_responses self' =
    [(Sample.peer, "ERROR#[Errno 121] Remote I/O error"%string)] /\
  Motor.speed_calls (Main.motor_controller self') = [(1, 2, 3, 4)] /\
  Motor.writes (Main.motor_controller self') = [].
Proof. repeat split. Qed.

Lemma startswith_error (e : string) : Py.startswith "ERROR#" ("ERROR#" ++ e) = true.
Proof. reflexivity. Qed.

(** MOTOR with a wrong number of tokens, or a token that is no integer:
    an ERROR# result and an untouched car. *)
Lemma handle_motor_rejected (args : list string) (self : Main.LaneFollowingCar) :
  List.length args <> 4%nat \/ (exists t, In t args /\ Py.parse_int t = None) ->
  exists msg, Main.handle_motor_command args self = (Ret msg, self) /\
              Py.startswith "ERROR#" msg = true.
Proof.
  intros H. unfold Main.handle_motor_command, try_except.
  destruct (Nat.eqb_spec (List.length args) 4) as [Hlen|Hlen]; cbn [negb].
  - destruct H as [H|H]; [contradiction|].
    destruct (int_list_error args self H) as [t [_ [_ Heq]]].
    unfold bind. rewrite Heq. eexists. split; [reflexivity|apply startswith_error].
  - eexists. split; reflexivity.
Qed.



Lemma wheel_writes_in_range (i d : Z) :
  -4095 <= d <= 4095 ->
  Forall (fun w => 0 <= snd w <= 4095) (Motor.wheel_writes i d).
Proof.
  intros H. unfold Motor.wheel_writes.
  destruct (Motor.channels i) as [[a b]|]; [|constructor].
  destruct (Z.gtb_spec d 0); [|destruct (Z.ltb_spec d 0)];
    repeat constructor; simpl; lia.
Qed.

(** C7. The limiting function yields 4095 above 4095, -4095 below -4095
    and its argument otherwise.  So a MOTOR command with four integer
    tokens is answered OK#MOTOR whatever their values, and the PWM writes
    it causes are those of the values limited to the nearest bound: every
    duty that reaches the chip lies in [0, 4095].  The chip is assumed to
    answer. *)
Theorem motor_duty_clamped :
  (forall d : Z,
      (d > 4095 -> Motor._duty_range d = 4095) /\
      (d < -4095 -> Motor._duty_range d = -4095) /\
      (-4095 <= d <= 4095 -> Motor._duty_range d = d)) /\
  (forall (addr : TcpServer.address) (text part0 t0 t1 t2 t3 : string)
          (v0 v1 v2 v3 : Z) (self : Main.LaneFollowingCar),
      Py.split "#" (Py.strip text) = [part0; t0; t1; t2; t3] ->
      Py.upper part0 = "MOTOR"%string ->
      Py.parse_int t0 = Some v0 -> Py.parse_int t1 = Some v1 ->
      Py.parse_int t2 = Some v2 -> Py.parse_int t3 = Some v3 ->
      Motor.initialized (Main.motor_controller self) = true ->
      Motor.responsive (Main.motor_controller self) = true ->
      let self' := snd (Main.parse_and_execute_command addr text self) in
      let new_writes :=
        Motor.wheel_writes 0 (Motor._duty_range v0) ++
        Motor.wheel_writes 1 (Motor._duty_range v1) ++
        Motor.wheel_writes 2 (Motor._duty_range v2) ++
        Motor.wheel_writes 3 (Motor._duty_range v3) in
      Main.sent_responses self' = Main.sent_responses self ++ [(addr, "OK#MOTOR"%string)] /\
      Motor.writes (Main.motor_controller self') =
        Motor.writes (Main.motor_controller self) ++ new_writes /\
      Forall (fun w => 0 <= snd w <= 4095) new_writes).
Proof.
  split.
  - intros d. unfold Motor._duty_range.
    destruct (Z.gtb_spec d 4095); [repeat split; intros; lia|].
    destruct (Z.ltb_spec d (-4095)); repeat split; intros; lia.
  - intros addr text part0 t0 t1 t2 t3 v0 v1 v2 v3 self Hs Hu H0 H1 H2 H3 Hi Hr self' nw.
    subst self' nw.
    rewrite (dispatch_known addr text part0 [t0; t1; t2; t3] Main.handle_motor_command)
      by (assumption || (rewrite Hu; reflexivity)).
    rewrite (handle_motor_four t0 t1 t2 t3 v0 v1 v2 v3) by assumption.
    pose proof (set_motor_speeds_returns v0 v1 v2 v3 _ Hr) as [Hret Hw].
    destruct (Motor.set_motor_speeds v0 v1 v2 v3 (Main.motor_controller self)) as [o mc].
    simpl in Hret, Hw. subst o. cbn [snd String.eqb].
    destruct (responded_frame addr "OK#MOTOR" (Main.set_motor_controller mc self))
      as (Hresp & Hmc & _).
    rewrite Hresp, Hmc. simpl. rewrite Hw, Hi.
    repeat split.
    repeat (apply Forall_app; split); apply wheel_writes_in_range, duty_range_bounds.
Qed.

Lemma motor_duty_clamped_witness :
  Motor._duty_range 5000 = 4095 /\
  Motor._duty_range (-5000) = -4095 /\
  Motor._duty_range 17 = 17 /\
  let self' := snd (Main.parse_and_execute_command Sample.peer "MOTOR#5000#-5000#17#0"
                      Sample.car) in
  Main.sent_responses self' = [(Sample.peer, "OK#MOTOR"%string)] /\
  Motor.writes (Main.motor_controller self') =
    [(0, 0); (1, 4095); (2, 0); (3, 4095); (6, 0); (7, 17); (4, 4095); (5, 4095)].
Proof.
  destruct motor_duty_clamped as [Hclamp Hcmd].
  split; [apply (Hclamp 5000); lia|].
  split; [apply (Hclamp (-5000)); lia|].
  split; [apply (Hclamp 17); lia|].
  destruct (Hcmd Sample.peer "MOTOR#5000#-5000#17#0"%string "MOTOR"%string
              "5000"%string "-5000"%string "17"%string "0"%string
              5000 (-5000) 17 0 Sample.car) as (Hresp & Hw & _);
    try reflexivity.
  split; [exact Hresp | exact Hw].
Defined.

(** C10. A controller whose construction failed is not initialized; then a
    dispatched MOTOR command with four integer tokens is answered OK#MOTOR
    and a dispatched STOP command OK#STOP, as on a working car, while
    [set_motor_speeds] returns without any PWM call: the chip object, if
    there is one, is left as it was. *)
Theorem degraded_motor_commands_acknowledged :
  (Motor.initialized (Motor.__init__ None) = false /\
   forall e freq ws,
     Motor.initialized (Motor.__init__ (Some (Motor.mkPCA9685 (Some e) freq ws))) = false) /\
  (forall (addr : TcpServer.address) (text part0 t0 t1 t2 t3 : string)
          (v0 v1 v2 v3 : Z) (self : Main.LaneFollowingCar),
      Py.split "#" (Py.strip text) = [part0; t0; t1; t2; t3] ->
      Py.upper part0 = "MOTOR"%string ->
      Py.parse_int t0 = Some v0 -> Py.parse_int t1 = Some v1 ->
      Py.parse_int t2 = Some v2 -> Py.parse_int t3 = Some v3 ->
      Motor.initialized (Main.motor_controller self) = false ->
      let self' := snd (Main.parse_and_execute_command addr text self) in
      Main.sent_responses self' = Main.sent_responses self ++ [(addr, "OK#MOTOR"%string)] /\
      Motor.speed_calls (Main.motor_controller self') =
        Motor.speed_calls (Main.motor_controller self) ++ [(v0, v1, v2, v3)] /\
      Motor.pwm (Main.motor_controller self') = Motor.pwm (Main.motor_controller self)) /\
  (forall (addr : TcpServer.address) (text part0 : string) (args : list string)
          (self : Main.LaneFollowingCar),
      Py.split "#" (Py.strip text) = part0 :: args ->
      Py.upper part0 = "STOP"%string ->
      Motor.initialized (Main.motor_controller self) = false ->
      let self' := snd (Main.parse_and_execute_command addr text self) in
      Main.sent_responses self' = Main.sent_responses self ++ [(addr, "OK#STOP"%string)] /\
      Motor.pwm (Main.motor_controller self') = Motor.pwm (Main.motor_controller self)).
Proof.
  split; [split; [reflexivity | intros; reflexivity]|].
  split.
  - intros addr text part0 t0 t1 t2 t3 v0 v1 v2 v3 self Hs Hu H0 H1 H2 H3 Hi self'.
    subst self'.
    rewrite (dispatch_known addr text part0 [t0; t1; t2; t3] Main.handle_motor_command)
      by (assumption || (rewrite Hu; reflexivity)).
    rewrite (handle_motor_four t0 t1 t2 t3 v0 v1 v2 v3) by assumption.
    rewrite set_motor_speeds_degraded by assumption. cbn [snd String.eqb].
    match goal with
    | |- context [Main.responded addr ?r ?s] =>
        destruct (responded_frame addr r s) as (Hresp & Hmc & _)
    end.
    rewrite Hresp, Hmc. simpl. auto.
  - intros addr text part0 args self Hs Hu Hi self'. subst self'.
    rewrite (dispatch_known addr text part0 args Main.handle_stop_command)
      by (assumption || (rewrite Hu; reflexivity)).
    unfold Main.handle_stop_command, bind, Main.on_motor_controller, zoom, Motor.stop.
    rewrite set_motor_speeds_degraded by assumption. cbn [snd ret String.eqb].
    match goal with
    | |- context [Main.responded addr ?r ?s] =>
        destruct (responded_frame addr r s) as (Hresp & Hmc & _)
    end.
    rewrite Hresp, Hmc. simpl. auto.
Qed.

Lemma degraded_motor_commands_acknowledged_witness :
  Motor.initialized (Main.motor_controller Sample.car_without_chip) = false /\
  Main.sent_responses
    (snd (Main.parse_and_execute_command Sample.peer "MOTOR#100#-200#0#4095"
            Sample.car_without_chip)) = [(Sample.peer, "OK#MOTOR"%string)] /\
  Main.sent_responses
    (snd (Main.parse_and_execute_command Sample.peer "stop"
            Sample.car_without_chip)) = [(Sample.peer, "OK#STOP"%string)] /\
  Motor.pwm (Main.motor_controller
    (snd (Main.parse_and_execute_command Sample.peer "stop" Sample.car_without_chip))) = None.
Proof.
  destruct degraded_motor_commands_acknowledged as [[Hinit _] [Hmotor Hstop]].
  split; [exact Hinit|].
  split.
  - apply (Hmotor Sample.peer "MOTOR#100#-200#0#4095"%string "MOTOR"%string
             "100"%string "-200"%string "0"%string "4095"%string 100 (-200) 0 4095
             Sample.car_without_chip); reflexivity.
  - destruct (Hstop Sample.peer "stop"%string "stop"%string [] Sample.car_without_chip)
      as [Hresp Hpwm]; try reflexivity.
    split; [exact Hresp | exact Hpwm].
Defined.

(* ------------------------------------------------------------------ *)
(** ** Unknown verbs *)




(* ------------------------------------------------------------------ *)
(** ** STATUS *)

Lemma has_video_clients_non_empty (srv : TcpServer.TCPServer) :
  TcpServer.has_video_clients srv = Dict.non_empty (TcpServer.video_clients srv).
Proof.
  unfold TcpServer.has_video_clients, Dict.len.
  destruct (TcpServer.video_clients srv); [reflexivity|].
  cbn [List.length Dict.non_empty]. destruct (Z.gtb_spec (Z.of_nat (S (List.length d))) 0); [reflexivity|lia].
Qed.

Lemma has_command_clients_non_empty (srv : TcpServer.TCPServer) :
  TcpServer.has_command_clients srv = Dict.non_empty (TcpServer.command_clients srv).
Proof.
  unfold TcpServer.has_command_clients, Dict.len.
  destruct (TcpServer.command_clients srv); [reflexivity|].
  cbn [List.length Dict.non_empty]. destruct (Z.gtb_spec (Z.of_nat (S (List.length d))) 0); [reflexivity|lia].
Qed.

(** C8. A dispatched STATUS command is answered STATUS# followed by a
    JSON object that reads back as exactly the four boolean fields running,
    streaming, video_clients and command_clients, holding the two flags of
    the car and whether each registry is non-empty.  With the car running,
    not streaming and no client in either registry, the payload is the text
    spelled out in the last part. *)
Theorem status_command_payload (addr : TcpServer.address) (text part0 : string)
    (args : list string) (self : Main.LaneFollowingCar) :
  Py.split "#" (Py.strip text) = part0 :: args ->
  Py.upper part0 = "STATUS"%string ->
  let self' := snd (Main.parse_and_execute_command addr text self) in
  let video := Dict.non_empty (TcpServer.video_clients (Main.tcp_server self)) in
  let command := Dict.non_empty (TcpServer.command_clients (Main.tcp_server self)) in
  exists payload,
    Main.sent_responses self' =
      Main.sent_responses self ++ [(addr, ("STATUS#" ++ payload)%string)] /\
    payload =
      ("{" ++ Py.quoted "running" ++ ": " ++ Py.json_bool (Main.running self) ++ ", " ++
       Py.quoted "streaming" ++ ": " ++ Py.json_bool (Main.streaming self) ++ ", " ++
       Py.quoted "video_clients" ++ ": " ++ Py.json_bool video ++ ", " ++
       Py.quoted "command_clients" ++ ": " ++ Py.json_bool command ++ "}")%string /\
    Py.json_loads_flags payload =
      Some [("running"%string, Main.running self);
            ("streaming"%string, Main.streaming self);
            ("video_clients"%string, video);
            ("command_clients"%string, command)] /\
    (Main.running self = true -> Main.streaming self = false ->
     TcpServer.video_clients (Main.tcp_server self) = [] ->
     TcpServer.command_clients (Main.tcp_server self) = [] ->
     payload =
       ("{" ++ Py.quoted "running" ++ ": true, " ++ Py.quoted "streaming" ++ ": false, " ++
        Py.quoted "video_clients" ++ ": false, " ++ Py.quoted "command_clients" ++ ": false}")%string).
Proof.
  intros Hs Hu self' video command. subst self'.
  rewrite (dispatch_known addr text part0 args Main.handle_status_command)
    by (assumption || (rewrite Hu; reflexivity)).
  unfold Main.handle_status_command, bind, get, ret.
  rewrite has_video_clients_non_empty, has_command_clients_non_empty.
  fold video command. cbn [snd String.eqb String.append].
  match goal with
  | |- context [Main.responded addr ?r self] =>
      destruct (responded_frame addr r self) as (Hresp & _)
  end.
  eexists. split; [exact Hresp|].
  split; [|split].
  - destruct (Main.running self), (Main.streaming self), video, command; reflexivity.
  - destruct (Main.running self), (Main.streaming self), video, command;
      vm_compute; reflexivity.
  - intros Hr Hst Hv Hc. subst video command. rewrite Hr, Hst, Hv, Hc. reflexivity.
Qed.

Lemma status_command_payload_witness :
  exists payload,
    Main.sent_responses (snd (Main.parse_and_execute_command Sample.peer "status" Sample.car)) =
      [(Sample.peer, ("STATUS#" ++ payload)%string)] /\
    payload =
      ("{" ++ Py.quoted "running" ++ ": true, " ++ Py.quoted "streaming" ++ ": false, " ++
       Py.quoted "video_clients" ++ ": false, " ++ Py.quoted "command_clients" ++ ": false}")%string.
Proof.
  destruct (status_command_payload Sample.peer "status" "status" [] Sample.car)
    as [payload (Hresp & _ & _ & Hlit)]; try reflexivity.
  exists payload. split; [exact Hresp|].
  apply Hlit; reflexivity.
Defined.

(* ------------------------------------------------------------------ *)
(** ** STREAM *)




(* ------------------------------------------------------------------ *)
(** ** Object heaps *)

Lemma nth_error_update {A : Type} (f : A -> A) (l : list A) (i j : nat) :
  nth_error (update i f l) j =
  if (i =? j)%nat then option_map f (nth_error l j) else nth_error l j.
Proof.
  revert i j. induction l as [|x l IH]; intros [|i] [|j]; simpl; try reflexivity.
  - destruct (i =? j)%nat; reflexivity.
  - apply IH.
Qed.

Lemma update_same {A : Type} (l : list A) (i : nat) (x : A) :
  nth_error l i = Some x -> update i (fun _ => x) l = l.
Proof.
  revert i. induction l as [|y l IH]; intros [|i] H; simpl in *; try discriminate.
  - congruence.
  - rewrite IH by assumption. reflexivity.
Qed.

Lemma update_update {A : Type} (f g : A -> A) (l : list A) (i : nat) :
  update i g (update i f l) = update i (fun x => g (f x)) l.
Proof.
  revert i. induction l as [|y l IH]; intros [|i]; simpl; try reflexivity.
  rewrite IH. reflexivity.
Qed.

Lemma length_update {A : Type} (f : A -> A) (l : list A) (i : nat) :
  List.length (update i f l) = List.length l.
Proof.
  revert i. induction l as [|x l IH]; intros [|i]; simpl; try reflexivity.
  rewrite IH. reflexivity.
Qed.

Lemma update_last {A : Type} (f : A -> A) (l : list A) (x : A) :
  update (List.length l) f (l ++ [x]) = l ++ [f x].
Proof.
  induction l as [|y l IH]; simpl; [reflexivity|]. rewrite IH. reflexivity.
Qed.

(* ------------------------------------------------------------------ *)
(** ** The camera's frame hand-over *)


Lemma waits_onb_iff (t : Camera.thread) (o : nat) (c : Camera.Camera) :
  Camera.waits_onb t o c = true <-> Camera.waits_on t o c.
Proof.
  unfold Camera.waits_onb, Camera.waits_on.
  destruct (nth_error (Camera.outputs c) o) as [out|].
  - rewrite existsb_exists. split.
    + intros [x [Hin Hx]]. apply Nat.eqb_eq in Hx. subst x. eauto.
    + intros [out' [Heq Hin]]. inversion Heq; subst. exists t.
      split; [assumption|apply Nat.eqb_refl].
  - split; [discriminate|]. intros [out [H _]]. discriminate.
Qed.

Lemma stop_streaming_keeps_waiters (c : Camera.Camera) :
  Camera.outputs (Camera.stop_streaming c) = Camera.outputs c /\
  Camera.woken (Camera.stop_streaming c) = Camera.woken c.
Proof.
  unfold Camera.stop_streaming.
  destruct (Camera.is_streaming c); simpl; [|auto].
  destruct (Camera.camera c); simpl; auto.
Qed.

Lemma stop_streaming_no_encoder (o : nat) (c : Camera.Camera) :
  Camera.is_streaming c = true -> Camera.no_encoder_on o (Camera.stop_streaming c).
Proof.
  intros Hs p. unfold Camera.stop_streaming. rewrite Hs. simpl.
  destruct (Camera.camera c) as [p0|] eqn:Hc; simpl.
  - intros H. inversion H; subst. simpl. discriminate.
  - rewrite Hc. discriminate.
Qed.

Section Waiter.

(** A thread and the output whose condition it waits on. *)
Variables (t : Camera.thread) (o : nat).

(** A waiter on an output no encoder writes to stays there, whatever call
    reaches the camera next. *)
Lemma step_keeps_waiter (c c' : Camera.Camera) :
  Camera.step c c' ->
  Camera.waits_on t o c /\ Camera.no_encoder_on o c ->
  Camera.waits_on t o c' /\ Camera.no_encoder_on o c'.
Proof.
  intros Hstep [[out [Hout Hin]] Hne].
  assert (Hlt : (o < List.length (Camera.outputs c))%nat)
    by (apply nth_error_Some; congruence).
  destruct Hstep as [c | c | c | c p o' buf Hc He | c t' | c t' Hw].
  - unfold Camera.start_streaming.
    destruct (Camera.is_streaming c); [split; [exists out; auto | assumption]|].
    assert (Hlen : List.length
                     (Camera.outputs match Camera.camera c with
                                     | Some _ => c
                                     | None => Camera.initialize c
                                     end) = List.length (Camera.outputs c))
      by (destruct (Camera.camera c); reflexivity).
    assert (Hnth : nth_error
                     (Camera.outputs match Camera.camera c with
                                     | Some _ => c
                                     | None => Camera.initialize c
                                     end) o = Some out)
      by (destruct (Camera.camera c); exact Hout).
    split.
    + exists out. simpl. rewrite nth_error_app1 by lia. auto.
    + intros p. simpl. intros H. inversion H; subst. simpl. rewrite Hlen.
      intros H'. inversion H'. lia.
  - destruct (stop_streaming_keeps_waiters c) as [Ho _].
    split.
    + exists out. rewrite Ho. auto.
    + unfold Camera.stop_streaming, Camera.no_encoder_on.
      destruct (Camera.is_streaming c); simpl; [|exact Hne].
      destruct (Camera.camera c) as [p0|] eqn:Hc; simpl.
      * intros p H. inversion H; subst. simpl. discriminate.
      * rewrite Hc. discriminate.
  - unfold Camera.close.
    set (c1 := if Camera.is_streaming c then Camera.stop_streaming c else c).
    assert (Ho : Camera.outputs c1 = Camera.outputs c).
    { subst c1. destruct (Camera.is_streaming c); [|reflexivity].
      apply stop_streaming_keeps_waiters. }
    destruct (Camera.camera c1) as [p1|] eqn:Hc1.
    + split; [exists out; simpl; rewrite Ho; auto|].
      intros q. simpl. discriminate.
    + split; [exists out; rewrite Ho; auto|].
      intros q Hq. congruence.
  - assert (Hneq : o' <> o) by (intros ->; exact (Hne p Hc He)).
    unfold Camera.write.
    destruct (nth_error (Camera.outputs c) o') as [out'|]; [|split; [exists out; auto|assumption]].
    split.
    + exists out. simpl. rewrite nth_error_update.
      destruct (Nat.eqb_spec o' o); [contradiction|auto].
    + exact Hne.
  - unfold Camera.get_frame_call.
    destruct (Camera.is_streaming c); simpl; [|split; [exists out; auto|assumption]].
    destruct (Camera.streaming_output c) as [o2|]; simpl;
      [|split; [exists out; auto|assumption]].
    split; [|exact Hne].
    unfold Camera.waits_on. simpl. rewrite nth_error_update.
    destruct (Nat.eqb_spec o2 o) as [->|].
    + rewrite Hout. simpl. eexists. split; [reflexivity|]. simpl.
      apply in_or_app. auto.
    + exists out. auto.
  - unfold Camera.get_frame_return.
    destruct (Camera.streaming_output c) as [o2|]; simpl;
      [destruct (nth_error (Camera.outputs c) o2)|]; simpl;
      (split; [exists out; auto|exact Hne]).
Qed.

Lemma steps_keep_waiter (c c' : Camera.Camera) :
  Camera.steps c c' ->
  Camera.waits_on t o c /\ Camera.no_encoder_on o c ->
  Camera.waits_on t o c' /\ Camera.no_encoder_on o c'.
Proof.
  intros Hsteps H. induction Hsteps as [c0 | c0 c1 c2 _ IH Hstep]; [assumption|].
  apply (step_keeps_waiter c1 c2 Hstep). apply IH. assumption.
Qed.

End Waiter.

(** A waiter released by a frame, when [stop_streaming] and
    [start_streaming] have run before it resumes, reads the new output, which
    holds no frame yet. *)
Lemma replaced_output_returns_none (t : Camera.thread) (o : nat) (c : Camera.Camera) :
  Camera.is_streaming c = true -> Camera.camera c <> None ->
  Camera.waits_on t o c ->
  forall buf,
    let c' := Camera.start_streaming (Camera.stop_streaming (Camera.write o buf c)) in
    In t (Camera.woken c') /\
    Camera.streaming_output c' = Some (List.length (Camera.outputs c)) /\
    fst (Camera.get_frame_return t c') = Camera.Returned None.
Proof.
  intros Hs Hcam [out [Hout Hin]] buf.
  destruct (Camera.camera c) as [p|] eqn:Hc; [clear Hcam | exfalso; apply Hcam; reflexivity].
  assert (H1 : Camera.write o buf c =
               Camera.mkCamera (Some p) (Camera.streaming_output c) true
                 (update o (fun _ => Camera.mkStreamingOutput (Some buf) []) (Camera.outputs c))
                 (Camera.woken c ++ Camera.waiters out)).
  { unfold Camera.write. rewrite Hout, Hc, Hs. reflexivity. }
  rewrite H1. unfold Camera.stop_streaming, Camera.start_streaming. simpl.
  rewrite length_update.
  split; [apply in_or_app; right; exact Hin|]. split; [reflexivity|].
  unfold Camera.get_frame_return. simpl.
  rewrite nth_error_app2 by (rewrite length_update; lia).
  rewrite length_update, Nat.sub_diag. reflexivity.
Qed.

(** Whatever step wakes a thread is a frame written to an output the
    thread waited on. *)
Lemma woken_only_by_write (t : Camera.thread) (c c' : Camera.Camera) :
  Camera.step c c' -> ~ In t (Camera.woken c) -> In t (Camera.woken c') ->
  exists o buf, c' = Camera.write o buf c /\ Camera.waits_on t o c.
Proof.
  intros Hstep Hnot Hin. destruct Hstep as [c|c|c|c p o buf Hp Ho|c t'|c t' Ht].
  - exfalso. apply Hnot. revert Hin. unfold Camera.start_streaming.
    destruct (Camera.is_streaming c); [auto|]. destruct (Camera.camera c); simpl; auto.
  - exfalso. apply Hnot. rewrite (proj2 (stop_streaming_keeps_waiters c)) in Hin. exact Hin.
  - exfalso. apply Hnot. revert Hin. unfold Camera.close.
    destruct (Camera.is_streaming c).
    + destruct (Camera.camera (Camera.stop_streaming c)); simpl;
        rewrite (proj2 (stop_streaming_keeps_waiters c)); auto.
    + destruct (Camera.camera c); simpl; auto.
  - exists o, buf. split; [reflexivity|]. unfold Camera.write in Hin.
    destruct (nth_error (Camera.outputs c) o) as [out|] eqn:Hn; [|contradiction].
    simpl in Hin. apply in_app_or in Hin. destruct Hin as [Hin|Hin]; [contradiction|].
    exists out. split; [exact Hn | exact Hin].
  - exfalso. apply Hnot. revert Hin. unfold Camera.get_frame_call.
    destruct (Camera.is_streaming c); simpl; [|auto].
    destruct (Camera.streaming_output c); simpl; auto.
  - exfalso. apply Hnot. revert Hin. unfold Camera.get_frame_return.
    destruct (Camera.streaming_output c) as [o|];
      [destruct (nth_error (Camera.outputs c) o)|]; simpl;
      intros Hin; apply filter_In in Hin; exact (proj1 Hin).
Qed.



(* ------------------------------------------------------------------ *)
(** ** The video wire format *)

Lemma Z_of_byte_of_Z (z : Z) : Py.Z_of_byte (Py.byte_of_Z z) = z mod 256.
Proof.
  unfold Py.Z_of_byte, Py.byte_of_Z.
  assert (Hr : 0 <= z mod 256 < 256) by (apply Z.mod_pos_bound; lia).
  destruct (Byte.of_N (Z.to_N (z mod 256))) as [b|] eqn:E.
  - apply Byte.to_of_N in E. rewrite E. lia.
  - apply Byte.of_N_None_iff in E. lia.
Qed.

Lemma decode_le_u32 (n : Z) :
  0 <= n <= 4294967295 -> TcpServer.decode_u32 (Py.le_u32 n) = n.
Proof.
  intros H. unfold Py.le_u32, TcpServer.decode_u32.
  rewrite !Z_of_byte_of_Z, !Z.shiftr_div_pow2 by lia.
  change (2 ^ 8) with 256. change (2 ^ 16) with (256 * 256).
  change (2 ^ 24) with (256 * (256 * 256)).
  rewrite <- !Z.div_div by lia.
  pose proof (Z.div_mod n 256 ltac:(lia)) as E0.
  pose proof (Z.div_mod (n / 256) 256 ltac:(lia)) as E1.
  pose proof (Z.div_mod (n / 256 / 256) 256 ltac:(lia)) as E2.
  assert (Hs : 0 <= n / 256 / 256 / 256 < 256).
  { split; [repeat apply Z.div_pos; lia|].
    repeat (apply Z.div_lt_upper_bound; [lia|]). lia. }
  rewrite (Z.mod_small (n / 256 / 256 / 256)) by exact Hs. lia.
Qed.

(** What the conformance reader makes of a length prefix followed by a
    payload and whatever comes after. *)
Lemma read_frame_framed (payload rest : list byte) :
  Z.of_nat (List.length payload) <= 4294967295 ->
  TcpServer.read_frame (Py.le_u32 (Z.of_nat (List.length payload)) ++ payload ++ rest) =
  Some (payload, rest).
Proof.
  intros H. unfold TcpServer.read_frame.
  set (n := Z.of_nat (List.length payload)) in *.
  assert (Hlen : (List.length (Py.le_u32 n ++ payload ++ rest) <? 4)%nat = false)
    by reflexivity.
  assert (Hf : firstn 4 (Py.le_u32 n ++ payload ++ rest) = Py.le_u32 n) by reflexivity.
  assert (Hs : skipn 4 (Py.le_u32 n ++ payload ++ rest) = payload ++ rest) by reflexivity.
  rewrite Hlen, Hf, Hs, decode_le_u32 by lia.
  subst n. rewrite Nat2Z.id.
  destruct (Nat.ltb_spec (List.length (payload ++ rest)) (List.length payload)) as [Hlt|_].
  - rewrite length_app in Hlt. lia.
  - rewrite firstn_app, Nat.sub_diag, firstn_all. simpl. rewrite app_nil_r.
    rewrite skipn_app, Nat.sub_diag, skipn_all. reflexivity.
Qed.

(* ------------------------------------------------------------------ *)
(** ** Dicts *)

Lemma mem_In {V : Type} (k : nat) (d : Dict.dict V) :
  Dict.mem k d = true <-> In k (map fst d).
Proof.
  unfold Dict.mem. rewrite existsb_exists, in_map_iff. split.
  - intros [kv [Hin Hk]]. apply Nat.eqb_eq in Hk. eauto.
  - intros [kv [Hk Hin]]. exists kv. split; [assumption|]. apply Nat.eqb_eq. assumption.
Qed.

Lemma del_In {V : Type} (k : nat) (d : Dict.dict V) (kv : nat * V) :
  In kv (Dict.del k d) <-> In kv d /\ fst kv <> k.
Proof.
  unfold Dict.del. rewrite filter_In. rewrite negb_true_iff, Nat.eqb_neq. tauto.
Qed.

Lemma del_length {V : Type} (k : nat) (d : Dict.dict V) :
  (List.length (Dict.del k d) <= List.length d)%nat.
Proof. apply filter_length_le. Qed.

Lemma del_keys {V : Type} (k k' : nat) (d : Dict.dict V) :
  In k' (map fst (Dict.del k d)) <-> In k' (map fst d) /\ k' <> k.
Proof.
  rewrite !in_map_iff. split.
  - intros [kv [Hk Hin]]. apply del_In in Hin. destruct Hin. subst. eauto.
  - intros [[kv [Hk Hin]] Hne]. exists kv. split; [assumption|].
    apply del_In. subst. auto.
Qed.

(* ------------------------------------------------------------------ *)
(** ** Broadcasting a frame *)

Lemma set_sockets_id (srv : TcpServer.TCPServer) :
  TcpServer.set_sockets (TcpServer.sockets srv) srv = srv.
Proof. destruct srv; reflexivity. Qed.

Lemma on_socket_sendall_healthy (data : list byte) (s : nat) (sk : TcpServer.Socket)
    (srv : TcpServer.TCPServer) :
  nth_error (TcpServer.sockets srv) s = Some sk ->
  TcpServer.closed sk = false -> TcpServer.fault sk = None ->
  TcpServer.on_socket s (TcpServer.sendall data) srv =
  (Ret tt,
   TcpServer.set_sockets
     (update s (fun _ => TcpServer.mkSocket false None (TcpServer.inbox sk)
                           (TcpServer.sent sk ++ [data]))
             (TcpServer.sockets srv)) srv).
Proof.
  intros Hn Hc Hf. unfold TcpServer.on_socket, TcpServer.sendall.
  rewrite Hn, Hc, Hf. reflexivity.
Qed.

Lemma on_socket_sendall_fails (data : list byte) (s : nat) (srv : TcpServer.TCPServer) :
  match nth_error (TcpServer.sockets srv) s with
  | Some sk => TcpServer.closed sk = true \/ TcpServer.fault sk <> None
  | None => True
  end ->
  exists e, TcpServer.on_socket s (TcpServer.sendall data) srv = (Exc e, srv).
Proof.
  unfold TcpServer.on_socket, TcpServer.sendall.
  destruct (nth_error (TcpServer.sockets srv) s) as [sk|] eqn:Hn; [|eauto].
  intros H. destruct (TcpServer.closed sk).
  - rewrite update_same, set_sockets_id by assumption. eauto.
  - destruct (TcpServer.fault sk) as [e|]; [|destruct H; congruence].
    rewrite update_same, set_sockets_id by assumption. eauto.
Qed.

Lemma healthy_dec (sk : TcpServer.Socket) :
  TcpServer.healthy sk \/ (TcpServer.closed sk = true \/ TcpServer.fault sk <> None).
Proof.
  unfold TcpServer.healthy. destruct (TcpServer.closed sk); [auto|].
  destruct (TcpServer.fault sk); [right; right; discriminate|auto].
Qed.

Section Broadcast.

(** The length prefix and the payload of the frame being sent. *)
Variables sz fr : list byte.

(** The [try] statement of the broadcast loop: both writes reach a healthy
    socket and nothing is reported; otherwise the socket is reported.  No
    other socket is touched. *)
Lemma try_send_frame_spec (cs : nat) (srv : TcpServer.TCPServer) :
  exists failed l1,
    TcpServer.try_send_frame sz fr cs srv = (Ret failed, TcpServer.set_sockets l1 srv) /\
    (failed = [] \/ failed = [cs]) /\
    (forall s, s <> cs -> nth_error l1 s = nth_error (TcpServer.sockets srv) s) /\
    (forall sk, nth_error (TcpServer.sockets srv) cs = Some sk -> TcpServer.healthy sk ->
       failed = [] /\
       nth_error l1 cs =
         Some (TcpServer.mkSocket false None (TcpServer.inbox sk)
                 (TcpServer.sent sk ++ [sz; fr]))).
Proof.
  unfold TcpServer.try_send_frame, try_except, bind.
  destruct (nth_error (TcpServer.sockets srv) cs) as [sk|] eqn:Hn.
  - destruct (healthy_dec sk) as [[Hc Hf]|Hbad].
    + rewrite (on_socket_sendall_healthy sz cs sk srv Hn Hc Hf).
      erewrite on_socket_sendall_healthy;
        [| simpl; rewrite nth_error_update, Nat.eqb_refl, Hn; reflexivity
         | reflexivity | reflexivity].
      simpl. rewrite update_update, <- app_assoc. simpl.
      eexists [], _. split; [reflexivity|]. split; [auto|]. split.
      * intros s Hs. rewrite nth_error_update.
        destruct (Nat.eqb_spec cs s); [congruence|reflexivity].
      * intros sk' Hsk' _. inversion Hsk'; subst sk'. split; [reflexivity|].
        rewrite nth_error_update, Nat.eqb_refl, Hn. reflexivity.
    + destruct (on_socket_sendall_fails sz cs srv) as [e He]; [rewrite Hn; exact Hbad|].
      rewrite He. exists [cs], (TcpServer.sockets srv). rewrite set_sockets_id.
      split; [reflexivity|]. split; [auto|]. split; [reflexivity|].
      intros sk' Hsk' [Hc Hf]. inversion Hsk'; subst sk'.
      destruct Hbad; congruence.
  - destruct (on_socket_sendall_fails sz cs srv) as [e He]; [rewrite Hn; exact I|].
    rewrite He. exists [cs], (TcpServer.sockets srv). rewrite set_sockets_id.
    split; [reflexivity|]. split; [auto|]. split; [reflexivity|].
    intros sk' Hsk'. discriminate.
Qed.

(** The first loop of [send_video_data] over a registry whose keys are
    distinct, as the keys of a dict are. *)
Lemma send_frame_loop_spec (items : list (nat * TcpServer.address)) :
  NoDup (map fst items) ->
  forall srv : TcpServer.TCPServer,
  exists failed l',
    TcpServer.send_frame_loop sz fr items srv = (Ret failed, TcpServer.set_sockets l' srv) /\
    incl failed (map fst items) /\ NoDup failed /\
    (forall s, ~ In s (map fst items) -> nth_error l' s = nth_error (TcpServer.sockets srv) s) /\
    (forall s sk, In s (map fst items) ->
       nth_error (TcpServer.sockets srv) s = Some sk -> TcpServer.healthy sk ->
       ~ In s failed /\
       nth_error l' s =
         Some (TcpServer.mkSocket false None (TcpServer.inbox sk)
                 (TcpServer.sent sk ++ [sz; fr]))).
Proof.
  induction items as [|[cs a] rest IH]; intros Hnd srv.
  - exists [], (TcpServer.sockets srv). simpl. rewrite set_sockets_id.
    split; [reflexivity|]. split; [apply incl_refl|]. split; [constructor|].
    split; [reflexivity|]. intros s sk [].
  - simpl in Hnd. inversion Hnd as [|? ? Hnotin Hnd']; subst.
    destruct (try_send_frame_spec cs srv) as (f1 & l1 & H1 & Hf1 & Hother & Hhead).
    destruct (IH Hnd' (TcpServer.set_sockets l1 srv))
      as (f2 & l2 & H2 & Hincl & Hnd2 & Hout & Hin).
    exists (f1 ++ f2), l2.
    split; [|split; [|split; [|split]]].
    + cbn [TcpServer.send_frame_loop]. unfold bind at 1. rewrite H1.
      unfold bind at 1. rewrite H2. reflexivity.
    + simpl. intros x Hx. apply in_app_or in Hx. destruct Hx as [Hx|Hx].
      * destruct Hf1 as [->| ->]; [destruct Hx|]. destruct Hx as [<-|[]]. now left.
      * right. apply Hincl. exact Hx.
    + destruct Hf1 as [->| ->]; [exact Hnd2|]. simpl. constructor; [|exact Hnd2].
      intros Hx. apply Hnotin. apply Hincl. exact Hx.
    + intros s Hs. simpl in Hs. rewrite Hout by tauto. simpl. apply Hother.
      intros ->. apply Hs. now left.
    + intros s sk Hs Hn Hh. simpl in Hs. destruct Hs as [<-|Hs].
      * destruct (Hhead sk Hn Hh) as [-> Hl1]. split.
        -- simpl. intros Hx. apply Hnotin. apply Hincl. exact Hx.
        -- rewrite Hout by exact Hnotin. exact Hl1.
      * assert (Hne : s <> cs) by (intros ->; contradiction).
        destruct (Hin s sk Hs) as [Hnf Hl2];
          [simpl; rewrite Hother by exact Hne; exact Hn | exact Hh |].
        split; [|exact Hl2].
        intros Hx. apply in_app_or in Hx. destruct Hx as [Hx|Hx]; [|contradiction].
        destruct Hf1 as [->| ->]; [destruct Hx|]. destruct Hx as [->|[]]. congruence.
Qed.

End Broadcast.

(** The second loop of [send_video_data]: the reported clients leave the
    registry and are closed; the others stay, and no data is written. *)
Lemma remove_failed_loop_spec (failed : list nat) :
  NoDup failed ->
  forall srv : TcpServer.TCPServer,
  incl failed (map fst (TcpServer.video_clients srv)) ->
  exists l' vc',
    TcpServer.remove_failed_loop failed srv =
      (Ret tt, TcpServer.set_video_clients vc' (TcpServer.set_sockets l' srv)) /\
    (forall s, ~ In s failed -> nth_error l' s = nth_error (TcpServer.sockets srv) s) /\
    (forall kv, In kv (TcpServer.video_clients srv) -> ~ In (fst kv) failed -> In kv vc').
Proof.
  induction failed as [|f rest IH]; intros Hnd srv Hincl.
  - exists (TcpServer.sockets srv), (TcpServer.video_clients srv). simpl.
    split; [destruct srv; reflexivity|]. auto.
  - inversion Hnd as [|? ? Hnotin Hnd']; subst.
    assert (Hmem : Dict.mem f (TcpServer.video_clients srv) = true).
    { apply mem_In. apply Hincl. now left. }
    set (srv1 := TcpServer.set_sockets (update f TcpServer.close (TcpServer.sockets srv))
                   (TcpServer.set_video_clients
                      (Dict.del f (TcpServer.video_clients srv)) srv)).
    destruct (IH Hnd' srv1) as (l' & vc' & Heq & Hsock & Hreg).
    { intros x Hx. simpl. apply del_keys. split.
      - apply Hincl. now right.
      - intros ->. contradiction. }
    exists l', vc'. split; [|split].
    + cbn [TcpServer.remove_failed_loop]. unfold bind at 1, get.
      rewrite Hmem. unfold bind, ret, modify, TcpServer.socket_close. simpl.
      fold srv1. rewrite Heq. destruct srv; reflexivity.
    + intros s Hs. simpl in Hs. rewrite Hsock by tauto. simpl.
      rewrite nth_error_update. destruct (Nat.eqb_spec f s); [|reflexivity].
      exfalso. apply Hs. now left.
    + intros kv Hkv Hnf. simpl in Hnf. apply Hreg; [|tauto].
      simpl. apply del_In. split; [assumption|]. intros Heq'. apply Hnf. now left.
Qed.

(** C4. For a frame payload [P] of a length [L] that fits 32 bits,
    [send_video_data] makes exactly two writes, one after the other, on
    every registered video client whose socket is in order: the four bytes
    of [L], least significant first, then [P].  The conformance reader, given
    the bytes of these two writes, recovers [P] with nothing left over; this
    covers the lengths 0, 1 and 65536. *)
Theorem video_frame_framing (P : list byte) (srv : TcpServer.TCPServer)
    (s : nat) (a : TcpServer.address) (sk : TcpServer.Socket) :
  Z.of_nat (List.length P) <= 4294967295 ->
  NoDup (map fst (TcpServer.video_clients srv)) ->
  In (s, a) (TcpServer.video_clients srv) ->
  nth_error (TcpServer.sockets srv) s = Some sk ->
  TcpServer.closed sk = false -> TcpServer.fault sk = None ->
  let L := Z.of_nat (List.length P) in
  exists srv' sk',
    TcpServer.send_video_data P srv = (Ret true, srv') /\
    In (s, a) (TcpServer.video_clients srv') /\
    nth_error (TcpServer.sockets srv') s = Some sk' /\
    TcpServer.sent sk' = TcpServer.sent sk ++ [Py.le_u32 L; P] /\
    List.length (Py.le_u32 L) = 4%nat /\
    TcpServer.decode_u32 (Py.le_u32 L) = L /\
    TcpServer.read_frame (List.concat [Py.le_u32 L; P]) = Some (P, []).
Proof.
  intros HL Hnd Hin Hn Hc Hf L.
  assert (Hkey : In s (map fst (TcpServer.video_clients srv)))
    by (apply in_map_iff; exists (s, a); auto).
  destruct (send_frame_loop_spec (Py.le_u32 L) P (TcpServer.video_clients srv) Hnd srv)
    as (failed & l1 & H1 & Hincl & Hndf & _ & Hdel).
  destruct (Hdel s sk Hkey Hn (conj Hc Hf)) as [Hnf Hl1].
  destruct (remove_failed_loop_spec failed Hndf (TcpServer.set_sockets l1 srv) Hincl)
    as (l2 & vc2 & H2 & Hsock & Hreg).
  exists (TcpServer.set_video_clients vc2 (TcpServer.set_sockets l2 srv)).
  exists (TcpServer.mkSocket false None (TcpServer.inbox sk) (TcpServer.sent sk ++ [Py.le_u32 L; P])).
  split; [|split; [|split; [|split; [|split; [|split]]]]].
  - unfold TcpServer.send_video_data, bind at 1, get.
    destruct (TcpServer.video_clients srv) as [|item items] eqn:Hvc; [destruct Hin|].
    unfold bind at 1, Py.pack_L. fold L.
    assert (Hrange : ((0 <=? L) && (L <=? 4294967295)) = true).
    { apply andb_true_iff. split; apply Z.leb_le; subst L; lia. }
    rewrite Hrange. unfold ret at 1. unfold bind at 1. rewrite H1.
    unfold bind. rewrite H2. reflexivity.
  - simpl. apply (Hreg (s, a)); assumption.
  - simpl. rewrite Hsock by assumption. exact Hl1.
  - reflexivity.
  - reflexivity.
  - apply decode_le_u32. subst L. lia.
  - pose proof (read_frame_framed P [] HL) as Hr. rewrite app_nil_r in Hr.
    simpl. rewrite app_nil_r. exact Hr.
Qed.

Lemma video_frame_framing_witness :
  (exists srv' sk',
     TcpServer.send_video_data [] Sample.server_with_viewer = (Ret true, srv') /\
     nth_error (TcpServer.sockets srv') 0 = Some sk' /\
     TcpServer.sent sk' = [[x00; x00; x00; x00]; []] /\
     TcpServer.read_frame ([x00; x00; x00; x00] ++ []) = Some ([], [])) /\
  (exists srv' sk',
     TcpServer.send_video_data [x2a] Sample.server_with_viewer = (Ret true, srv') /\
     nth_error (TcpServer.sockets srv') 0 = Some sk' /\
     TcpServer.sent sk' = [[x01; x00; x00; x00]; [x2a]] /\
     TcpServer.read_frame ([x01; x00; x00; x00] ++ [x2a]) = Some ([x2a], [])) /\
  (exists srv' sk',
     TcpServer.send_video_data Sample.big_payload Sample.server_with_viewer = (Ret true, srv') /\
     nth_error (TcpServer.sockets srv') 0 = Some sk' /\
     TcpServer.sent sk' = [[x00; x00; x01; x00]; Sample.big_payload] /\
     TcpServer.read_frame ([x00; x00; x01; x00] ++ Sample.big_payload) =
       Some (Sample.big_payload, [])).
Proof.
  assert (Hbig : Z.of_nat (List.length Sample.big_payload) = 65536).
  { unfold Sample.big_payload. rewrite repeat_length. apply N_nat_Z. }
  assert (Hnd : NoDup (map fst (TcpServer.video_clients Sample.server_with_viewer)))
    by (repeat constructor; simpl; tauto).
  assert (Hin : In (0%nat, Sample.viewer) (TcpServer.video_clients Sample.server_with_viewer))
    by (now left).
  assert (Hsmall : forall P : list byte,
             (List.length P <= 1)%nat -> Z.of_nat (List.length P) <= 4294967295)
    by (intros; lia).
  assert (Hfit : Z.of_nat (List.length Sample.big_payload) <= 4294967295)
    by (rewrite Hbig; lia).
  split; [|split].
  - destruct (video_frame_framing [] Sample.server_with_viewer 0 Sample.viewer
                (TcpServer.mkSocket false None [] [])
                (Hsmall [] (Nat.le_0_l 1)) Hnd Hin eq_refl eq_refl eq_refl)
      as (srv' & sk' & H1 & _ & H3 & H4 & _ & _ & H7).
    exists srv', sk'. repeat split; assumption.
  - destruct (video_frame_framing [x2a] Sample.server_with_viewer 0 Sample.viewer
                (TcpServer.mkSocket false None [] [])
                (Hsmall [x2a] (Nat.le_refl 1)) Hnd Hin eq_refl eq_refl eq_refl)
      as (srv' & sk' & H1 & _ & H3 & H4 & _ & _ & H7).
    exists srv', sk'. repeat split; assumption.
  - destruct (video_frame_framing Sample.big_payload Sample.server_with_viewer 0 Sample.viewer
                (TcpServer.mkSocket false None [] [])
                Hfit Hnd Hin eq_refl eq_refl eq_refl)
      as (srv' & sk' & H1 & _ & H3 & H4 & _ & _ & H7).
    rewrite Hbig in H4, H7.
    exists srv', sk'. repeat split; assumption.
Defined.

(* ------------------------------------------------------------------ *)
(** ** Capacity of the registries *)

(** The accept half of a turn of [handle_command_clients]. *)
Lemma command_accept_spec (addr : TcpServer.address) (data : list (list byte))
    (srv : TcpServer.TCPServer) :
  TcpServer.command_accept addr data srv =
  if Dict.len (TcpServer.command_clients srv) >=? TcpServer.max_clients srv then
    (Ret None,
     TcpServer.set_sockets
       (TcpServer.sockets srv ++ [TcpServer.mkSocket true None data []]) srv)
  else
    (Ret (Some (List.length (TcpServer.sockets srv), addr)),
     TcpServer.set_sockets
       (TcpServer.sockets srv ++ [TcpServer.mkSocket false None data []]) srv).
Proof.
  unfold TcpServer.command_accept, TcpServer.accept, bind, get. simpl.
  destruct (Dict.len (TcpServer.command_clients srv) >=? TcpServer.max_clients srv);
    [|reflexivity].
  unfold TcpServer.socket_close, modify, ret. simpl. rewrite update_last. reflexivity.
Qed.

Lemma video_accept_spec (addr : TcpServer.address) (data : list (list byte))
    (srv : TcpServer.TCPServer) :
  TcpServer.video_accept addr data srv =
  if Dict.len (TcpServer.video_clients srv) >=? TcpServer.max_clients srv then
    (Ret None,
     TcpServer.set_sockets
       (TcpServer.sockets srv ++ [TcpServer.mkSocket true None data []]) srv)
  else
    (Ret (Some (List.length (TcpServer.sockets srv), addr)),
     TcpServer.set_sockets
       (TcpServer.sockets srv ++ [TcpServer.mkSocket false None data []]) srv).
Proof.
  unfold TcpServer.video_accept, TcpServer.accept, bind, get. simpl.
  destruct (Dict.len (TcpServer.video_clients srv) >=? TcpServer.max_clients srv);
    [|reflexivity].
  unfold TcpServer.socket_close, modify, ret. simpl. rewrite update_last. reflexivity.
Qed.

(** A turn of the client read loop leaves the registries alone. *)
Lemma client_turn_registries (s : nat) (addr : TcpServer.address) (srv : TcpServer.TCPServer) :
  TcpServer.registries (snd (TcpServer.handle_client_commands_turn s addr srv)) =
  TcpServer.registries srv.
Proof.
  unfold TcpServer.handle_client_commands_turn, bind, TcpServer.on_socket.
  destruct (nth_error (TcpServer.sockets srv) s) as [sk|]; [|reflexivity].
  destruct (TcpServer.recv 1024 sk) as [[data|e] sk']; [|reflexivity].
  destruct data as [|b data]; [reflexivity|].
  unfold TcpServer.decode.
  destruct (Py.utf8_valid (b :: data)); reflexivity.
Qed.

Lemma send_frame_loop_sockets_only (sz fr : list byte) (items : list (nat * TcpServer.address))
    (srv : TcpServer.TCPServer) :
  exists failed l',
    TcpServer.send_frame_loop sz fr items srv = (Ret failed, TcpServer.set_sockets l' srv).
Proof.
  revert srv. induction items as [|[cs a] rest IH]; intros srv.
  - exists [], (TcpServer.sockets srv). simpl. rewrite set_sockets_id. reflexivity.
  - destruct (try_send_frame_spec sz fr cs srv) as (f1 & l1 & H1 & _).
    destruct (IH (TcpServer.set_sockets l1 srv)) as (f2 & l2 & H2).
    exists (f1 ++ f2), l2. cbn [TcpServer.send_frame_loop].
    unfold bind at 1. rewrite H1. unfold bind at 1. rewrite H2. reflexivity.
Qed.

Lemma remove_failed_loop_cons (f : nat) (rest : list nat) (srv : TcpServer.TCPServer) :
  TcpServer.remove_failed_loop (f :: rest) srv =
  if Dict.mem f (TcpServer.video_clients srv) then
    TcpServer.remove_failed_loop rest
      (TcpServer.set_sockets (update f TcpServer.close (TcpServer.sockets srv))
         (TcpServer.set_video_clients (Dict.del f (TcpServer.video_clients srv)) srv))
  else (Exc "KeyError"%string, srv).
Proof.
  cbn [TcpServer.remove_failed_loop].
  unfold bind, get, ret, modify, TcpServer.socket_close, raise.
  destruct (Dict.mem f (TcpServer.video_clients srv)); reflexivity.
Qed.

(** Removing failed clients can only shrink the video registry. *)
Lemma remove_failed_loop_shrinks (failed : list nat) (srv : TcpServer.TCPServer) :
  let srv' := snd (TcpServer.remove_failed_loop failed srv) in
  TcpServer.command_clients srv' = TcpServer.command_clients srv /\
  TcpServer.max_clients srv' = TcpServer.max_clients srv /\
  (List.length (TcpServer.video_clients srv') <= List.length (TcpServer.video_clients srv))%nat.
Proof.
  revert srv. induction failed as [|f rest IH]; intros srv; [simpl; auto|].
  rewrite remove_failed_loop_cons.
  destruct (Dict.mem f (TcpServer.video_clients srv)); [|simpl; auto].
  match goal with
  | |- context [TcpServer.remove_failed_loop rest ?s1] =>
      destruct (IH s1) as (H1 & H2 & H3)
  end.
  simpl in H1, H2, H3. cbv zeta. rewrite H1, H2. repeat split.
  etransitivity; [exact H3 | apply del_length].
Qed.

Lemma send_video_data_shrinks (frame_data : list byte) (srv : TcpServer.TCPServer) :
  let srv' := snd (TcpServer.send_video_data frame_data srv) in
  TcpServer.command_clients srv' = TcpServer.command_clients srv /\
  TcpServer.max_clients srv' = TcpServer.max_clients srv /\
  (List.length (TcpServer.video_clients srv') <= List.length (TcpServer.video_clients srv))%nat.
Proof.
  unfold TcpServer.send_video_data, bind, get, Py.pack_L. cbv beta iota zeta.
  destruct (TcpServer.video_clients srv) as [|item items] eqn:Hvc;
    [simpl; rewrite Hvc; auto|].
  destruct ((0 <=? Z.of_nat (List.length frame_data)) &&
            (Z.of_nat (List.length frame_data) <=? 4294967295));
    [|simpl; rewrite Hvc; auto].
  unfold ret at 1 3 5. cbv beta iota.
  destruct (send_frame_loop_sockets_only
              (Py.le_u32 (Z.of_nat (List.length frame_data))) frame_data (item :: items) srv)
    as (failed & l1 & H1).
  rewrite H1.
  destruct (remove_failed_loop_shrinks failed (TcpServer.set_sockets l1 srv)) as (H2 & H3 & H4).
  destruct (TcpServer.remove_failed_loop failed (TcpServer.set_sockets l1 srv))
    as [[[]|e] s2]; simpl in *; rewrite Hvc in H4; auto.
Qed.

Lemma send_command_response_registries (a : TcpServer.address) (r : string)
    (srv : TcpServer.TCPServer) :
  TcpServer.registries (snd (TcpServer.send_command_response a r srv)) =
  TcpServer.registries srv.
Proof.
  destruct (send_command_response_frame a r srv) as [l ->]. reflexivity.
Qed.

Lemma length_le_1_full {V : Type} (l : Dict.dict V) (m : Z) :
  m = 1 -> (Dict.len l >=? m) = false -> l = [].
Proof.
  intros -> H. destruct l; [reflexivity|]. unfold Dict.len in H. simpl List.length in H.
  destruct (Z.geb_spec (Z.of_nat (S (List.length l))) 1); [discriminate|lia].
Qed.

Lemma step_within_capacity (sys sys' : TcpServer.System) :
  TcpServer.step sys sys' -> TcpServer.within_capacity sys -> TcpServer.within_capacity sys'.
Proof.
  unfold TcpServer.within_capacity.
  intros Hstep (Hmax & Hc & Hv & Hcp & Hvp). destruct Hstep; simpl in *.
  - auto.
  - rewrite command_accept_spec.
    destruct (Dict.len (TcpServer.command_clients srv) >=? TcpServer.max_clients srv) eqn:E;
      simpl; repeat split; auto; try congruence.
    intros _. eapply length_le_1_full; eassumption.
  - rewrite (Hcp ltac:(discriminate)). simpl. repeat split; auto. congruence.
  - rewrite video_accept_spec.
    destruct (Dict.len (TcpServer.video_clients srv) >=? TcpServer.max_clients srv) eqn:E;
      simpl; repeat split; auto; try congruence.
    intros _. eapply length_le_1_full; eassumption.
  - rewrite (Hvp ltac:(discriminate)). simpl. repeat split; auto. congruence.
  - pose proof (client_turn_registries s addr srv) as Hr.
    unfold TcpServer.registries in Hr. inversion Hr as [[H1 H2 H3]].
    rewrite H1, H2, H3. auto.
  - unfold TcpServer.handle_client_commands_finally, bind, get, TcpServer.socket_close.
    destruct (Dict.mem s (TcpServer.command_clients srv)) eqn:E; simpl.
    + repeat split; auto.
      * etransitivity; [apply del_length | exact Hc].
      * intros Hp. rewrite (Hcp Hp). reflexivity.
    + auto.
  - destruct (send_video_data_shrinks frame_data srv) as (H1 & H2 & H3). simpl in *.
    rewrite H1, H2. repeat split; auto; [lia|].
    intros Hp. rewrite (Hvp Hp) in H3. simpl in H3.
    destruct (TcpServer.video_clients (snd (TcpServer.send_video_data frame_data srv)));
      [reflexivity | simpl in H3; lia].
  - pose proof (send_command_response_registries addr response srv) as Hr.
    unfold TcpServer.registries in Hr. inversion Hr as [[H1 H2 H3]].
    rewrite H1, H2, H3. auto.
  - auto.
  - auto.
  - repeat split; auto; simpl; lia.
Qed.

Lemma reachable_within_capacity (sys : TcpServer.System) :
  TcpServer.reachable sys -> TcpServer.within_capacity sys.
Proof.
  induction 1 as [|s s' _ IH Hstep].
  - unfold TcpServer.within_capacity. simpl. repeat split; auto; congruence.
  - exact (step_within_capacity s s' Hstep IH).
Qed.

(** C5. In every state the server's threads can reach, [max_clients] is 1
    and each registry holds at most one client.  A connection accepted
    while a registry holds one client gets its socket closed, with the data
    it carries unread and nothing written to it, and is not registered: the
    registries, the command queue and the client threads are as before. *)
Theorem registries_within_capacity (sys : TcpServer.System) :
  TcpServer.reachable sys ->
  let srv := TcpServer.server sys in
  TcpServer.max_clients srv = 1 /\
  (List.length (TcpServer.command_clients srv) <= 1)%nat /\
  (List.length (TcpServer.video_clients srv) <= 1)%nat /\
  (forall addr data,
      List.length (TcpServer.command_clients srv) = 1%nat ->
      TcpServer.handle_command_clients_turn addr data srv =
        (Ret tt,
         TcpServer.set_sockets
           (TcpServer.sockets srv ++ [TcpServer.mkSocket true None data []]) srv)) /\
  (forall addr data,
      List.length (TcpServer.video_clients srv) = 1%nat ->
      TcpServer.handle_video_clients_turn addr data srv =
        (Ret tt,
         TcpServer.set_sockets
           (TcpServer.sockets srv ++ [TcpServer.mkSocket true None data []]) srv)).
Proof.
  intros Hr srv. destruct (reachable_within_capacity sys Hr) as (Hmax & Hc & Hv & _).
  fold srv in Hmax, Hc, Hv.
  repeat split; try assumption.
  - intros addr data Hlen. unfold TcpServer.handle_command_clients_turn, bind at 1.
    rewrite command_accept_spec. unfold Dict.len. rewrite Hlen, Hmax. reflexivity.
  - intros addr data Hlen. unfold TcpServer.handle_video_clients_turn, bind at 1.
    rewrite video_accept_spec. unfold Dict.len. rewrite Hlen, Hmax. reflexivity.
Qed.

Lemma system_with_operator_reachable : TcpServer.reachable Sample.system_with_operator.
Proof.
  eapply TcpServer.reachable_step;
    [eapply TcpServer.reachable_step; [apply TcpServer.reachable_initial|]|].
  - apply (TcpServer.step_command_accept TcpServer.__init__ None Sample.peer []).
  - apply (TcpServer.step_command_register
             (snd (TcpServer.command_accept Sample.peer [] TcpServer.__init__))
             None (0%nat, Sample.peer)).
Qed.

Lemma registries_within_capacity_witness :
  let srv := TcpServer.server Sample.system_with_operator in
  TcpServer.command_clients srv = [(0%nat, Sample.peer)] /\
  (List.length (TcpServer.command_clients srv) <= 1)%nat /\
  TcpServer.handle_command_clients_turn Sample.viewer [[x53; x54; x4f; x50]] srv =
    (Ret tt,
     TcpServer.set_sockets
       (TcpServer.sockets srv ++ [TcpServer.mkSocket true None [[x53; x54; x4f; x50]] []]) srv).
Proof.
  destruct (registries_within_capacity Sample.system_with_operator
              system_with_operator_reachable) as (_ & Hc & _ & Hrej & _).
  split; [reflexivity|]. split; [exact Hc|].
  apply Hrej. reflexivity.
Defined.

(* ================================================================== *)
(** * Further properties of the code *)

(* ------------------------------------------------------------------ *)
(** ** The dispatcher, for every command *)

Lemma int_list_state {S : Type} (args : list string) (s : S) :
  snd (Py.int_list args s) = s.
Proof.
  induction args as [|a args IH]; simpl; [reflexivity|].
  unfold bind, Py.int. destruct (Py.parse_int a); simpl; [|reflexivity].
  destruct (Py.int_list args s) as [[vs|e] s'] eqn:E; simpl in *; exact IH.
Qed.

Lemma set_motor_controller_id (self : Main.LaneFollowingCar) :
  Main.set_motor_controller (Main.motor_controller self) self = self.
Proof. destruct self; reflexivity. Qed.

(** The MOTOR handler never raises, and touches the motor controller only. *)
Lemma handle_motor_command_shape (args : list string) (self : Main.LaneFollowingCar) :
  exists r mc,
    Main.handle_motor_command args self = (Ret r, Main.set_motor_controller mc self) /\
    r <> ""%string.
Proof.
  unfold Main.handle_motor_command, try_except.
  destruct (negb (List.length args =? 4)%nat).
  - exists "ERROR#Invalid motor command format. Expected 4 speed values."%string,
           (Main.motor_controller self).
    rewrite set_motor_controller_id. split; [reflexivity|discriminate].
  - unfold bind at 1. pose proof (int_list_state args self) as Hs.
    destruct (Py.int_list args self) as [[speeds|e] s1]; simpl in Hs; subst s1.
    + destruct speeds as [|v0 [|v1 [|v2 [|v3 [|v4 rest]]]]];
        try (exists "ERROR#list index out of range"%string, (Main.motor_controller self);
             rewrite set_motor_controller_id; split; [reflexivity|discriminate]).
      unfold bind, Main.on_motor_controller, zoom.
      destruct (Motor.set_motor_speeds v0 v1 v2 v3 (Main.motor_controller self))
        as [[[]|e] mc]; eexists _, mc; (split; [reflexivity|discriminate]).
    + exists ("ERROR#" ++ e)%string, (Main.motor_controller self).
      rewrite set_motor_controller_id. split; [reflexivity|discriminate].
Qed.

(** The STOP handler touches the motor controller only; it answers
    OK#STOP unless the chip raised. *)
Lemma handle_stop_command_shape (args : list string) (self : Main.LaneFollowingCar) :
  exists o mc,
    Main.handle_stop_command args self = (o, Main.set_motor_controller mc self) /\
    (o = Ret "OK#STOP"%string \/ exists e, o = Exc e).
Proof.
  unfold Main.handle_stop_command, bind, Main.on_motor_controller, zoom.
  destruct (Motor.stop (Main.motor_controller self)) as [[[]|e] mc];
    eexists _, mc; (split; [reflexivity|eauto]).
Qed.

(** The STREAM handler never raises and leaves the motor controller, the
    TCP server and [running] alone. *)
Lemma handle_stream_command_shape (args : list string) (self : Main.LaneFollowingCar) :
  exists r self1,
    Main.handle_stream_command args self = (Ret r, self1) /\
    r <> ""%string /\
    Main.motor_controller self1 = Main.motor_controller self /\
    Main.tcp_server self1 = Main.tcp_server self /\
    Main.running self1 = Main.running self.
Proof.
  unfold Main.handle_stream_command.
  destruct args as [|arg0 rest];
    [eexists _, self; split; [reflexivity|]; split; [discriminate|auto]|].
  destruct (Py.upper arg0 =? "START")%string.
  - unfold bind at 1, get. destruct (Main.streaming self) eqn:Hs; cbn [negb].
    + eexists _, self. split; [reflexivity|]. split; [discriminate|auto].
    + unfold Main.start_video_streaming, bind at 1. rewrite Hs.
      eexists _, _. split; [reflexivity|]. split; [discriminate|]. simpl. auto.
  - destruct (Py.upper arg0 =? "STOP")%string.
    + unfold bind at 1, get. destruct (Main.streaming self) eqn:Hs.
      * unfold Main.stop_video_streaming, bind at 1. rewrite Hs. cbn [negb].
        eexists _, _. split; [reflexivity|]. split; [discriminate|]. simpl.
        destruct (Main.video_thread self); simpl; auto.
      * eexists _, self. split; [reflexivity|]. split; [discriminate|auto].
    + eexists _, self. split; [reflexivity|]. split; [discriminate|auto].
Qed.

Lemma handle_motor_command_ok : Main.handler_ok Main.handle_motor_command.
Proof.
  intros args self.
  destruct (handle_motor_command_shape args self) as (r & mc & -> & Hr).
  simpl. repeat split. intros r0 H. inversion H; subst. exact Hr.
Qed.

Lemma handle_stop_command_ok : Main.handler_ok Main.handle_stop_command.
Proof.
  intros args self.
  destruct (handle_stop_command_shape args self) as (o & mc & -> & Ho).
  simpl. repeat split. intros r H. destruct Ho as [->|[e ->]]; inversion H. discriminate.
Qed.

Lemma handle_stream_command_ok : Main.handler_ok Main.handle_stream_command.
Proof.
  intros args self.
  destruct (handle_stream_command_shape args self) as (r & self1 & -> & Hr & _ & Ht & Hrun).
  simpl. repeat split; try assumption. intros r0 H. inversion H; subst. exact Hr.
Qed.

Lemma handle_status_command_ok : Main.handler_ok Main.handle_status_command.
Proof.
  intros args self. unfold Main.handle_status_command, bind, get, ret. simpl.
  repeat split; intros r H; inversion H; discriminate.
Qed.

Lemma commands_ok (k : string) (h : list string -> M Main.LaneFollowingCar string) :
  Main.lookup k Main.commands = Some h -> Main.handler_ok h.
Proof.
  unfold Main.commands. cbn [Main.lookup].
  destruct ("MOTOR" =? k)%string; [intros H; inversion H; apply handle_motor_command_ok|].
  destruct ("STOP" =? k)%string; [intros H; inversion H; apply handle_stop_command_ok|].
  destruct ("STREAM" =? k)%string; [intros H; inversion H; apply handle_stream_command_ok|].
  destruct ("STATUS" =? k)%string; [intros H; inversion H; apply handle_status_command_ok|].
  discriminate.
Qed.

Lemma responded_tcp (a : TcpServer.address) (r : string) (self : Main.LaneFollowingCar) :
  exists l, Main.tcp_server (Main.responded a r self) =
            TcpServer.set_sockets l
              (TcpServer.set_responses
                 (TcpServer.responses (Main.tcp_server self) ++ [(a, r)])
                 (Main.tcp_server self)).
Proof.
  unfold Main.responded, Main.on_tcp_server, zoom.
  destruct (send_command_response_total a r (Main.tcp_server self)) as [b Hb].
  destruct (send_command_response_frame a r (Main.tcp_server self)) as [l Hl].
  rewrite Hb. simpl. rewrite Hl. exists l. reflexivity.
Qed.

Lemma dispatch_response_frame (addr : TcpServer.address) (text : string)
    (self : Main.LaneFollowingCar) :
  let self' := snd (Main.parse_and_execute_command addr text self) in
  fst (Main.parse_and_execute_command addr text self) = Ret tt /\
  (exists r, r <> ""%string /\
             Main.sent_responses self' = Main.sent_responses self ++ [(addr, r)]) /\
  TcpServer.command_clients (Main.tcp_server self') =
    TcpServer.command_clients (Main.tcp_server self) /\
  TcpServer.video_clients (Main.tcp_server self') =
    TcpServer.video_clients (Main.tcp_server self) /\
  TcpServer.message_queue (Main.tcp_server self') =
    TcpServer.message_queue (Main.tcp_server self) /\
  Main.running self' = Main.running self.
Proof.
  destruct (Py.split "#" (Py.strip text)) as [|part0 args] eqn:Hs;
    [exfalso; exact (split_nonempty _ _ Hs)|].
  assert (Hgen : forall r self1,
             r <> ""%string ->
             Main.tcp_server self1 = Main.tcp_server self ->
             Main.running self1 = Main.running self ->
             (exists r0, r0 <> ""%string /\
                Main.sent_responses (Main.responded addr r self1) =
                Main.sent_responses self ++ [(addr, r0)]) /\
             TcpServer.command_clients (Main.tcp_server (Main.responded addr r self1)) =
               TcpServer.command_clients (Main.tcp_server self) /\
             TcpServer.video_clients (Main.tcp_server (Main.responded addr r self1)) =
               TcpServer.video_clients (Main.tcp_server self) /\
             TcpServer.message_queue (Main.tcp_server (Main.responded addr r self1)) =
               TcpServer.message_queue (Main.tcp_server self) /\
             Main.running (Main.responded addr r self1) = Main.running self).
  { intros r self1 Hr Ht Hrun.
    destruct (responded_tcp addr r self1) as [l Hl].
    destruct (responded_frame addr r self1) as (_ & _ & _ & Hrun' & _).
    unfold Main.sent_responses. rewrite Hl, Ht, Hrun', Hrun. simpl.
    split; [exists r; auto|]. auto. }
  destruct (Main.lookup (Py.upper part0) Main.commands) as [h|] eqn:Hl.
  - rewrite (dispatch_known addr text part0 args h self Hs Hl). cbn [fst snd].
    split; [reflexivity|].
    destruct (commands_ok _ h Hl args self) as (Ht & Hrun & Hne).
    destruct (h args self) as [[r|e] self1]; simpl in Ht, Hrun, Hne.
    + destruct (String.eqb_spec r "") as [->|Hr]; [exfalso; exact (Hne _ eq_refl eq_refl)|].
      apply Hgen; assumption.
    + apply Hgen; [discriminate|assumption|assumption].
  - rewrite (dispatch_unknown addr text part0 args self Hs Hl). cbn [fst snd].
    split; [reflexivity|]. apply Hgen; [discriminate|reflexivity|reflexivity].
Qed.

(** X1. Whatever the command text and the state of the car, chip and
    sockets, [parse_and_execute_command] returns normally and hands exactly
    one response, not empty and addressed to the sender, to the TCP server;
    it leaves the registries, the queue and [running] as they were. *)
Theorem dispatch_one_response (addr : TcpServer.address) (text : string)
    (self : Main.LaneFollowingCar) :
  let self' := snd (Main.parse_and_execute_command addr text self) in
  fst (Main.parse_and_execute_command addr text self) = Ret tt /\
  (exists r, r <> ""%string /\
             Main.sent_responses self' = Main.sent_responses self ++ [(addr, r)]) /\
  TcpServer.command_clients (Main.tcp_server self') =
    TcpServer.command_clients (Main.tcp_server self) /\
  TcpServer.video_clients (Main.tcp_server self') =
    TcpServer.video_clients (Main.tcp_server self) /\
  TcpServer.message_queue (Main.tcp_server self') =
    TcpServer.message_queue (Main.tcp_server self) /\
  Main.running self' = Main.running self.
Proof.
  exact (dispatch_response_frame addr text self).
Qed.

Lemma lookup_commands (k : string) (h : list string -> M Main.LaneFollowingCar string) :
  Main.lookup k Main.commands = Some h ->
  (k = "MOTOR"%string /\ h = Main.handle_motor_command) \/
  (k = "STOP"%string /\ h = Main.handle_stop_command) \/
  (k = "STREAM"%string /\ h = Main.handle_stream_command) \/
  (k = "STATUS"%string /\ h = Main.handle_status_command).
Proof.
  unfold Main.commands. cbn [Main.lookup].
  destruct (String.eqb_spec "MOTOR" k); [intros H; inversion H; auto|].
  destruct (String.eqb_spec "STOP" k); [intros H; inversion H; auto|].
  destruct (String.eqb_spec "STREAM" k); [intros H; inversion H; auto 6|].
  destruct (String.eqb_spec "STATUS" k); [intros H; inversion H; auto 6|].
  discriminate.
Qed.

Lemma responded_stream_state (a : TcpServer.address) (r : string)
    (self : Main.LaneFollowingCar) :
  Main.stream_state (Main.responded a r self) = Main.stream_state self /\
  Main.motor_controller (Main.responded a r self) = Main.motor_controller self.
Proof.
  destruct (responded_frame a r self) as (_ & Hm & Hc & _ & Hs & Hv & Ht & _).
  unfold Main.stream_state. rewrite Hc, Hs, Hv, Ht. auto.
Qed.

Lemma dispatch_component_frame (addr : TcpServer.address) (text part0 : string)
    (args : list string) (self : Main.LaneFollowingCar) :
  Py.split "#" (Py.strip text) = part0 :: args ->
  let self' := snd (Main.parse_and_execute_command addr text self) in
  (Py.upper part0 <> "STREAM"%string ->
   Main.camera self' = Main.camera self /\
   Main.streaming self' = Main.streaming self /\
   Main.video_thread self' = Main.video_thread self /\
   Main.threads self' = Main.threads self) /\
  (Py.upper part0 <> "MOTOR"%string -> Py.upper part0 <> "STOP"%string ->
   Main.motor_controller self' = Main.motor_controller self).
Proof.
  intros Hs self'. subst self'.
  assert (Hproj : forall s1 s2, Main.stream_state s1 = Main.stream_state s2 ->
             Main.camera s1 = Main.camera s2 /\ Main.streaming s1 = Main.streaming s2 /\
             Main.video_thread s1 = Main.video_thread s2 /\ Main.threads s1 = Main.threads s2).
  { unfold Main.stream_state. intros s1 s2 H. inversion H. auto. }
  destruct (Main.lookup (Py.upper part0) Main.commands) as [h|] eqn:Hl.
  - rewrite (dispatch_known addr text part0 args h self Hs Hl). cbn [snd].
    destruct (lookup_commands _ h Hl) as [[Hk ->]|[[Hk ->]|[[Hk ->]|[Hk ->]]]].
    + destruct (handle_motor_command_shape args self) as (r & mc & -> & Hr).
      destruct (String.eqb_spec r ""); [contradiction|].
      destruct (responded_stream_state addr r (Main.set_motor_controller mc self)) as [H1 H2].
      split; [intros _; apply Hproj; rewrite H1; reflexivity | congruence].
    + destruct (handle_stop_command_shape args self) as (o & mc & -> & [->|[e ->]]).
      * cbn [String.eqb].
        destruct (responded_stream_state addr "OK#STOP" (Main.set_motor_controller mc self))
          as [H1 H2].
        split; [intros _; apply Hproj; rewrite H1; reflexivity | congruence].
      * destruct (responded_stream_state addr ("ERROR#" ++ e)
                    (Main.set_motor_controller mc self)) as [H1 H2].
        split; [intros _; apply Hproj; rewrite H1; reflexivity | congruence].
    + destruct (handle_stream_command_shape args self) as (r & s1 & -> & Hr & Hm & _).
      destruct (String.eqb_spec r ""); [contradiction|].
      destruct (responded_stream_state addr r s1) as [H1 H2].
      split; [congruence | intros _ _; congruence].
    + unfold Main.handle_status_command, bind, get, ret. cbn [String.eqb String.append].
      match goal with
      | |- context [Main.responded addr ?r self] =>
          destruct (responded_stream_state addr r self) as [H1 H2]
      end.
      split; [intros _; apply Hproj; exact H1 | intros _ _; exact H2].
  - rewrite (dispatch_unknown addr text part0 args self Hs Hl). cbn [snd].
    match goal with
    | |- context [Main.responded addr ?r self] =>
        destruct (responded_stream_state addr r self) as [H1 H2]
    end.
    split; [intros _; apply Hproj; exact H1 | intros _ _; exact H2].
Qed.



(** [set_motor_speeds] on an initialized controller whose chip raises: the
    first PWM call raises, and nothing is written. *)
Lemma set_motor_speeds_chip_error (a b c d : Z) (dev : Motor.PCA9685) (e : string)
    (calls : list (Z * Z * Z * Z)) :
  Motor.pwm_fault dev = Some e ->
  Motor.set_motor_speeds a b c d (Motor.mkMotorController (Some dev) true calls) =
  (Exc e, Motor.mkMotorController (Some dev) true (calls ++ [(a, b, c, d)])).
Proof.
  intros Hf. unfold Motor.set_motor_speeds, Motor.log_speed_call. simpl.
  unfold bind at 1. unfold Motor._set_motor at 1. simpl.
  destruct (Motor._duty_range (Motor._duty_range a) >? 0);
    [|destruct (Motor._duty_range (Motor._duty_range a) <? 0)];
    unfold bind, Motor.self_pwm_set_motor_pwm, Motor.set_motor_pwm; simpl;
    rewrite Hf; destruct dev; reflexivity.
Qed.

Lemma set_motor_speeds_chip_error_any (a b c d : Z) (mc : Motor.MotorController)
    (dev : Motor.PCA9685) (e : string) :
  Motor.initialized mc = true -> Motor.pwm mc = Some dev -> Motor.pwm_fault dev = Some e ->
  Motor.set_motor_speeds a b c d mc =
  (Exc e, Motor.mkMotorController (Some dev) true (Motor.speed_calls mc ++ [(a, b, c, d)])).
Proof.
  intros Hi Hp Hf. destruct mc as [p i calls]. simpl in *. subst p i.
  apply set_motor_speeds_chip_error. assumption.
Qed.

(** X3. On an initialized controller whose chip raises with the text [e],
    a dispatched MOTOR command with four integer tokens and a dispatched
    STOP command are both answered ERROR# followed by [e]; the call of
    [set_motor_speeds] is made, and nothing is written to the chip. *)
Theorem chip_error_reported (addr : TcpServer.address) (self : Main.LaneFollowingCar)
    (dev : Motor.PCA9685) (e : string) :
  Motor.initialized (Main.motor_controller self) = true ->
  Motor.pwm (Main.motor_controller self) = Some dev ->
  Motor.pwm_fault dev = Some e ->
  (forall text part0 t0 t1 t2 t3 v0 v1 v2 v3,
      Py.split "#" (Py.strip text) = [part0; t0; t1; t2; t3] ->
      Py.upper part0 = "MOTOR"%string ->
      Py.parse_int t0 = Some v0 -> Py.parse_int t1 = Some v1 ->
      Py.parse_int t2 = Some v2 -> Py.parse_int t3 = Some v3 ->
      let self' := snd (Main.parse_and_execute_command addr text self) in
      Main.sent_responses self' = Main.sent_responses self ++ [(addr, ("ERROR#" ++ e)%string)] /\
      Motor.speed_calls (Main.motor_controller self') =
        Motor.speed_calls (Main.motor_controller self) ++ [(v0, v1, v2, v3)] /\
      Motor.pwm (Main.motor_controller self') = Some dev) /\
  (forall text part0 args,
      Py.split "#" (Py.strip text) = part0 :: args ->
      Py.upper part0 = "STOP"%string ->
      let self' := snd (Main.parse_and_execute_command addr text self) in
      Main.sent_responses self' = Main.sent_responses self ++ [(addr, ("ERROR#" ++ e)%string)] /\
      Motor.speed_calls (Main.motor_controller self') =
        Motor.speed_calls (Main.motor_controller self) ++ [(0, 0, 0, 0)] /\
      Motor.pwm (Main.motor_controller self') = Some dev).
Proof.
  intros Hi Hp Hf.
  split.
  - intros text part0 t0 t1 t2 t3 v0 v1 v2 v3 Hs Hu H0 H1 H2 H3 self'. subst self'.
    rewrite (dispatch_known addr text part0 [t0; t1; t2; t3] Main.handle_motor_command)
      by (assumption || (rewrite Hu; reflexivity)).
    rewrite (handle_motor_four t0 t1 t2 t3 v0 v1 v2 v3) by assumption.
    rewrite (set_motor_speeds_chip_error_any _ _ _ _ _ dev e) by assumption. cbn [snd].
    destruct (String.eqb_spec ("ERROR#" ++ e) ""); [discriminate|].
    match goal with
    | |- context [Main.responded addr ?r ?s] =>
        destruct (responded_frame addr r s) as (Hresp & Hm & _)
    end.
    rewrite Hresp, Hm. simpl. auto.
  - intros text part0 args Hs Hu self'. subst self'.
    rewrite (dispatch_known addr text part0 args Main.handle_stop_command)
      by (assumption || (rewrite Hu; reflexivity)).
    unfold Main.handle_stop_command, bind, Main.on_motor_controller, zoom, Motor.stop.
    rewrite (set_motor_speeds_chip_error_any _ _ _ _ _ dev e) by assumption. cbn [snd].
    match goal with
    | |- context [Main.responded addr ?r ?s] =>
        destruct (responded_frame addr r s) as (Hresp & Hm & _)
    end.
    rewrite Hresp, Hm. simpl. auto.
Qed.

Lemma chip_error_reported_witness :
  Main.sent_responses
    (snd (Main.parse_and_execute_command Sample.peer "MOTOR#1#2#3#4"
            Sample.car_with_silent_chip)) =
    [(Sample.peer, "ERROR#[Errno 121] Remote I/O error"%string)] /\
  Main.sent_responses
    (snd (Main.parse_and_execute_command Sample.peer "STOP" Sample.car_with_silent_chip)) =
    [(Sample.peer, "ERROR#[Errno 121] Remote I/O error"%string)].
Proof.
  destruct (chip_error_reported Sample.peer Sample.car_with_silent_chip
              (Motor.mkPCA9685 (Some "[Errno 121] Remote I/O error"%string) (Some 50) [])
              "[Errno 121] Remote I/O error" eq_refl eq_refl eq_refl) as [Hm Hst].
  split.
  - apply (Hm "MOTOR#1#2#3#4"%string "MOTOR"%string "1"%string "2"%string "3"%string
             "4"%string 1 2 3 4); reflexivity.
  - apply (Hst "STOP"%string "STOP"%string []); reflexivity.
Defined.

(** X4. A dispatched STOP command, whatever arguments follow the verb, is
    answered OK#STOP and calls [set_motor_speeds(0, 0, 0, 0)]; on an
    initialized controller the chip gets 4095 on both channels of every
    wheel.  The chip is assumed to answer. *)
Theorem stop_command_brakes (addr : TcpServer.address) (text part0 : string)
    (args : list string) (self : Main.LaneFollowingCar) :
  Py.split "#" (Py.strip text) = part0 :: args ->
  Py.upper part0 = "STOP"%string ->
  Motor.responsive (Main.motor_controller self) = true ->
  let self' := snd (Main.parse_and_execute_command addr text self) in
  Main.sent_responses self' = Main.sent_responses self ++ [(addr, "OK#STOP"%string)] /\
  Motor.speed_calls (Main.motor_controller self') =
    Motor.speed_calls (Main.motor_controller self) ++ [(0, 0, 0, 0)] /\
  (Motor.initialized (Main.motor_controller self) = true ->
   Motor.writes (Main.motor_controller self') =
     Motor.writes (Main.motor_controller self) ++
     [(0, 4095); (1, 4095); (2, 4095); (3, 4095);
      (6, 4095); (7, 4095); (4, 4095); (5, 4095)]).
Proof.
  intros Hs Hu Hr self'. subst self'.
  rewrite (dispatch_known addr text part0 args Main.handle_stop_command)
    by (assumption || (rewrite Hu; reflexivity)).
  unfold Main.handle_stop_command, bind, Main.on_motor_controller, zoom, Motor.stop.
  pose proof (set_motor_speeds_returns 0 0 0 0 _ Hr) as [Hret Hw].
  pose proof (set_motor_speeds_call 0 0 0 0 (Main.motor_controller self)) as Hc.
  destruct (Motor.set_motor_speeds 0 0 0 0 (Main.motor_controller self)) as [o mc].
  simpl in Hret, Hw, Hc. subst o. cbn [snd ret String.eqb].
  destruct (responded_frame addr "OK#STOP" (Main.set_motor_controller mc self))
    as (Hresp & Hmc & _).
  rewrite Hresp, Hmc. simpl. repeat split; try assumption.
  intros Hi. rewrite Hw, Hi. reflexivity.
Qed.

Lemma stop_command_brakes_witness :
  let self' := snd (Main.parse_and_execute_command Sample.peer "stop#now#please"
                      Sample.car) in
  Main.sent_responses self' = [(Sample.peer, "OK#STOP"%string)] /\
  Motor.writes (Main.motor_controller self') =
    [(0, 4095); (1, 4095); (2, 4095); (3, 4095); (6, 4095); (7, 4095); (4, 4095); (5, 4095)].
Proof.
  destruct (stop_command_brakes Sample.peer "stop#now#please" "stop"
              ["now"; "please"]%string Sample.car eq_refl eq_refl eq_refl)
    as (H1 & _ & H3).
  split; [exact H1 | exact (H3 eq_refl)].
Defined.

(* ------------------------------------------------------------------ *)
(** ** The video pipeline across commands *)

Lemma stream_consistent_of_state (s1 s2 : Main.LaneFollowingCar) :
  Main.stream_state s1 = Main.stream_state s2 ->
  Main.stream_consistent s2 -> Main.stream_consistent s1.
Proof.
  unfold Main.stream_state, Main.stream_consistent. intros H.
  inversion H as [[Hc Hs Hv Ht]]. rewrite Hc, Hs, Hv. auto.
Qed.

Lemma handle_stream_command_consistent (args : list string) (self : Main.LaneFollowingCar) :
  Main.stream_consistent self ->
  Main.stream_consistent (snd (Main.handle_stream_command args self)).
Proof.
  intros Hinv. unfold Main.handle_stream_command.
  destruct args as [|arg0 rest]; [exact Hinv|].
  destruct (Py.upper arg0 =? "START")%string.
  - unfold bind at 1, get. destruct (Main.streaming self) eqn:Hs; cbn [negb]; [exact Hinv|].
    unfold Main.start_video_streaming, bind at 1. rewrite Hs.
    destruct Hinv as (Hcs & Hcam & _ & Hoff). rewrite Hs in Hcs.
    destruct (Camera.camera (Main.camera self)) as [p|] eqn:Hp; [|contradiction].
    unfold Main.stream_consistent. simpl.
    unfold Camera.start_streaming. rewrite Hcs, Hp. simpl.
    repeat split; try discriminate.
    eexists. repeat split. rewrite length_app. simpl. lia.
  - destruct (Py.upper arg0 =? "STOP")%string; [|exact Hinv].
    unfold bind at 1, get. destruct (Main.streaming self) eqn:Hs; [|exact Hinv].
    unfold Main.stop_video_streaming, bind at 1. rewrite Hs. cbn [negb].
    destruct Hinv as (Hcs & Hcam & Hon & _). rewrite Hs in Hcs.
    destruct (Hon Hs) as (Hvt & o & Hso & Hlt & Hp).
    unfold Main.stream_consistent. simpl.
    assert (Hcamera : Main.camera
                        match Main.video_thread self with
                        | Some _ => Main.set_video_thread None (Main.set_streaming false self)
                        | None => Main.set_streaming false self
                        end = Main.camera self)
      by (destruct (Main.video_thread self); reflexivity).
    assert (Hstr : Main.streaming
                     match Main.video_thread self with
                     | Some _ => Main.set_video_thread None (Main.set_streaming false self)
                     | None => Main.set_streaming false self
                     end = false)
      by (destruct (Main.video_thread self); reflexivity).
    assert (Hvid : Main.video_thread
                     match Main.video_thread self with
                     | Some _ => Main.set_video_thread None (Main.set_streaming false self)
                     | None => Main.set_streaming false self
                     end = None)
      by (destruct (Main.video_thread self); [reflexivity|contradiction]).
    rewrite Hcamera, Hstr, Hvid. unfold Camera.stop_streaming. rewrite Hcs, Hp. simpl.
    split; [reflexivity|]. split; [discriminate|]. split; [discriminate|].
    intros _. split; [reflexivity|]. intros p0 H. inversion H. reflexivity.
Qed.

Lemma dispatch_consistent (addr : TcpServer.address) (text : string)
    (self : Main.LaneFollowingCar) :
  Main.stream_consistent self ->
  Main.stream_consistent (snd (Main.parse_and_execute_command addr text self)).
Proof.
  intros Hinv.
  destruct (Py.split "#" (Py.strip text)) as [|part0 args] eqn:Hs;
    [exfalso; exact (split_nonempty _ _ Hs)|].
  destruct (String.eqb_spec (Py.upper part0) "STREAM") as [Hk|Hk].
  - rewrite (dispatch_known addr text part0 args Main.handle_stream_command self Hs)
      by (rewrite Hk; reflexivity).
    cbn [snd]. pose proof (handle_stream_command_consistent args self Hinv) as H1.
    destruct (handle_stream_command_shape args self) as (r & s1 & Heq & Hr & _).
    rewrite Heq in *. cbn [snd] in H1.
    destruct (String.eqb_spec r ""); [contradiction|].
    apply (stream_consistent_of_state _ s1); [|exact H1].
    apply responded_stream_state.
  - destruct (dispatch_component_frame addr text part0 args self Hs) as [H _].
    destruct (H Hk) as (Hc & Hst & Hv & Ht).
    apply (stream_consistent_of_state _ self); [|exact Hinv].
    unfold Main.stream_state. congruence.
Qed.

(** X5. From the started car on, whatever commands are dispatched, from
    whichever senders, the car's [streaming] flag equals the camera's
    [is_streaming]; while it is set there is a video thread handle and the
    encoder writes to the camera's current output, which exists; while it
    is clear there is no handle and no encoder.  So [get_frame] never raises
    there: it returns [None] at once or blocks on the current output. *)
Theorem stream_state_consistent (hw : option Motor.PCA9685)
    (items : list (TcpServer.address * string)) (t : Camera.thread) :
  let self := Main.dispatch_all items (snd (Main.start (Main.__init__ hw))) in
  Main.stream_consistent self /\
  (Main.streaming self = false ->
   fst (Camera.get_frame_call t (Main.camera self)) = Camera.Returned None) /\
  (Main.streaming self = true ->
   exists o, fst (Camera.get_frame_call t (Main.camera self)) = Camera.Blocked o /\
             Camera.streaming_output (Main.camera self) = Some o /\
             Camera.waits_on t o (snd (Camera.get_frame_call t (Main.camera self)))).
Proof.
  intros self.
  assert (Hinv : Main.stream_consistent self).
  { subst self. unfold Main.dispatch_all.
    assert (Hstart : Main.stream_consistent (snd (Main.start (Main.__init__ hw)))).
    { unfold Main.stream_consistent. simpl. repeat split; try discriminate.
      intros p Hp. inversion Hp. reflexivity. }
    revert Hstart. generalize (snd (Main.start (Main.__init__ hw))).
    induction items as [|[a text] items IH]; intros s0 H0; [exact H0|].
    simpl. apply IH. apply dispatch_consistent. exact H0. }
  split; [exact Hinv|].
  destruct Hinv as (Hcs & _ & Hon & _).
  unfold Camera.get_frame_call. rewrite Hcs. split.
  - intros ->. reflexivity.
  - intros Hs. rewrite Hs. destruct (Hon Hs) as (_ & o & Hso & Hlt & _).
    rewrite Hso. exists o. simpl. repeat split.
    unfold Camera.waits_on. simpl. rewrite nth_error_update, Nat.eqb_refl.
    destruct (nth_error (Camera.outputs (Main.camera self)) o) as [out|] eqn:Hn.
    + simpl. eexists. split; [reflexivity|]. simpl. apply in_or_app. simpl. auto.
    + apply nth_error_None in Hn. lia.
Qed.

Lemma stream_state_consistent_witness :
  let self := Main.dispatch_all [(Sample.peer, "STREAM#START"); (Sample.viewer, "STATUS")]
                (snd (Main.start (Main.__init__ (Some Sample.chip)))) in
  Main.streaming self = true /\
  exists o, fst (Camera.get_frame_call 3%nat (Main.camera self)) = Camera.Blocked o /\
            Camera.streaming_output (Main.camera self) = Some o /\
            Camera.waits_on 3%nat o (snd (Camera.get_frame_call 3%nat (Main.camera self))).
Proof.
  intros self.
  destruct (stream_state_consistent (Some Sample.chip)
              [(Sample.peer, "STREAM#START"); (Sample.viewer, "STATUS")] 3%nat)
    as (_ & _ & Hon).
  split; [reflexivity|]. apply Hon. reflexivity.
Defined.

(* ------------------------------------------------------------------ *)
(** ** The command queue *)

Lemma set_tcp_server_id (self : Main.LaneFollowingCar) :
  Main.set_tcp_server (Main.tcp_server self) self = self.
Proof. destruct self; reflexivity. Qed.

Lemma process_queue_step (fuel : nat) (self : Main.LaneFollowingCar)
    (a : TcpServer.address) (text : string) (rest : list (TcpServer.address * string)) :
  TcpServer.message_queue (Main.tcp_server self) = (a, text) :: rest ->
  Main.process_queue (S fuel) self =
  Main.process_queue fuel
    (snd (Main.parse_and_execute_command a text
            (Main.set_tcp_server
               (TcpServer.set_message_queue rest (Main.tcp_server self)) self))).
Proof.
  intros Hq. cbn [Main.process_queue].
  unfold bind at 1, Main.on_tcp_server, zoom, TcpServer.queue_get. rewrite Hq.
  unfold bind.
  match goal with
  | |- context [Main.parse_and_execute_command a text ?s] =>
      pose proof (dispatch_response_frame a text s) as [Hret _];
      destruct (Main.parse_and_execute_command a text s) as [o s1]
  end.
  simpl in Hret. subst o. reflexivity.
Qed.

(** X6. The inner loop of [process_commands] ends once it has taken every
    queued command off the queue, oldest first: it leaves the queue empty,
    never raises, and has handed the TCP server one response per command,
    in the order of the queue, each addressed to the sender of its
    command. *)
Theorem process_queue_drains (fuel : nat) (self : Main.LaneFollowingCar) :
  (List.length (TcpServer.message_queue (Main.tcp_server self)) < fuel)%nat ->
  exists self' responses,
    Main.process_queue fuel self = (Ret (Some tt), self') /\
    TcpServer.message_queue (Main.tcp_server self') = [] /\
    Main.sent_responses self' = Main.sent_responses self ++ responses /\
    map fst responses = map fst (TcpServer.message_queue (Main.tcp_server self)) /\
    Main.running self' = Main.running self.
Proof.
  remember (TcpServer.message_queue (Main.tcp_server self)) as q eqn:Hq.
  revert fuel self Hq. induction q as [|[a text] rest IH]; intros fuel self Hq Hfuel.
  - destruct fuel as [|fuel]; [simpl in Hfuel; lia|].
    exists self, []. cbn [Main.process_queue].
    unfold bind, Main.on_tcp_server, zoom, TcpServer.queue_get. rewrite <- Hq.
    rewrite app_nil_r. cbn [ret]. rewrite set_tcp_server_id.
    repeat split; auto.
  - destruct fuel as [|fuel]; [simpl in Hfuel; lia|].
    rewrite (process_queue_step fuel self a text rest) by (symmetry; exact Hq).
    set (s0 := Main.set_tcp_server
                 (TcpServer.set_message_queue rest (Main.tcp_server self)) self).
    destruct (dispatch_response_frame a text s0) as (_ & (r & _ & Hresp) & _ & _ & Hqueue & Hrun).
    destruct (IH fuel (snd (Main.parse_and_execute_command a text s0)))
      as (self' & rs & Heq & Hempty & Hsent & Hmap & Hrun').
    + rewrite Hqueue. reflexivity.
    + simpl in Hfuel. lia.
    + exists self', ((a, r) :: rs). split; [exact Heq|]. split; [exact Hempty|].
      split; [|split].
      * rewrite Hsent, Hresp. unfold Main.sent_responses. simpl.
        rewrite <- app_assoc. reflexivity.
      * simpl. rewrite Hmap. reflexivity.
      * rewrite Hrun', Hrun. reflexivity.
Qed.

Lemma process_queue_drains_witness :
  exists self' responses,
    Main.process_queue 3 Sample.car_with_queue = (Ret (Some tt), self') /\
    TcpServer.message_queue (Main.tcp_server self') = [] /\
    Main.sent_responses self' = Main.sent_responses Sample.car_with_queue ++ responses /\
    map fst responses = [Sample.peer; Sample.viewer].
Proof.
  destruct (process_queue_drains 3 Sample.car_with_queue) as (self' & rs & H1 & H2 & H3 & H4 & _).
  - simpl. lia.
  - exists self', rs. repeat split; assumption.
Defined.

(* ------------------------------------------------------------------ *)
(** ** Responses and their addressee *)

Lemma send_response_loop_other_sockets (a : TcpServer.address) (r : string) (s : nat)
    (items : list (nat * TcpServer.address)) (srv : TcpServer.TCPServer) :
  (forall a', In (s, a') items -> TcpServer.address_eqb a' a = false) ->
  nth_error (TcpServer.sockets (snd (TcpServer.send_response_loop a r items srv))) s =
  nth_error (TcpServer.sockets srv) s.
Proof.
  induction items as [|[cs addr] rest IH]; intros Hno; [reflexivity|].
  cbn [TcpServer.send_response_loop].
  destruct (TcpServer.address_eqb addr a) eqn:E.
  - assert (Hne : cs <> s).
    { intros ->. rewrite (Hno addr) in E; [discriminate|now left]. }
    unfold try_except, bind, TcpServer.on_socket.
    destruct (nth_error (TcpServer.sockets srv) cs) as [sk|]; [|reflexivity].
    destruct (TcpServer.sendall (Py.encode r) sk) as [[[]|e] sk']; simpl;
      rewrite nth_error_update; destruct (Nat.eqb_spec cs s); congruence.
  - apply IH. intros a' Hin. apply Hno. now right.
Qed.

(** X7. A response is never written to a socket that is not registered
    under the address it is sent to: [send_command_response] leaves every
    such socket exactly as it was. *)
Theorem response_not_leaked (a : TcpServer.address) (r : string)
    (srv : TcpServer.TCPServer) (s : nat) :
  (forall a', In (s, a') (TcpServer.command_clients srv) ->
              TcpServer.address_eqb a' a = false) ->
  nth_error (TcpServer.sockets (snd (TcpServer.send_command_response a r srv))) s =
  nth_error (TcpServer.sockets srv) s.
Proof.
  intros Hno. unfold TcpServer.send_command_response, bind, modify, get. simpl.
  rewrite (send_response_loop_other_sockets a r s); [reflexivity | exact Hno].
Qed.

Lemma response_not_leaked_witness :
  let srv := TcpServer.server Sample.system_with_operator in
  TcpServer.command_clients srv = [(0%nat, Sample.peer)] /\
  nth_error (TcpServer.sockets
               (snd (TcpServer.send_command_response Sample.viewer "OK#STOP" srv))) 0 =
  nth_error (TcpServer.sockets srv) 0.
Proof.
  split; [reflexivity|].
  apply (response_not_leaked Sample.viewer "OK#STOP"
           (TcpServer.server Sample.system_with_operator) 0).
  intros a' [H|[]]. inversion H. reflexivity.
Defined.

(** X8. A connection accepted while the command registry is empty is
    registered under its address with an open socket, and a response sent
    to that address afterwards is written to that socket, encoded, in one
    [sendall]; a second connection is then turned away. *)
Theorem admitted_client_is_answered (addr : TcpServer.address) (data : list (list byte))
    (r : string) (srv : TcpServer.TCPServer) :
  TcpServer.command_clients srv = [] ->
  TcpServer.max_clients srv = 1 ->
  let s := List.length (TcpServer.sockets srv) in
  let srv1 := snd (TcpServer.handle_command_clients_turn addr data srv) in
  TcpServer.command_clients srv1 = [(s, addr)] /\
  In (s, addr) (TcpServer.client_threads srv1) /\
  TcpServer.has_command_clients srv1 = true /\
  fst (TcpServer.send_command_response addr r srv1) = Ret true /\
  nth_error (TcpServer.sockets (snd (TcpServer.send_command_response addr r srv1))) s =
    Some (TcpServer.mkSocket false None data [Py.encode r]) /\
  forall addr2 data2,
    TcpServer.command_clients
      (snd (TcpServer.handle_command_clients_turn addr2 data2 srv1)) = [(s, addr)].
Proof.
  intros Hreg Hmax s srv1.
  assert (Hturn : TcpServer.handle_command_clients_turn addr data srv =
                  (Ret tt,
                   TcpServer.set_client_threads (TcpServer.client_threads srv ++ [(s, addr)])
                     (TcpServer.set_command_clients [(s, addr)]
                        (TcpServer.set_sockets
                           (TcpServer.sockets srv ++ [TcpServer.mkSocket false None data []])
                           srv)))).
  { unfold TcpServer.handle_command_clients_turn, bind at 1.
    rewrite command_accept_spec, Hreg, Hmax. simpl.
    unfold TcpServer.command_register, modify. simpl. rewrite Hreg. reflexivity. }
  subst srv1. rewrite Hturn. cbn [snd].
  set (srv1 := TcpServer.set_client_threads _ _).
  assert (Hn : nth_error (TcpServer.sockets srv1) s =
               Some (TcpServer.mkSocket false None data [])).
  { subst srv1 s. simpl. rewrite nth_error_app2 by lia. rewrite Nat.sub_diag. reflexivity. }
  split; [reflexivity|]. split; [simpl; apply in_or_app; simpl; auto|].
  split; [reflexivity|].
  rewrite (response_reaches_client addr r srv1 s _ eq_refl Hn (conj eq_refl eq_refl)).
  split; [reflexivity|]. split.
  - simpl. rewrite nth_error_update, Nat.eqb_refl.
    subst s. rewrite nth_error_app2 by lia. rewrite Nat.sub_diag. reflexivity.
  - intros addr2 data2. unfold TcpServer.handle_command_clients_turn, bind at 1.
    rewrite command_accept_spec. subst srv1. simpl. rewrite Hmax. reflexivity.
Qed.

Lemma admitted_client_is_answered_witness :
  let srv1 := snd (TcpServer.handle_command_clients_turn Sample.peer [] TcpServer.__init__) in
  TcpServer.command_clients srv1 = [(0%nat, Sample.peer)] /\
  nth_error (TcpServer.sockets
               (snd (TcpServer.send_command_response Sample.peer "OK#STOP" srv1))) 0 =
    Some (TcpServer.mkSocket false None [] [Py.encode "OK#STOP"]).
Proof.
  destruct (admitted_client_is_answered Sample.peer [] "OK#STOP" TcpServer.__init__
              eq_refl eq_refl) as (H1 & _ & _ & _ & H5 & _).
  split; [exact H1 | exact H5].
Defined.

(* ------------------------------------------------------------------ *)
(** ** Closing sockets *)

Lemma close_all_nth (keys : list nat) (l : list TcpServer.Socket) (s : nat) :
  nth_error (TcpServer.close_all keys l) s =
  if existsb (Nat.eqb s) keys then option_map TcpServer.close (nth_error l s)
  else nth_error l s.
Proof.
  revert l. induction keys as [|k keys IH]; intros l; [reflexivity|].
  unfold TcpServer.close_all in *. cbn [fold_left existsb]. rewrite IH, nth_error_update.
  rewrite (Nat.eqb_sym s k).
  destruct (k =? s)%nat, (existsb (Nat.eqb s) keys); cbn [orb]; try reflexivity.
  destruct (nth_error l s); reflexivity.
Qed.

Lemma existsb_eqb_In (s : nat) (keys : list nat) :
  existsb (Nat.eqb s) keys = true <-> In s keys.
Proof.
  rewrite existsb_exists. split.
  - intros [x [Hin Hx]]. apply Nat.eqb_eq in Hx. subst. exact Hin.
  - intros H. exists s. split; [exact H|apply Nat.eqb_refl].
Qed.

(** X9. [stop_server] clears [running] and both registries and closes the
    socket of every client that was registered, and then the two listening
    sockets when [start_server] has created them.  It closes no other
    client socket, and on no socket does it touch the data received or
    sent.  Stopping a stopped server changes nothing. *)
Theorem stop_server_closes_clients (srv : TcpServer.TCPServer) :
  let srv' := TcpServer.stop_server srv in
  TcpServer.running srv' = false /\
  TcpServer.command_clients srv' = [] /\
  TcpServer.video_clients srv' = [] /\
  TcpServer.message_queue srv' = TcpServer.message_queue srv /\
  List.length (TcpServer.sockets srv') = List.length (TcpServer.sockets srv) /\
  (forall s sk, nth_error (TcpServer.sockets srv) s = Some sk ->
     nth_error (TcpServer.sockets srv') s =
       Some (TcpServer.mkSocket
               (TcpServer.closed sk ||
                Dict.mem s (TcpServer.command_clients srv) ||
                Dict.mem s (TcpServer.video_clients srv))
               (TcpServer.fault sk) (TcpServer.inbox sk) (TcpServer.sent sk))) /\
  TcpServer.command_socket srv' =
    match TcpServer.command_socket srv with Some _ => Some true | None => None end /\
  TcpServer.video_socket srv' =
    match TcpServer.video_socket srv with Some _ => Some true | None => None end /\
  TcpServer.command_socket (TcpServer.start_server srv) = Some false /\
  TcpServer.video_socket (TcpServer.start_server srv) = Some false /\
  TcpServer.stop_server srv' = srv'.
Proof.
  assert (Hmem : forall (d : Dict.dict TcpServer.address) s,
             existsb (Nat.eqb s) (map fst d) = Dict.mem s d).
  { intros d s. unfold Dict.mem. induction d as [|[k v] d IH]; [reflexivity|].
    simpl. rewrite IH, (Nat.eqb_sym s k). reflexivity. }
  assert (Hlen : forall keys l,
             List.length (TcpServer.close_all keys l) = List.length l).
  { intros keys. unfold TcpServer.close_all.
    induction keys as [|k keys IH]; intros l; [reflexivity|].
    simpl. rewrite IH. clear IH. revert k.
    induction l as [|x l IHl]; intros [|k]; simpl; auto. }
  unfold TcpServer.stop_server, TcpServer.close_listening. simpl.
  repeat split.
  - rewrite !Hlen. reflexivity.
  - intros s sk Hn. rewrite !close_all_nth, !Hmem, Hn.
    destruct sk as [c f i o]. simpl.
    destruct (Dict.mem s (TcpServer.command_clients srv)),
             (Dict.mem s (TcpServer.video_clients srv)), c; reflexivity.
  - destruct srv as [cs vs cc vc mq r mx sk rs ct]. simpl.
    destruct cs, vs; reflexivity.
Qed.

Lemma stop_server_closes_clients_witness :
  let srv' := TcpServer.stop_server Sample.server_with_viewer in
  TcpServer.video_clients Sample.server_with_viewer = [(0%nat, Sample.viewer)] /\
  TcpServer.video_clients srv' = [] /\
  nth_error (TcpServer.sockets srv') 0 = Some (TcpServer.mkSocket true None [] []) /\
  TcpServer.command_socket Sample.server_with_viewer = Some false /\
  TcpServer.command_socket srv' = Some true /\
  TcpServer.video_socket srv' = Some true.
Proof.
  intros srv'.
  destruct (stop_server_closes_clients Sample.server_with_viewer)
    as (_ & _ & Hv & _ & _ & Hsock & Hc & Hvs & _).
  split; [reflexivity|]. split; [exact Hv|].
  split; [exact (Hsock 0%nat (TcpServer.mkSocket false None [] []) eq_refl)|].
  split; [reflexivity|]. split; [exact Hc | exact Hvs].
Defined.

(* ------------------------------------------------------------------ *)
(** ** Broken video clients *)

Lemma try_send_frame_unwritable (sz fr : list byte) (cs : nat) (srv : TcpServer.TCPServer) :
  TcpServer.writable (TcpServer.sockets srv) cs = false ->
  TcpServer.try_send_frame sz fr cs srv = (Ret [cs], srv).
Proof.
  intros Hw. unfold TcpServer.try_send_frame, try_except, bind.
  destruct (on_socket_sendall_fails sz cs srv) as [e He].
  - unfold TcpServer.writable in Hw.
    destruct (nth_error (TcpServer.sockets srv) cs) as [sk|]; [|exact I].
    destruct (TcpServer.closed sk); [now left|]. right.
    destruct (TcpServer.fault sk); [discriminate|discriminate].
  - rewrite He. reflexivity.
Qed.

Lemma writable_healthy (l : list TcpServer.Socket) (s : nat) :
  TcpServer.writable l s = true ->
  exists sk, nth_error l s = Some sk /\ TcpServer.healthy sk.
Proof.
  unfold TcpServer.writable, TcpServer.healthy.
  destruct (nth_error l s) as [sk|]; [|discriminate].
  destruct (TcpServer.closed sk) eqn:Hc; [discriminate|].
  destruct (TcpServer.fault sk) eqn:Hf; [discriminate|]. eauto.
Qed.

Lemma writable_ext (l l' : list TcpServer.Socket) (s : nat) :
  nth_error l' s = nth_error l s -> TcpServer.writable l' s = TcpServer.writable l s.
Proof. unfold TcpServer.writable. intros ->. reflexivity. Qed.

(** The clients the first loop reports are those whose socket does not
    take writes, in the order of the registry; nothing is written to them. *)
Lemma send_frame_loop_failed (sz fr : list byte) (items : list (nat * TcpServer.address)) :
  NoDup (map fst items) ->
  forall srv : TcpServer.TCPServer,
  exists l',
    TcpServer.send_frame_loop sz fr items srv =
      (Ret (map fst (filter (fun kv => negb (TcpServer.writable (TcpServer.sockets srv) (fst kv)))
                            items)),
       TcpServer.set_sockets l' srv) /\
    (forall s, TcpServer.writable (TcpServer.sockets srv) s = false ->
               nth_error l' s = nth_error (TcpServer.sockets srv) s).
Proof.
  induction items as [|[cs a] rest IH]; intros Hnd srv.
  - exists (TcpServer.sockets srv). simpl. rewrite set_sockets_id. auto.
  - simpl in Hnd. inversion Hnd as [|? ? Hnotin Hnd']; subst.
    cbn [TcpServer.send_frame_loop filter fst].
    destruct (TcpServer.writable (TcpServer.sockets srv) cs) eqn:Hw; cbn [negb].
    + destruct (writable_healthy _ _ Hw) as [sk [Hn Hh]].
      destruct (try_send_frame_spec sz fr cs srv) as (f1 & l1 & H1 & _ & Hother & Hhead).
      destruct (Hhead sk Hn Hh) as [-> _].
      destruct (IH Hnd' (TcpServer.set_sockets l1 srv)) as (l2 & H2 & Hun).
      exists l2. split.
      * unfold bind at 1. rewrite H1. unfold bind at 1. rewrite H2.
        assert (Hfilter :
                  filter (fun kv : nat * TcpServer.address =>
                            negb (TcpServer.writable
                                    (TcpServer.sockets (TcpServer.set_sockets l1 srv)) (fst kv)))
                         rest =
                  filter (fun kv : nat * TcpServer.address =>
                            negb (TcpServer.writable (TcpServer.sockets srv) (fst kv)))
                         rest).
        { apply filter_ext_in. intros [k v] Hin. simpl.
          f_equal. apply writable_ext. apply Hother. intros ->.
          apply Hnotin. apply in_map_iff. exists (cs, v). auto. }
        rewrite Hfilter. reflexivity.
      * intros s Hs. assert (Hne : s <> cs) by (intros ->; congruence).
        rewrite Hun; simpl; [apply Hother; exact Hne|].
        rewrite (writable_ext (TcpServer.sockets srv) l1 s); [exact Hs|].
        apply Hother. exact Hne.
    + destruct (IH Hnd' srv) as (l2 & H2 & Hun).
      exists l2. split; [|exact Hun].
      unfold bind at 1. rewrite (try_send_frame_unwritable sz fr cs srv Hw).
      unfold bind at 1. rewrite H2. reflexivity.
Qed.

Lemma filter_all {A : Type} (l : list A) : filter (fun _ => true) l = l.
Proof. induction l as [|x l IH]; simpl; [reflexivity|]. rewrite IH. reflexivity. Qed.

Lemma filter_del {V : Type} (f : nat) (rest : list nat) (d : Dict.dict V) :
  filter (fun kv => negb (existsb (Nat.eqb (fst kv)) rest)) (Dict.del f d) =
  filter (fun kv => negb (existsb (Nat.eqb (fst kv)) (f :: rest))) d.
Proof.
  unfold Dict.del. induction d as [|[k v] d IH]; [reflexivity|].
  cbn [filter existsb fst]. destruct (k =? f)%nat; cbn [negb orb filter fst].
  - exact IH.
  - rewrite IH. reflexivity.
Qed.

(** The second loop removes exactly the clients it is given and closes
    their sockets. *)
Lemma remove_failed_loop_exact (failed : list nat) :
  NoDup failed ->
  forall srv : TcpServer.TCPServer,
  incl failed (map fst (TcpServer.video_clients srv)) ->
  TcpServer.remove_failed_loop failed srv =
  (Ret tt,
   TcpServer.set_video_clients
     (filter (fun kv => negb (existsb (Nat.eqb (fst kv)) failed)) (TcpServer.video_clients srv))
     (TcpServer.set_sockets (TcpServer.close_all failed (TcpServer.sockets srv)) srv)).
Proof.
  induction failed as [|f rest IH]; intros Hnd srv Hincl.
  - simpl. rewrite filter_all. destruct srv; reflexivity.
  - inversion Hnd as [|? ? Hnotin Hnd']; subst.
    rewrite remove_failed_loop_cons.
    assert (Hmem : Dict.mem f (TcpServer.video_clients srv) = true)
      by (apply mem_In; apply Hincl; now left).
    rewrite Hmem. rewrite IH; [|exact Hnd'|].
    + simpl. rewrite filter_del. reflexivity.
    + intros x Hx. simpl. apply del_keys. split; [apply Hincl; now right|].
      intros ->. contradiction.
Qed.

(** X10. [send_video_data] on a registry that is not empty returns [True]
    and leaves in the video registry exactly the clients whose socket took
    the writes, in their order; each of the others has been removed and its
    socket closed, with nothing written to it.  The command registry is
    untouched. *)
Theorem broken_video_clients_dropped (P : list byte) (srv : TcpServer.TCPServer) :
  Z.of_nat (List.length P) <= 4294967295 ->
  NoDup (map fst (TcpServer.video_clients srv)) ->
  TcpServer.video_clients srv <> [] ->
  exists srv',
    TcpServer.send_video_data P srv = (Ret true, srv') /\
    TcpServer.video_clients srv' =
      filter (fun kv => TcpServer.writable (TcpServer.sockets srv) (fst kv))
             (TcpServer.video_clients srv) /\
    TcpServer.command_clients srv' = TcpServer.command_clients srv /\
    (forall s a sk,
        In (s, a) (TcpServer.video_clients srv) ->
        nth_error (TcpServer.sockets srv) s = Some sk ->
        TcpServer.writable (TcpServer.sockets srv) s = false ->
        nth_error (TcpServer.sockets srv') s = Some (TcpServer.close sk)).
Proof.
  intros HL Hnd Hne.
  set (L := Z.of_nat (List.length P)).
  set (bad := fun kv : nat * TcpServer.address =>
                negb (TcpServer.writable (TcpServer.sockets srv) (fst kv))).
  destruct (send_frame_loop_failed (Py.le_u32 L) P (TcpServer.video_clients srv) Hnd srv)
    as (l1 & H1 & Hun).
  fold bad in H1.
  set (failed := map fst (filter bad (TcpServer.video_clients srv))) in *.
  assert (Hndf : NoDup failed).
  { subst failed. clear -Hnd. induction (TcpServer.video_clients srv) as [|[k v] d IH];
      [constructor|].
    simpl in *. inversion Hnd; subst. destruct (bad (k, v)); [|auto].
    simpl. constructor; [|auto]. intros Hin. apply H1.
    apply in_map_iff in Hin. destruct Hin as [kv [Hk Hin]]. apply filter_In in Hin.
    apply in_map_iff. exists kv. tauto. }
  assert (Hincl : incl failed (map fst (TcpServer.video_clients (TcpServer.set_sockets l1 srv)))).
  { subst failed. simpl. intros x Hx. apply in_map_iff in Hx.
    destruct Hx as [kv [Hk Hin]]. apply filter_In in Hin. apply in_map_iff. exists kv. tauto. }
  pose proof (remove_failed_loop_exact failed Hndf (TcpServer.set_sockets l1 srv) Hincl) as H2.
  eexists. split; [|split; [|split]].
  - unfold TcpServer.send_video_data, bind at 1, get.
    destruct (TcpServer.video_clients srv) as [|item items] eqn:Hvc; [contradiction|].
    unfold bind at 1, Py.pack_L. fold L.
    assert (Hrange : ((0 <=? L) && (L <=? 4294967295)) = true).
    { apply andb_true_iff. split; apply Z.leb_le; subst L; lia. }
    rewrite Hrange. unfold ret at 1. unfold bind at 1. rewrite H1.
    unfold bind. rewrite H2. reflexivity.
  - simpl. apply filter_ext_in. intros [k v] Hin. simpl.
    destruct (TcpServer.writable (TcpServer.sockets srv) k) eqn:Hw; simpl.
    + apply negb_true_iff. apply not_true_iff_false. intros Hex.
      apply existsb_eqb_In in Hex. subst failed. apply in_map_iff in Hex.
      destruct Hex as [[k' v'] [Hk Hin']]. simpl in Hk. subst k'.
      apply filter_In in Hin'. destruct Hin' as [_ Hb]. unfold bad in Hb. simpl in Hb.
      rewrite Hw in Hb. discriminate.
    + apply negb_false_iff. apply existsb_eqb_In. subst failed. apply in_map_iff.
      exists (k, v). split; [reflexivity|]. apply filter_In. split; [exact Hin|].
      unfold bad. simpl. rewrite Hw. reflexivity.
  - reflexivity.
  - intros s a sk Hin Hn Hw. simpl. rewrite close_all_nth.
    assert (Hf : existsb (Nat.eqb s) failed = true).
    { apply existsb_eqb_In. subst failed. apply in_map_iff. exists (s, a).
      split; [reflexivity|]. apply filter_In. split; [exact Hin|].
      unfold bad. simpl. rewrite Hw. reflexivity. }
    rewrite Hf, (Hun s Hw), Hn. reflexivity.
Qed.

Lemma broken_video_clients_dropped_witness :
  exists srv',
    TcpServer.send_video_data [x2a] Sample.server_with_lost_viewer = (Ret true, srv') /\
    TcpServer.video_clients srv' = [] /\
    nth_error (TcpServer.sockets srv') 0 =
      Some (TcpServer.mkSocket true (Some "[Errno 32] Broken pipe"%string) [] []).
Proof.
  destruct (broken_video_clients_dropped [x2a] Sample.server_with_lost_viewer)
    as (srv' & H1 & H2 & _ & H4).
  - simpl. lia.
  - repeat constructor. simpl. tauto.
  - discriminate.
  - exists srv'. split; [exact H1|]. split; [exact H2|].
    apply (H4 0%nat Sample.viewer
             (TcpServer.mkSocket false (Some "[Errno 32] Broken pipe"%string) [] []));
      [now left | reflexivity | reflexivity].
Defined.

(* ------------------------------------------------------------------ *)
(** ** The read loop of a command client *)

Lemma recv_chunk (sk : TcpServer.Socket) (chunk : list byte) (rest : list (list byte)) :
  TcpServer.closed sk = false ->
  TcpServer.inbox sk = chunk :: rest ->
  (List.length chunk <= 1024)%nat ->
  TcpServer.recv 1024 sk =
  (Ret chunk, TcpServer.mkSocket false (TcpServer.fault sk) rest (TcpServer.sent sk)).
Proof.
  intros Hc Hi Hlen. unfold TcpServer.recv. rewrite Hc, Hi.
  rewrite firstn_all2, skipn_all2 by exact Hlen. reflexivity.
Qed.

(** Bytes below 128 are well-formed UTF-8. *)
Lemma ascii_utf8_valid (data : list byte) :
  forallb (fun b => Py.Z_of_byte b <? 128) data = true -> Py.utf8_valid data = true.
Proof.
  induction data as [|b data IH]; [reflexivity|].
  cbn [forallb Py.utf8_valid]. intros H. apply andb_true_iff in H. destruct H as [Hb Hr].
  rewrite Hb. exact (IH Hr).
Qed.

(** A turn that reads a chunk of text puts it at the end of the queue. *)
Lemma client_turn_text (s : nat) (a : TcpServer.address) (srv : TcpServer.TCPServer)
    (sk : TcpServer.Socket) (chunk : list byte) (rest : list (list byte)) :
  nth_error (TcpServer.sockets srv) s = Some sk ->
  TcpServer.closed sk = false ->
  TcpServer.inbox sk = chunk :: rest ->
  chunk <> [] -> (List.length chunk <= 1024)%nat ->
  Py.utf8_valid chunk = true ->
  TcpServer.handle_client_commands_turn s a srv =
  (Ret true,
   TcpServer.set_message_queue
     (TcpServer.message_queue srv ++ [(a, string_of_list_byte chunk)])
     (TcpServer.set_sockets
        (update s (fun _ => TcpServer.mkSocket false (TcpServer.fault sk) rest
                              (TcpServer.sent sk))
                (TcpServer.sockets srv)) srv)).
Proof.
  intros Hn Hc Hi Hne Hlen Hascii.
  unfold TcpServer.handle_client_commands_turn, bind at 1, TcpServer.on_socket.
  rewrite Hn, (recv_chunk sk chunk rest Hc Hi Hlen).
  destruct chunk as [|b chunk]; [contradiction|].
  unfold bind, TcpServer.decode. rewrite Hascii. reflexivity.
Qed.

(** A turn on a connection the peer has closed ends the loop. *)
Lemma client_turn_closed_by_peer (s : nat) (a : TcpServer.address)
    (srv : TcpServer.TCPServer) (sk : TcpServer.Socket) :
  nth_error (TcpServer.sockets srv) s = Some sk ->
  TcpServer.closed sk = false ->
  TcpServer.inbox sk = [] ->
  TcpServer.handle_client_commands_turn s a srv = (Ret false, srv).
Proof.
  intros Hn Hc Hi.
  unfold TcpServer.handle_client_commands_turn, bind, TcpServer.on_socket, TcpServer.recv.
  rewrite Hn, Hc, Hi. rewrite update_same, set_sockets_id by exact Hn. reflexivity.
Qed.

Lemma client_loop_S (fuel s : nat) (a : TcpServer.address) (srv : TcpServer.TCPServer) :
  TcpServer.client_loop (S fuel) s a srv =
  if TcpServer.running srv then
    match TcpServer.handle_client_commands_turn s a srv with
    | (Ret true, srv1) => TcpServer.client_loop fuel s a srv1
    | (Ret false, srv1) => (Ret (Some tt), srv1)
    | (Exc e, srv1) => (Exc e, srv1)
    end
  else (Ret (Some tt), srv).
Proof.
  change (TcpServer.client_loop (S fuel) s a srv) with
    ((srv0 <- get ;;
      if TcpServer.running srv0 then
        go_on <- TcpServer.handle_client_commands_turn s a ;;
        if go_on then TcpServer.client_loop fuel s a else ret (Some tt)
      else ret (Some tt))%py srv).
  unfold bind, get. destruct (TcpServer.running srv); [|reflexivity].
  destruct (TcpServer.handle_client_commands_turn s a srv) as [[[|]|e] srv1]; reflexivity.
Qed.

Lemma client_loop_reads_all (s : nat) (a : TcpServer.address) (chunks : list (list byte)) :
  Forall TcpServer.is_command chunks ->
  forall (srv : TcpServer.TCPServer) (sk : TcpServer.Socket),
  TcpServer.running srv = true ->
  nth_error (TcpServer.sockets srv) s = Some sk ->
  TcpServer.closed sk = false ->
  TcpServer.inbox sk = chunks ->
  TcpServer.client_loop (S (List.length chunks)) s a srv =
  (Ret (Some tt),
   TcpServer.set_message_queue
     (TcpServer.message_queue srv ++ map (fun c => (a, string_of_list_byte c)) chunks)
     (TcpServer.set_sockets
        (update s (fun _ => TcpServer.mkSocket false (TcpServer.fault sk) []
                              (TcpServer.sent sk))
                (TcpServer.sockets srv)) srv)).
Proof.
  induction 1 as [|chunk rest (Hne & Hlen & Hascii) _ IH]; intros srv sk Hrun Hn Hc Hi.
  - cbn [List.length]. rewrite client_loop_S, Hrun.
    rewrite (client_turn_closed_by_peer s a srv sk Hn Hc Hi).
    simpl. rewrite app_nil_r.
    assert (Hsk : TcpServer.mkSocket false (TcpServer.fault sk) [] (TcpServer.sent sk) = sk)
      by (destruct sk; simpl in *; subst; reflexivity).
    rewrite Hsk, update_same by exact Hn. destruct srv; reflexivity.
  - cbn [List.length]. rewrite client_loop_S, Hrun.
    rewrite (client_turn_text s a srv sk chunk rest Hn Hc Hi Hne Hlen Hascii).
    rewrite (IH _ (TcpServer.mkSocket false (TcpServer.fault sk) rest (TcpServer.sent sk)));
      [| exact Hrun
       | simpl; rewrite nth_error_update, Nat.eqb_refl, Hn; reflexivity
       | reflexivity | reflexivity].
    simpl. rewrite update_update, <- app_assoc. reflexivity.
Qed.

Lemma del_not_mem {V : Type} (k : nat) (d : Dict.dict V) :
  Dict.mem k d = false -> Dict.del k d = d.
Proof.
  unfold Dict.mem, Dict.del. induction d as [|[k' v] d IH]; [reflexivity|].
  simpl. destruct (k' =? k)%nat; [discriminate|]. simpl. intros H. rewrite IH by exact H.
  reflexivity.
Qed.

Lemma del_mem {V : Type} (k : nat) (d : Dict.dict V) : Dict.mem k (Dict.del k d) = false.
Proof.
  apply not_true_iff_false. intros H. apply mem_In in H. apply del_keys in H. tauto.
Qed.

(** The [finally] block: the client leaves the registry, its socket is
    closed, and nothing else changes. *)
Lemma client_finally_spec (s : nat) (srv : TcpServer.TCPServer) :
  TcpServer.handle_client_commands_finally s srv =
  (Ret tt,
   TcpServer.set_sockets (update s TcpServer.close (TcpServer.sockets srv))
     (TcpServer.set_command_clients (Dict.del s (TcpServer.command_clients srv)) srv)).
Proof.
  unfold TcpServer.handle_client_commands_finally, bind, get, TcpServer.socket_close, modify.
  destruct (Dict.mem s (TcpServer.command_clients srv)) eqn:E; simpl; [reflexivity|].
  rewrite (del_not_mem s _ E). destruct srv; reflexivity.
Qed.

(** X11. The read loop takes each result of [recv] as one command,
    wherever the peer's writes began and ended.  When the calls of [recv]
    on a client's socket return texts (well-formed UTF-8, not empty, at most
    1024 bytes each) and then the end of the stream, the loop puts one
    command per [recv] result at the end of the queue, in the order received
    and under the client's address, the text of each encoding back to the
    bytes received; then it ends, the client leaves the registry and its
    socket is closed.  So two commands that arrive in one [recv] result are
    queued as one text. *)
Theorem client_session_queued (s : nat) (a : TcpServer.address)
    (srv : TcpServer.TCPServer) (sk : TcpServer.Socket) :
  TcpServer.running srv = true ->
  nth_error (TcpServer.sockets srv) s = Some sk ->
  TcpServer.closed sk = false ->
  Forall TcpServer.is_command (TcpServer.inbox sk) ->
  exists srv',
    TcpServer.handle_client_commands (S (List.length (TcpServer.inbox sk))) s a srv =
      (Ret (Some tt), srv') /\
    TcpServer.message_queue srv' =
      TcpServer.message_queue srv ++
      map (fun c => (a, string_of_list_byte c)) (TcpServer.inbox sk) /\
    (forall c, In c (TcpServer.inbox sk) -> Py.encode (string_of_list_byte c) = c) /\
    TcpServer.command_clients srv' = Dict.del s (TcpServer.command_clients srv) /\
    Dict.mem s (TcpServer.command_clients srv') = false /\
    nth_error (TcpServer.sockets srv') s =
      Some (TcpServer.mkSocket true (TcpServer.fault sk) [] (TcpServer.sent sk)).
Proof.
  intros Hrun Hn Hc Hcmds.
  eexists. split; [|split; [|split; [|split; [|split]]]].
  - unfold TcpServer.handle_client_commands, bind at 1, try_except.
    rewrite (client_loop_reads_all s a (TcpServer.inbox sk) Hcmds srv sk Hrun Hn Hc eq_refl).
    unfold bind. rewrite client_finally_spec. reflexivity.
  - reflexivity.
  - intros c _. apply list_byte_of_string_of_list_byte.
  - reflexivity.
  - simpl. apply del_mem.
  - simpl. rewrite update_update, nth_error_update, Nat.eqb_refl, Hn. reflexivity.
Qed.

Lemma client_session_queued_witness :
  (exists srv',
     TcpServer.handle_client_commands 3 0 Sample.peer Sample.server_with_session =
       (Ret (Some tt), srv') /\
     TcpServer.message_queue srv' =
       [(Sample.peer, "STATUS"%string); (Sample.peer, "STOP"%string)] /\
     TcpServer.command_clients srv' = [] /\
     nth_error (TcpServer.sockets srv') 0 = Some (TcpServer.mkSocket true None [] [])) /\
  (exists srv',
     TcpServer.handle_client_commands 2 0 Sample.peer Sample.server_with_merged_writes =
       (Ret (Some tt), srv') /\
     TcpServer.message_queue srv' = [(Sample.peer, "STATUSSTOP"%string)]).
Proof.
  split.
  - destruct (client_session_queued 0 Sample.peer Sample.server_with_session
                (TcpServer.mkSocket false None [Py.encode "STATUS"; Py.encode "STOP"] [])
                eq_refl eq_refl eq_refl)
      as (srv' & H1 & H2 & _ & H4 & _ & H6).
    + repeat constructor; simpl; try discriminate; lia.
    + exists srv'. repeat split; assumption.
  - destruct (client_session_queued 0 Sample.peer Sample.server_with_merged_writes
                (TcpServer.mkSocket false None [Py.encode "STATUS" ++ Py.encode "STOP"] [])
                eq_refl eq_refl eq_refl)
      as (srv' & H1 & H2 & _).
    + repeat constructor; simpl; try discriminate; lia.
    + exists srv'. split; [exact H1 | exact H2].
Defined.

Lemma client_loop_registries (fuel : nat) (s : nat) (a : TcpServer.address)
    (srv : TcpServer.TCPServer) :
  TcpServer.registries (snd (TcpServer.client_loop fuel s a srv)) = TcpServer.registries srv.
Proof.
  revert srv. induction fuel as [|fuel IH]; intros srv; [reflexivity|].
  rewrite client_loop_S.
  destruct (TcpServer.running srv); [|reflexivity].
  pose proof (client_turn_registries s a srv) as Ht.
  destruct (TcpServer.handle_client_commands_turn s a srv) as [[[|]|e] srv1];
    simpl in Ht; try exact Ht.
  rewrite IH. exact Ht.
Qed.

(** X12. However the read loop of a command client ends (the peer closed,
    the bytes were not text, the socket failed, the server stopped),
    [handle_client_commands] itself never raises, and on its way out the
    client has left the command registry, whose other entries stay, and its
    socket is closed; the video registry is not touched. *)
Theorem client_exit_unregisters (fuel s : nat) (a : TcpServer.address)
    (srv : TcpServer.TCPServer) :
  exists r srv',
    TcpServer.handle_client_commands fuel s a srv = (Ret r, srv') /\
    TcpServer.video_clients srv' = TcpServer.video_clients srv /\
    (r = Some tt ->
     TcpServer.command_clients srv' = Dict.del s (TcpServer.command_clients srv) /\
     Dict.mem s (TcpServer.command_clients srv') = false /\
     (forall kv, fst kv <> s ->
        (In kv (TcpServer.command_clients srv') <-> In kv (TcpServer.command_clients srv))) /\
     (forall sk', nth_error (TcpServer.sockets srv') s = Some sk' ->
                  TcpServer.closed sk' = true)).
Proof.
  unfold TcpServer.handle_client_commands, bind at 1, try_except.
  pose proof (client_loop_registries fuel s a srv) as Hreg.
  destruct (TcpServer.client_loop fuel s a srv) as [[r|e] srv1]; simpl in Hreg;
    unfold TcpServer.registries in Hreg; injection Hreg as Hc Hv Hm.
  - destruct r as [[]|].
    + unfold bind. rewrite client_finally_spec. eexists _, _. split; [reflexivity|].
      split; [simpl; exact Hv|]. intros _. simpl. rewrite Hc.
      split; [reflexivity|]. split; [apply del_mem|]. split.
      * intros kv Hne. rewrite del_In. tauto.
      * intros sk'. rewrite nth_error_update, Nat.eqb_refl.
        destruct (nth_error (TcpServer.sockets srv1) s); simpl; [|discriminate].
        intros H. inversion H. reflexivity.
    + eexists _, _. split; [reflexivity|]. split; [simpl; exact Hv|]. discriminate.
  - unfold bind, ret. rewrite client_finally_spec. eexists _, _. split; [reflexivity|].
    split; [simpl; exact Hv|]. intros _. simpl. rewrite Hc.
    split; [reflexivity|]. split; [apply del_mem|]. split.
    + intros kv Hne. rewrite del_In. tauto.
    + intros sk'. rewrite nth_error_update, Nat.eqb_refl.
      destruct (nth_error (TcpServer.sockets srv1) s); simpl; [|discriminate].
      intros H. inversion H. reflexivity.
Qed.

Lemma client_exit_unregisters_witness :
  exists srv',
    TcpServer.handle_client_commands 5 0 Sample.peer Sample.server_with_garbage =
      (Ret (Some tt), srv') /\
    TcpServer.message_queue srv' = [] /\
    TcpServer.command_clients srv' = [] /\
    (forall sk', nth_error (TcpServer.sockets srv') 0 = Some sk' ->
                 TcpServer.closed sk' = true).
Proof.
  destruct (client_exit_unregisters 5 0 Sample.peer Sample.server_with_garbage)
    as (r & srv' & H1 & _ & H3).
  assert (Hr : r = Some tt /\ TcpServer.message_queue srv' = []).
  { vm_compute in H1. inversion H1. auto. }
  destruct Hr as [Hr Hq]. destruct (H3 Hr) as (H4 & _ & _ & H7).
  exists srv'. subst r. repeat split; assumption.
Defined.

(* ------------------------------------------------------------------ *)
(** ** Broadcasting to command clients *)

(** The [try] statement of the loop of [broadcast_command]. *)
Lemma broadcast_try_spec (message : string) (cs : nat) (srv : TcpServer.TCPServer) :
  exists failed l1,
    try_except
      (TcpServer.on_socket cs (TcpServer.sendall (Py.encode message)) ;;; ret [])%py
      (fun _ => ret [cs]) srv = (Ret failed, TcpServer.set_sockets l1 srv) /\
    (forall s, s <> cs -> nth_error l1 s = nth_error (TcpServer.sockets srv) s) /\
    (forall sk, nth_error (TcpServer.sockets srv) cs = Some sk -> TcpServer.healthy sk ->
       nth_error l1 cs =
         Some (TcpServer.mkSocket false None (TcpServer.inbox sk)
                 (TcpServer.sent sk ++ [Py.encode message]))).
Proof.
  unfold try_except, bind.
  destruct (nth_error (TcpServer.sockets srv) cs) as [sk|] eqn:Hn.
  - destruct (healthy_dec sk) as [[Hc Hf]|Hbad].
    + rewrite (on_socket_sendall_healthy _ cs sk srv Hn Hc Hf).
      eexists [], _. split; [reflexivity|]. split.
      * intros s Hs. rewrite nth_error_update.
        destruct (Nat.eqb_spec cs s); [congruence|reflexivity].
      * intros sk' Hsk' _. inversion Hsk'; subst sk'.
        rewrite nth_error_update, Nat.eqb_refl, Hn. reflexivity.
    + destruct (on_socket_sendall_fails (Py.encode message) cs srv) as [e He];
        [rewrite Hn; exact Hbad|].
      rewrite He. exists [cs], (TcpServer.sockets srv). rewrite set_sockets_id.
      split; [reflexivity|]. split; [reflexivity|].
      intros sk' Hsk' [Hc Hf]. inversion Hsk'; subst sk'. destruct Hbad; congruence.
  - destruct (on_socket_sendall_fails (Py.encode message) cs srv) as [e He];
      [rewrite Hn; exact I|].
    rewrite He. exists [cs], (TcpServer.sockets srv). rewrite set_sockets_id.
    split; [reflexivity|]. split; [reflexivity|]. intros sk' Hsk'. discriminate.
Qed.

Lemma broadcast_loop_spec (message : string) (items : list (nat * TcpServer.address)) :
  forall srv : TcpServer.TCPServer,
  exists failed l',
    TcpServer.broadcast_loop message items srv = (Ret failed, TcpServer.set_sockets l' srv) /\
    (forall s, ~ In s (map fst items) -> nth_error l' s = nth_error (TcpServer.sockets srv) s) /\
    (NoDup (map fst items) ->
     forall s sk, In s (map fst items) ->
       nth_error (TcpServer.sockets srv) s = Some sk -> TcpServer.healthy sk ->
       nth_error l' s =
         Some (TcpServer.mkSocket false None (TcpServer.inbox sk)
                 (TcpServer.sent sk ++ [Py.encode message]))).
Proof.
  induction items as [|[cs a] rest IH]; intros srv.
  - exists [], (TcpServer.sockets srv). simpl. rewrite set_sockets_id.
    split; [reflexivity|]. split; [reflexivity|]. intros _ s sk [].
  - destruct (broadcast_try_spec message cs srv) as (f1 & l1 & H1 & Hother & Hhead).
    destruct (IH (TcpServer.set_sockets l1 srv)) as (f2 & l2 & H2 & Hout & Hin).
    exists (f1 ++ f2), l2. split; [|split].
    + cbn [TcpServer.broadcast_loop]. unfold bind at 1. rewrite H1.
      unfold bind at 1. rewrite H2. reflexivity.
    + intros s Hs. simpl in Hs. rewrite Hout by tauto. simpl. apply Hother.
      intros ->. apply Hs. now left.
    + intros Hnd s sk Hs Hn Hh. simpl in Hnd. inversion Hnd as [|? ? Hnotin Hnd']; subst.
      simpl in Hs. destruct Hs as [<-|Hs].
      * rewrite Hout by exact Hnotin. exact (Hhead sk Hn Hh).
      * assert (Hne : s <> cs) by (intros ->; contradiction).
        apply (Hin Hnd' s sk Hs); [simpl; rewrite Hother by exact Hne; exact Hn | exact Hh].
Qed.

(** X13. [broadcast_command] never raises and never changes a registry,
    not even for a client whose write failed; it returns [False] exactly
    when no command client is registered, and writes the encoded message
    once to every registered client whose socket is in order. *)
Theorem broadcast_keeps_clients (message : string) (srv : TcpServer.TCPServer) :
  exists srv',
    TcpServer.broadcast_command message srv =
      (Ret (Dict.non_empty (TcpServer.command_clients srv)), srv') /\
    TcpServer.registries srv' = TcpServer.registries srv /\
    TcpServer.message_queue srv' = TcpServer.message_queue srv /\
    (NoDup (map fst (TcpServer.command_clients srv)) ->
     forall s a sk,
       In (s, a) (TcpServer.command_clients srv) ->
       nth_error (TcpServer.sockets srv) s = Some sk -> TcpServer.healthy sk ->
       nth_error (TcpServer.sockets srv') s =
         Some (TcpServer.mkSocket false None (TcpServer.inbox sk)
                 (TcpServer.sent sk ++ [Py.encode message]))).
Proof.
  unfold TcpServer.broadcast_command, bind at 1, get.
  destruct (TcpServer.command_clients srv) as [|item items] eqn:Hcc.
  - exists srv. repeat split. intros _ s a sk [].
  - destruct (broadcast_loop_spec message (item :: items) srv) as (failed & l' & H1 & _ & Hin).
    unfold bind. rewrite H1. eexists. split; [reflexivity|].
    split; [reflexivity|]. split; [reflexivity|].
    intros Hnd s a sk Hreg Hn Hh. simpl. apply (Hin Hnd s sk); try assumption.
    apply in_map_iff. exists (s, a). auto.
Qed.

Lemma broadcast_keeps_clients_witness :
  let srv := TcpServer.server Sample.system_with_operator in
  exists srv',
    TcpServer.broadcast_command "HELLO" srv = (Ret true, srv') /\
    TcpServer.command_clients srv' = [(0%nat, Sample.peer)] /\
    nth_error (TcpServer.sockets srv') 0 =
      Some (TcpServer.mkSocket false None [] [Py.encode "HELLO"]).
Proof.
  intros srv.
  destruct (broadcast_keeps_clients "HELLO" srv) as (srv' & H1 & H2 & _ & H4).
  exists srv'. split; [exact H1|]. split.
  - unfold TcpServer.registries in H2. injection H2 as Hc _ _. exact Hc.
  - apply (H4 ltac:(repeat constructor; simpl; tauto) 0%nat Sample.peer
             (TcpServer.mkSocket false None [] []));
      [now left | reflexivity | split; reflexivity].
Defined.

(* ------------------------------------------------------------------ *)
(** ** A place freed and taken again *)

Lemma command_turn_admitted (a : TcpServer.address) (d : list (list byte))
    (srv : TcpServer.TCPServer) :
  (Dict.len (TcpServer.command_clients srv) >=? TcpServer.max_clients srv) = false ->
  TcpServer.handle_command_clients_turn a d srv =
  (Ret tt,
   TcpServer.set_client_threads
     (TcpServer.client_threads srv ++ [(List.length (TcpServer.sockets srv), a)])
     (TcpServer.set_command_clients
        (Dict.set (List.length (TcpServer.sockets srv)) a (TcpServer.command_clients srv))
        (TcpServer.set_sockets
           (TcpServer.sockets srv ++ [TcpServer.mkSocket false None d []]) srv))).
Proof.
  intros Hroom. unfold TcpServer.handle_command_clients_turn, bind.
  rewrite command_accept_spec, Hroom. reflexivity.
Qed.

(** X14. The place of a command client is free again once its read loop
    has run its [finally] block: with room for one client, a first
    connection is admitted; after its exit the registry is empty and its
    socket closed; a second connection is then admitted, under its own
    address and on a new socket. *)
Theorem place_freed_on_exit (a1 a2 : TcpServer.address) (d1 d2 : list (list byte))
    (srv : TcpServer.TCPServer) :
  TcpServer.command_clients srv = [] ->
  TcpServer.max_clients srv = 1 ->
  let s1 := List.length (TcpServer.sockets srv) in
  let srv1 := snd (TcpServer.handle_command_clients_turn a1 d1 srv) in
  let srv2 := snd (TcpServer.handle_client_commands_finally s1 srv1) in
  let srv3 := snd (TcpServer.handle_command_clients_turn a2 d2 srv2) in
  TcpServer.command_clients srv1 = [(s1, a1)] /\
  TcpServer.command_clients srv2 = [] /\
  TcpServer.command_clients srv3 = [(S s1, a2)] /\
  nth_error (TcpServer.sockets srv3) s1 = Some (TcpServer.mkSocket true None d1 []) /\
  nth_error (TcpServer.sockets srv3) (S s1) = Some (TcpServer.mkSocket false None d2 []).
Proof.
  intros Hreg Hmax s1 srv1 srv2 srv3.
  assert (Hc1 : TcpServer.command_clients srv1 = [(s1, a1)]).
  { subst srv1. rewrite command_turn_admitted by (rewrite Hreg, Hmax; reflexivity).
    simpl. rewrite Hreg. reflexivity. }
  assert (Hs1 : TcpServer.sockets srv1 =
                TcpServer.sockets srv ++ [TcpServer.mkSocket false None d1 []]).
  { subst srv1. rewrite command_turn_admitted by (rewrite Hreg, Hmax; reflexivity).
    reflexivity. }
  assert (Hm1 : TcpServer.max_clients srv1 = 1).
  { subst srv1. rewrite command_turn_admitted by (rewrite Hreg, Hmax; reflexivity).
    exact Hmax. }
  assert (Hc2 : TcpServer.command_clients srv2 = []).
  { subst srv2. rewrite client_finally_spec. simpl. rewrite Hc1. simpl.
    rewrite Nat.eqb_refl. reflexivity. }
  assert (Hs2 : TcpServer.sockets srv2 =
                TcpServer.sockets srv ++ [TcpServer.mkSocket true None d1 []]).
  { subst srv2. rewrite client_finally_spec. simpl. rewrite Hs1. subst s1.
    exact (update_last TcpServer.close (TcpServer.sockets srv)
             (TcpServer.mkSocket false None d1 [])). }
  assert (Hm2 : TcpServer.max_clients srv2 = 1).
  { subst srv2. rewrite client_finally_spec. exact Hm1. }
  assert (Hl2 : List.length (TcpServer.sockets srv2) = S s1).
  { rewrite Hs2, length_app. simpl. subst s1. lia. }
  assert (H3 : srv3 =
               TcpServer.set_client_threads (TcpServer.client_threads srv2 ++ [(S s1, a2)])
                 (TcpServer.set_command_clients [(S s1, a2)]
                    (TcpServer.set_sockets
                       (TcpServer.sockets srv2 ++ [TcpServer.mkSocket false None d2 []])
                       srv2))).
  { subst srv3. rewrite command_turn_admitted by (rewrite Hc2, Hm2; reflexivity).
    cbn [snd]. rewrite Hc2, Hl2. reflexivity. }
  split; [exact Hc1|]. split; [exact Hc2|]. split; [rewrite H3; reflexivity|].
  rewrite H3. cbn [TcpServer.sockets TcpServer.set_client_threads
                   TcpServer.set_command_clients TcpServer.set_sockets]. split.
  - rewrite nth_error_app1 by lia. rewrite Hs2.
    rewrite nth_error_app2 by (subst s1; lia). subst s1. rewrite Nat.sub_diag. reflexivity.
  - rewrite nth_error_app2 by lia. rewrite Hl2, Nat.sub_diag. reflexivity.
Qed.

Lemma place_freed_on_exit_witness :
  let srv1 := snd (TcpServer.handle_command_clients_turn Sample.peer [] TcpServer.__init__) in
  let srv2 := snd (TcpServer.handle_client_commands_finally 0 srv1) in
  let srv3 := snd (TcpServer.handle_command_clients_turn Sample.viewer [] srv2) in
  TcpServer.command_clients srv1 = [(0%nat, Sample.peer)] /\
  TcpServer.command_clients srv2 = [] /\
  TcpServer.command_clients srv3 = [(1%nat, Sample.viewer)].
Proof.
  destruct (place_freed_on_exit Sample.peer Sample.viewer [] [] TcpServer.__init__
              eq_refl eq_refl) as (H1 & H2 & H3 & _).
  repeat split; assumption.
Defined.

(* ------------------------------------------------------------------ *)
(** ** The camera under every interleaving of its callers *)

Lemma consistent_init : Camera.consistent Camera.__init__.
Proof.
  unfold Camera.consistent. simpl. repeat split; intros; discriminate.
Qed.

Lemma consistent_start (c : Camera.Camera) :
  Camera.consistent c -> Camera.consistent (Camera.start_streaming c).
Proof.
  intros H. unfold Camera.start_streaming.
  destruct (Camera.is_streaming c) eqn:Hs; [exact H|].
  destruct H as (_ & _ & Hb).
  unfold Camera.consistent. simpl. split; [|split].
  - intros _. eexists. split; reflexivity.
  - discriminate.
  - intros o Ho. injection Ho as <-. rewrite length_app. simpl. lia.
Qed.

Lemma consistent_stop (c : Camera.Camera) :
  Camera.consistent c -> Camera.consistent (Camera.stop_streaming c).
Proof.
  intros H. unfold Camera.stop_streaming.
  destruct (Camera.is_streaming c) eqn:Hs; simpl; [|exact H].
  destruct H as (Hon & _ & Hb). destruct (Hon Hs) as (o & Ho & Hc).
  rewrite Hc. unfold Camera.consistent. simpl. split; [|split].
  - discriminate.
  - intros _ p Hp. injection Hp as <-. reflexivity.
  - exact Hb.
Qed.

Lemma stop_streaming_off (c : Camera.Camera) :
  Camera.consistent c -> Camera.is_streaming (Camera.stop_streaming c) = false.
Proof.
  intros H. unfold Camera.stop_streaming.
  destruct (Camera.is_streaming c) eqn:Hs; simpl; [|exact Hs].
  destruct H as (Hon & _). destruct (Hon Hs) as (o & _ & Hc). rewrite Hc. reflexivity.
Qed.

Lemma close_off (c : Camera.Camera) :
  Camera.consistent c ->
  Camera.is_streaming (Camera.close c) = false /\ Camera.camera (Camera.close c) = None.
Proof.
  intros H. unfold Camera.close.
  assert (Hoff : Camera.is_streaming
                   (if Camera.is_streaming c then Camera.stop_streaming c else c) = false).
  { destruct (Camera.is_streaming c) eqn:Hs; [apply stop_streaming_off; exact H | exact Hs]. }
  destruct (Camera.camera (if Camera.is_streaming c then Camera.stop_streaming c else c))
    eqn:Hc; simpl; [split; [exact Hoff | reflexivity] | split; [exact Hoff | exact Hc]].
Qed.

Lemma consistent_close (c : Camera.Camera) :
  Camera.consistent c -> Camera.consistent (Camera.close c).
Proof.
  intros H. destruct (close_off c H) as [Hoff Hnone].
  assert (Hout : Camera.streaming_output (Camera.close c) = Camera.streaming_output c /\
                 Camera.outputs (Camera.close c) = Camera.outputs c).
  { unfold Camera.close, Camera.stop_streaming.
    destruct (Camera.is_streaming c); simpl;
      destruct (Camera.camera c) as [p|] eqn:Hc; simpl;
      rewrite ?Hc; simpl; split; reflexivity. }
  destruct Hout as [Ho Hl]. unfold Camera.consistent. rewrite Hoff, Hnone, Ho, Hl.
  split; [discriminate|]. split; [discriminate|]. exact (proj2 (proj2 H)).
Qed.

Lemma consistent_outputs (c : Camera.Camera) (l : list Camera.StreamingOutput)
    (w : list Camera.thread) :
  List.length l = List.length (Camera.outputs c) ->
  Camera.consistent c ->
  Camera.consistent
    (Camera.mkCamera (Camera.camera c) (Camera.streaming_output c) (Camera.is_streaming c) l w).
Proof.
  intros Hl (H1 & H2 & H3). unfold Camera.consistent. simpl. rewrite Hl. auto.
Qed.

Lemma consistent_step (c c' : Camera.Camera) :
  Camera.step c c' -> Camera.consistent c -> Camera.consistent c'.
Proof.
  intros Hstep H. destruct Hstep as [c|c|c|c p o buf Hp Ho|c t|c t Ht].
  - apply consistent_start, H.
  - apply consistent_stop, H.
  - apply consistent_close, H.
  - unfold Camera.write. destruct (nth_error (Camera.outputs c) o); [|exact H].
    apply consistent_outputs; [apply length_update | exact H].
  - unfold Camera.get_frame_call. destruct (Camera.is_streaming c); simpl; [|exact H].
    destruct (Camera.streaming_output c); simpl; [|exact H].
    apply (consistent_outputs c _ (Camera.woken c)); [apply length_update | exact H].
  - unfold Camera.get_frame_return.
    assert (Hc : Camera.consistent
                   (Camera.set_woken
                      (filter (fun t' => negb (t' =? t)%nat) (Camera.woken c)) c))
      by (apply consistent_outputs; [reflexivity | exact H]).
    destruct (Camera.streaming_output c); [|exact Hc].
    destruct (nth_error (Camera.outputs c) n); exact Hc.
Qed.

Lemma consistent_steps (c c' : Camera.Camera) :
  Camera.steps c c' -> Camera.consistent c -> Camera.consistent c'.
Proof.
  intros Hsteps. induction Hsteps as [c|c1 c2 c3 _ IH Hstep]; intros H; [exact H|].
  exact (consistent_step c2 c3 Hstep (IH H)).
Qed.

Lemma fine_consistent_outputs (pt : Camera.point) (c : Camera.Camera)
    (l : list Camera.StreamingOutput) (w : list Camera.thread) :
  List.length l = List.length (Camera.outputs c) ->
  Camera.fine_consistent pt c ->
  Camera.fine_consistent pt
    (Camera.mkCamera (Camera.camera c) (Camera.streaming_output c) (Camera.is_streaming c) l w).
Proof.
  intros Hl [Hb H]. split; [simpl; rewrite Hl; exact Hb|].
  destruct pt; exact H.
Qed.

Lemma fine_consistent_enter (k : Camera.call) (c : Camera.Camera) :
  Camera.fine_consistent Camera.Idle c -> Camera.fine_consistent (Camera.enter k c) c.
Proof.
  intros [Hb [Hon Hoff]].
  destruct k; unfold Camera.enter; destruct (Camera.is_streaming c) eqn:Hs; cbn [negb];
    (split; [exact Hb|]); cbn beta iota; rewrite ?Hs;
    repeat split; try discriminate; try reflexivity; intros;
    first [apply Hon | apply Hoff]; first [reflexivity | assumption].
Qed.

Lemma fine_consistent_line (pt : Camera.point) (c : Camera.Camera) :
  Camera.fine_consistent pt c ->
  Camera.fine_consistent (fst (Camera.line pt c)) (snd (Camera.line pt c)).
Proof.
  intros [Hb H]. destruct pt; cbn [Camera.line].
  - split; assumption.
  - destruct H as [Hs Hn]. cbn [fst snd].
    destruct (Camera.camera c) as [p|] eqn:Hc.
    + split; [exact Hb|]. split; [exact Hs|]. split; [exact Hn|]. rewrite Hc. discriminate.
    + split; [exact Hb|]. split; [exact Hs|]. split; [|simpl; discriminate].
      intros p Hp. simpl in Hp. injection Hp as <-. reflexivity.
  - destruct H as (Hs & Hn & Hc). cbn [fst snd]. split.
    + simpl. intros o Ho. injection Ho as <-. rewrite length_app. simpl. lia.
    + split; [exact Hs|]. split; [exact Hn|]. split; [exact Hc | simpl; discriminate].
  - destruct H as (Hs & Hn & Hc & Ho).
    destruct (Camera.camera c) as [p|] eqn:Hcam; [|exfalso; apply Hc; reflexivity].
    cbn [fst snd]. split; [exact Hb|]. split; [exact Hs|]. split; [|exact Ho].
    simpl. rewrite (Hn p Hcam). reflexivity.
  - destruct H as (Hs & Hc & Ho). rewrite Hc. cbn [fst snd]. split; [exact Hb|].
    split; [exact Hs|].
    destruct (Camera.streaming_output c) as [o|] eqn:Hso; [|exfalso; apply Ho; reflexivity].
    exists o. simpl. split; [exact Hso | reflexivity].
  - destruct H as (Hs & He). cbn [fst snd]. split; [exact Hb|]. simpl.
    split; [intros _; exact He | discriminate].
  - destruct H as (Hs & o & Ho & Hc). rewrite Hc. cbn [fst snd]. split; [exact Hb|].
    split; [exact Hs|]. split; [|simpl; rewrite Ho; discriminate].
    intros p Hp. simpl in Hp. injection Hp as <-. reflexivity.
  - destruct H as (Hs & Hn & Ho). cbn [fst snd].
    destruct in_close; simpl; (split; [exact Hb|]).
    + split; [reflexivity | exact Hn].
    + split; [discriminate | intros _; exact Hn].
  - destruct H as (Hs & Hn). cbn [fst snd].
    destruct (Camera.camera c) as [p|] eqn:Hc.
    + split; [exact Hb|]. split; [simpl; rewrite Hs; discriminate|].
      intros _ q Hq. simpl in Hq. discriminate.
    + split; [exact Hb|]. split; [rewrite Hs; discriminate|]. intros _. exact Hn.
Qed.

Lemma fine_consistent_step (x y : Camera.point * Camera.Camera) :
  Camera.fine_step x y ->
  Camera.fine_consistent (fst x) (snd x) -> Camera.fine_consistent (fst y) (snd y).
Proof.
  intros Hstep H. destruct Hstep as [k c|pt c Hpt|pt c p o buf Hp Ho|pt c t|pt c t Ht];
    cbn [fst snd] in *.
  - apply fine_consistent_enter, H.
  - apply fine_consistent_line, H.
  - unfold Camera.write. destruct (nth_error (Camera.outputs c) o); [|exact H].
    apply fine_consistent_outputs; [apply length_update | exact H].
  - unfold Camera.get_frame_call. destruct (Camera.is_streaming c); simpl; [|exact H].
    destruct (Camera.streaming_output c); simpl; [|exact H].
    apply (fine_consistent_outputs pt c _ (Camera.woken c)); [apply length_update | exact H].
  - unfold Camera.get_frame_return.
    assert (Hc : Camera.fine_consistent pt
                   (Camera.set_woken
                      (filter (fun t' => negb (t' =? t)%nat) (Camera.woken c)) c))
      by (apply fine_consistent_outputs; [reflexivity | exact H]).
    destruct (Camera.streaming_output c); [|exact Hc].
    destruct (nth_error (Camera.outputs c) n); exact Hc.
Qed.

Lemma fine_consistent_steps (x y : Camera.point * Camera.Camera) :
  Camera.fine_steps x y ->
  Camera.fine_consistent (fst x) (snd x) -> Camera.fine_consistent (fst y) (snd y).
Proof.
  intros Hsteps. induction Hsteps as [x|x y z _ IH Hstep]; intros H; [exact H|].
  exact (fine_consistent_step y z Hstep (IH H)).
Qed.

Lemma fine_steps_trans (x y z : Camera.point * Camera.Camera) :
  Camera.fine_steps x y -> Camera.fine_steps y z -> Camera.fine_steps x z.
Proof.
  intros Hxy Hyz. induction Hyz as [y|y u v _ IH Hstep]; [exact Hxy|].
  exact (Camera.fine_steps_next x u v (IH Hxy) Hstep).
Qed.

Lemma fine_steps_line (pt : Camera.point) (c : Camera.Camera) (y : Camera.point * Camera.Camera) :
  pt <> Camera.Idle -> Camera.fine_steps (Camera.line pt c) y -> Camera.fine_steps (pt, c) y.
Proof.
  intros Hpt Hy. apply (fine_steps_trans _ (Camera.line pt c)); [|exact Hy].
  apply (Camera.fine_steps_next _ (pt, c)); [apply Camera.fine_steps_refl|].
  apply Camera.fine_line. exact Hpt.
Qed.

(** The lines of [stop_streaming], run without interruption, do what the
    call does. *)
Lemma stop_lines (k : bool) (c : Camera.Camera) :
  Camera.is_streaming c = true ->
  Camera.fine_steps (Camera.Stop_77 k, c) (Camera.after_stop k, Camera.stop_streaming c).
Proof.
  intros Hs. apply fine_steps_line; [discriminate|].
  unfold Camera.stop_streaming. rewrite Hs. cbn [Camera.line negb].
  destruct (Camera.camera c) as [p|]; [|apply Camera.fine_steps_refl].
  apply fine_steps_line; [discriminate|]. apply Camera.fine_steps_refl.
Qed.

(** Every call taken as one step is a run of its lines. *)
Lemma calls_are_runs (c c' : Camera.Camera) :
  Camera.step c c' -> Camera.fine_steps (Camera.Idle, c) (Camera.Idle, c').
Proof.
  intros Hstep. destruct Hstep as [c|c|c|c p o buf Hp Ho|c t|c t Ht].
  - apply (fine_steps_trans _ (Camera.enter Camera.Call_start_streaming c, c));
      [eapply Camera.fine_steps_next; [apply Camera.fine_steps_refl | apply Camera.fine_enter]|].
    unfold Camera.enter, Camera.start_streaming.
    destruct (Camera.is_streaming c) eqn:Hs; [apply Camera.fine_steps_refl|].
    apply fine_steps_line; [discriminate|]. cbn [Camera.line].
    apply fine_steps_line; [discriminate|]. cbn [Camera.line].
    apply fine_steps_line; [discriminate|].
    assert (Hcam : exists p,
               Camera.camera match Camera.camera c with
                             | Some _ => c
                             | None => Camera.initialize c
                             end = Some p)
      by (destruct (Camera.camera c) as [p|] eqn:Hc; [exists p; exact Hc | eexists; reflexivity]).
    destruct Hcam as [p Hcam]. cbn [Camera.line Camera.camera]. rewrite Hcam.
    apply fine_steps_line; [discriminate|]. cbn [Camera.line Camera.camera Camera.set_camera].
    apply fine_steps_line; [discriminate|]. apply Camera.fine_steps_refl.
  - apply (fine_steps_trans _ (Camera.enter Camera.Call_stop_streaming c, c));
      [eapply Camera.fine_steps_next; [apply Camera.fine_steps_refl | apply Camera.fine_enter]|].
    unfold Camera.enter. destruct (Camera.is_streaming c) eqn:Hs; cbn [negb].
    + exact (stop_lines false c Hs).
    + unfold Camera.stop_streaming. rewrite Hs. apply Camera.fine_steps_refl.
  - apply (fine_steps_trans _ (Camera.enter Camera.Call_close c, c));
      [eapply Camera.fine_steps_next; [apply Camera.fine_steps_refl | apply Camera.fine_enter]|].
    unfold Camera.enter, Camera.close. destruct (Camera.is_streaming c) eqn:Hs.
    + apply (fine_steps_trans _ (Camera.Close_86, Camera.stop_streaming c));
        [exact (stop_lines true c Hs)|].
      apply fine_steps_line; [discriminate|]. apply Camera.fine_steps_refl.
    + apply fine_steps_line; [discriminate|]. apply Camera.fine_steps_refl.
  - eapply Camera.fine_steps_next; [apply Camera.fine_steps_refl|].
    exact (Camera.fine_encoder_frame Camera.Idle c p o buf Hp Ho).
  - eapply Camera.fine_steps_next; [apply Camera.fine_steps_refl|].
    exact (Camera.fine_get_frame Camera.Idle c t).
  - eapply Camera.fine_steps_next; [apply Camera.fine_steps_refl|].
    exact (Camera.fine_get_frame_return Camera.Idle c t Ht).
Qed.

(** No line and no other thread unsets [streaming_output]. *)
Lemma streaming_output_stays (x y : Camera.point * Camera.Camera) :
  Camera.fine_steps x y ->
  Camera.streaming_output (snd x) <> None -> Camera.streaming_output (snd y) <> None.
Proof.
  intros Hsteps. induction Hsteps as [x|x y z _ IH Hstep]; intros H; [exact H|].
  specialize (IH H). clear H.
  destruct Hstep as [k c|pt c Hpt|pt c p o buf Hp Ho|pt c t|pt c t Ht]; cbn [fst snd] in *.
  - exact IH.
  - destruct pt; cbn [Camera.line]; try exact IH;
      try (destruct (Camera.camera c); exact IH).
    simpl. discriminate.
  - unfold Camera.write. destruct (nth_error (Camera.outputs c) o); exact IH.
  - unfold Camera.get_frame_call. destruct (Camera.is_streaming c); simpl; [|exact IH].
    destruct (Camera.streaming_output c) as [o|] eqn:Ho; simpl;
      [rewrite Ho; discriminate | exfalso; apply IH; reflexivity].
  - unfold Camera.get_frame_return.
    destruct (Camera.streaming_output c) as [o|] eqn:Ho;
      [|exfalso; apply IH; reflexivity].
    destruct (nth_error (Camera.outputs c) o); simpl; rewrite Ho; discriminate.
Qed.



(** X16. The output object keeps one frame, and a write wakes every
    thread waiting on it.  After two writes with no reader in between, the
    threads that waited have all been woken by the first write, none is
    left waiting, and whichever thread returns from [get_frame] then gets
    the second frame, not the first. *)
Theorem latest_frame_wins (o : nat) (f1 f2 : list byte) (c : Camera.Camera)
    (out : Camera.StreamingOutput) :
  Camera.streaming_output c = Some o ->
  nth_error (Camera.outputs c) o = Some out ->
  let c1 := Camera.write o f1 c in
  let c2 := Camera.write o f2 c1 in
  Camera.woken c1 = Camera.woken c ++ Camera.waiters out /\
  Camera.woken c2 = Camera.woken c1 /\
  (forall t, ~ Camera.waits_on t o c2) /\
  (forall t, fst (Camera.get_frame_return t c1) = Camera.Returned (Some f1)) /\
  (forall t, fst (Camera.get_frame_return t c2) = Camera.Returned (Some f2)) /\
  (forall o' , o' <> o -> nth_error (Camera.outputs c2) o' = nth_error (Camera.outputs c) o').
Proof.
  intros Ho Hn c1 c2.
  assert (H1 : c1 = Camera.mkCamera (Camera.camera c) (Some o) (Camera.is_streaming c)
                      (update o (fun _ => Camera.mkStreamingOutput (Some f1) [])
                         (Camera.outputs c))
                      (Camera.woken c ++ Camera.waiters out)).
  { subst c1. unfold Camera.write. rewrite Hn, Ho. reflexivity. }
  assert (Hn1 : nth_error (Camera.outputs c1) o = Some (Camera.mkStreamingOutput (Some f1) [])).
  { rewrite H1. simpl. rewrite nth_error_update, Nat.eqb_refl, Hn. reflexivity. }
  assert (H2 : c2 = Camera.mkCamera (Camera.camera c) (Some o) (Camera.is_streaming c)
                      (update o (fun _ => Camera.mkStreamingOutput (Some f2) [])
                         (Camera.outputs c))
                      (Camera.woken c ++ Camera.waiters out)).
  { subst c2. unfold Camera.write. rewrite Hn1. rewrite H1. simpl.
    rewrite update_update, app_nil_r. reflexivity. }
  assert (Hn2 : nth_error (Camera.outputs c2) o = Some (Camera.mkStreamingOutput (Some f2) [])).
  { rewrite H2. simpl. rewrite nth_error_update, Nat.eqb_refl, Hn. reflexivity. }
  split; [rewrite H1; reflexivity|]. split; [rewrite H2, H1; reflexivity|].
  split; [|split; [|split]].
  - intros t (out' & Hout' & Hin). rewrite Hn2 in Hout'. injection Hout' as <-. exact Hin.
  - intros t. unfold Camera.get_frame_return. rewrite H1 at 1. cbn [Camera.streaming_output].
    rewrite Hn1. reflexivity.
  - intros t. unfold Camera.get_frame_return. rewrite H2 at 1. cbn [Camera.streaming_output].
    rewrite Hn2. reflexivity.
  - intros o' Hne. rewrite H2. simpl. rewrite nth_error_update.
    destruct (Nat.eqb_spec o o'); [congruence | reflexivity].
Qed.

Lemma latest_frame_wins_witness :
  let c := snd (Camera.get_frame_call 7%nat
                  (Camera.start_streaming (Camera.initialize Camera.__init__))) in
  let c2 := Camera.write 0%nat [x02] (Camera.write 0%nat [x01] c) in
  Camera.woken c2 = [7%nat] /\
  fst (Camera.get_frame_return 7%nat c2) = Camera.Returned (Some [x02]).
Proof.
  intros c c2.
  destruct (latest_frame_wins 0%nat [x01] [x02] c (Camera.mkStreamingOutput None [7%nat])
              eq_refl eq_refl) as (H1 & H2 & _ & _ & H5 & _).
  split; [|exact (H5 7%nat)].
  fold c2 in H2. rewrite H2, H1. reflexivity.
Defined.

(* ------------------------------------------------------------------ *)
(** ** The eight channels of the motor driver *)

Lemma wheel_writes_channels (i x : Z) (ch : Z) :
  0 <= i <= 3 -> 0 <= ch <= 7 ->
  List.length (Motor.wheel_writes i x) = 2%nat /\
  count_occ Z.eq_dec (map fst (Motor.wheel_writes i x)) ch =
    match Motor.channels i with
    | Some (a, b) => if (ch =? a) || (ch =? b) then 1%nat else 0%nat
    | None => 0%nat
    end.
Proof.
  intros Hi Hch.
  assert (Hi' : i = 0 \/ i = 1 \/ i = 2 \/ i = 3) by lia.
  assert (Hch' : ch = 0 \/ ch = 1 \/ ch = 2 \/ ch = 3 \/
                 ch = 4 \/ ch = 5 \/ ch = 6 \/ ch = 7) by lia.
  unfold Motor.wheel_writes.
  destruct Hi' as [-> | [-> | [-> | ->]]]; cbn [Motor.channels Z.eqb];
    destruct (x >? 0); [|destruct (x <? 0)| |destruct (x <? 0)| |destruct (x <? 0)|
                        |destruct (x <? 0)];
    (split; [reflexivity|]);
    destruct Hch' as [-> | [-> | [-> | [-> | [-> | [-> | [-> | ->]]]]]]]; reflexivity.
Qed.

(** X17. One [set_motor_speeds] call on an initialized controller whose
    chip answers returns and makes eight PWM writes, one to each of the
    channels 0 to 7, whatever the four speeds. *)
Theorem every_channel_written_once (a b c d : Z) (mc : Motor.MotorController) :
  Motor.initialized mc = true ->
  Motor.responsive mc = true ->
  exists w,
    fst (Motor.set_motor_speeds a b c d mc) = Ret tt /\
    Motor.writes (snd (Motor.set_motor_speeds a b c d mc)) = Motor.writes mc ++ w /\
    List.length w = 8%nat /\
    forall ch, 0 <= ch <= 7 -> count_occ Z.eq_dec (map fst w) ch = 1%nat.
Proof.
  intros Hi Hr. destruct (set_motor_speeds_returns a b c d mc Hr) as [Hret Hw].
  rewrite Hi in Hw. exists (Motor.speed_writes a b c d).
  split; [exact Hret|]. split; [exact Hw|]. unfold Motor.speed_writes. split.
  - rewrite !length_app.
    rewrite (proj1 (wheel_writes_channels 0 _ 0 ltac:(lia) ltac:(lia))).
    rewrite (proj1 (wheel_writes_channels 1 _ 0 ltac:(lia) ltac:(lia))).
    rewrite (proj1 (wheel_writes_channels 2 _ 0 ltac:(lia) ltac:(lia))).
    rewrite (proj1 (wheel_writes_channels 3 _ 0 ltac:(lia) ltac:(lia))).
    reflexivity.
  - intros ch Hch. rewrite !map_app, !count_occ_app.
    rewrite (proj2 (wheel_writes_channels 0 _ ch ltac:(lia) Hch)).
    rewrite (proj2 (wheel_writes_channels 1 _ ch ltac:(lia) Hch)).
    rewrite (proj2 (wheel_writes_channels 2 _ ch ltac:(lia) Hch)).
    rewrite (proj2 (wheel_writes_channels 3 _ ch ltac:(lia) Hch)).
    assert (Hch' : ch = 0 \/ ch = 1 \/ ch = 2 \/ ch = 3 \/
                   ch = 4 \/ ch = 5 \/ ch = 6 \/ ch = 7) by lia.
    destruct Hch' as [-> | [-> | [-> | [-> | [-> | [-> | [-> | ->]]]]]]]; reflexivity.
Qed.

Lemma every_channel_written_once_witness :
  exists w,
    Motor.writes (snd (Motor.set_motor_speeds 5000 (-7) 0 1200
                         (Main.motor_controller Sample.car))) = w /\
    List.length w = 8%nat /\
    count_occ Z.eq_dec (map fst w) 6 = 1%nat.
Proof.
  destruct (every_channel_written_once 5000 (-7) 0 1200 (Main.motor_controller Sample.car)
              eq_refl eq_refl) as (w & _ & Hw & Hlen & Hcount).
  exists w. split; [exact Hw|]. split; [exact Hlen|]. apply Hcount. lia.
Defined.

Lemma duty_range_opp (x : Z) : Motor._duty_range (- x) = - Motor._duty_range x.
Proof.
  unfold Motor._duty_range.
  destruct (Z.gtb_spec x 4095), (Z.ltb_spec x (-4095)),
           (Z.gtb_spec (- x) 4095), (Z.ltb_spec (- x) (-4095)); lia.
Qed.

Lemma duty_range_zero (x : Z) : x <> 0 -> Motor._duty_range x <> 0.
Proof.
  unfold Motor._duty_range.
  destruct (Z.gtb_spec x 4095), (Z.ltb_spec x (-4095)); lia.
Qed.

Lemma wheel_writes_opp (i x : Z) :
  0 <= i <= 3 -> x <> 0 ->
  Motor.wheel_writes i (- x) = map Motor.mirror (Motor.wheel_writes i x).
Proof.
  intros Hi Hx.
  assert (Hi' : i = 0 \/ i = 1 \/ i = 2 \/ i = 3) by lia.
  unfold Motor.wheel_writes, Motor.mirror.
  destruct Hi' as [-> | [-> | [-> | ->]]]; cbn [Motor.channels Z.eqb Pos.eqb];
    destruct (Z.gtb_spec x 0), (Z.ltb_spec x 0),
             (Z.gtb_spec (- x) 0), (Z.ltb_spec (- x) 0); try lia;
    cbn [map fst snd]; repeat f_equal; lia.
Qed.

Lemma speed_writes_opp (a b c d : Z) :
  a <> 0 -> b <> 0 -> c <> 0 -> d <> 0 ->
  Motor.speed_writes (- a) (- b) (- c) (- d) =
  map Motor.mirror (Motor.speed_writes a b c d).
Proof.
  intros Ha Hb Hc Hd. unfold Motor.speed_writes.
  rewrite !duty_range_opp, !map_app.
  rewrite !wheel_writes_opp by (lia || (apply duty_range_zero; assumption)).
  reflexivity.
Qed.

(** X18. On an initialized controller whose chip answers, and for a speed
    other than zero: [move_backward] makes the PWM writes of
    [move_forward] with the two channels of every wheel exchanged,
    [turn_right] those of [turn_left] likewise; for a positive speed
    [move_forward] drives channels 1, 2, 7 and 5 at the speed, limited to
    4095, and holds 0, 3, 6 and 4 at zero, and [turn_left] differs from
    it on the two left wheels only. *)
Theorem backward_mirrors_forward (speed : Z) (mc : Motor.MotorController) :
  Motor.initialized mc = true ->
  Motor.responsive mc = true ->
  speed <> 0 ->
  exists fwd left,
    Motor.writes (snd (Motor.move_forward speed mc)) = Motor.writes mc ++ fwd /\
    Motor.writes (snd (Motor.move_backward speed mc)) =
      Motor.writes mc ++ map Motor.mirror fwd /\
    Motor.writes (snd (Motor.turn_left speed mc)) = Motor.writes mc ++ left /\
    Motor.writes (snd (Motor.turn_right speed mc)) =
      Motor.writes mc ++ map Motor.mirror left /\
    (speed > 0 ->
     let v := Z.min speed 4095 in
     fwd = [(0, 0); (1, v); (3, 0); (2, v); (6, 0); (7, v); (4, 0); (5, v)] /\
     left = [(1, 0); (0, v); (2, 0); (3, v); (6, 0); (7, v); (4, 0); (5, v)]).
Proof.
  intros Hi Hr Hs.
  exists (Motor.speed_writes speed speed speed speed),
         (Motor.speed_writes (- speed) (- speed) speed speed).
  assert (Hw : forall a b c d,
             Motor.writes (snd (Motor.set_motor_speeds a b c d mc)) =
             Motor.writes mc ++ Motor.speed_writes a b c d).
  { intros a b c d. destruct (set_motor_speeds_returns a b c d mc Hr) as [_ Hw].
    rewrite Hi in Hw. exact Hw. }
  unfold Motor.move_forward, Motor.move_backward, Motor.turn_left, Motor.turn_right.
  rewrite !Hw.
  split; [reflexivity|]. split; [rewrite speed_writes_opp by assumption; reflexivity|].
  split; [reflexivity|]. split.
  - rewrite <- (Z.opp_involutive speed) at 1 2.
    rewrite speed_writes_opp by lia. reflexivity.
  - intros Hpos. set (v := Z.min speed 4095).
    assert (Hd : Motor._duty_range speed = v).
    { unfold Motor._duty_range. subst v.
      destruct (Z.gtb_spec speed 4095), (Z.ltb_spec speed (-4095)); lia. }
    assert (Hv : 0 < v) by (subst v; lia).
    unfold Motor.speed_writes. rewrite duty_range_opp, Hd.
    unfold Motor.wheel_writes. cbn [Motor.channels Z.eqb Pos.eqb].
    destruct (Z.gtb_spec v 0), (Z.ltb_spec v 0),
             (Z.gtb_spec (- v) 0), (Z.ltb_spec (- v) 0); try lia.
    replace (Z.abs (- v)) with v by lia. split; reflexivity.
Qed.

Lemma backward_mirrors_forward_witness :
  Motor.writes (snd (Motor.move_backward 2000 (Main.motor_controller Sample.car))) =
    [(1, 0); (0, 2000); (2, 0); (3, 2000); (7, 0); (6, 2000); (5, 0); (4, 2000)].
Proof.
  destruct (backward_mirrors_forward 2000 (Main.motor_controller Sample.car)
              eq_refl eq_refl ltac:(lia)) as (fwd & left & _ & Hb & _ & _ & Hpos).
  destruct (Hpos ltac:(lia)) as [Hf _]. rewrite Hb, Hf. reflexivity.
Defined.

(* ------------------------------------------------------------------ *)
(** ** Shutting the car down *)

Lemma set_motor_speeds_keeps (a b c d : Z) (mc : Motor.MotorController) :
  Motor.responsive mc = true ->
  Motor.initialized (snd (Motor.set_motor_speeds a b c d mc)) = Motor.initialized mc /\
  Motor.responsive (snd (Motor.set_motor_speeds a b c d mc)) = true.
Proof.
  intros Hr. destruct (responsive_cases mc Hr) as [Hi|(dev & calls & -> & Hf)].
  - rewrite set_motor_speeds_degraded by exact Hi. simpl. split; [reflexivity|].
    unfold Motor.responsive. simpl. rewrite Hi. reflexivity.
  - rewrite set_motor_speeds_writes by exact Hf. split; reflexivity.
Qed.

(** [MotorController.close] with a chip that answers. *)
Lemma motor_close_responsive (mc : Motor.MotorController) :
  Motor.responsive mc = true ->
  fst (Motor.close mc) = Ret tt /\
  Motor.speed_calls (snd (Motor.close mc)) =
    Motor.speed_calls mc ++ (if Motor.initialized mc then [(0, 0, 0, 0)] else []) /\
  Motor.writes (snd (Motor.close mc)) =
    Motor.writes mc ++ (if Motor.initialized mc then Motor.speed_writes 0 0 0 0 else []).
Proof.
  intros Hr. unfold Motor.close.
  destruct (responsive_cases mc Hr) as [Hi|(dev & calls & -> & Hf)].
  - rewrite Hi. simpl. rewrite !app_nil_r. repeat split.
  - cbn [Motor.initialized]. unfold bind, Motor.stop.
    rewrite set_motor_speeds_writes by exact Hf.
    unfold try_except, Motor.self_pwm_close. simpl. repeat split.
Qed.

(** [LaneFollowingCar.stop] up to the first call of the motor controller. *)
Lemma stop_unfold (self : Main.LaneFollowingCar) :
  let self2 :=
    if Main.streaming self
    then Main.set_camera (Camera.stop_streaming (Main.camera self))
           (Main.set_video_thread None
              (Main.set_streaming false (Main.set_running false self)))
    else Main.set_running false self in
  Main.stop self =
  match Motor.stop (Main.motor_controller self) with
  | (Ret _, mc3) =>
      let self4 :=
        Main.set_camera (Camera.close (Main.camera self2))
          (Main.set_tcp_server (TcpServer.stop_server (Main.tcp_server self))
             (Main.set_motor_controller mc3 self2)) in
      let (r, mc5) := Motor.close mc3 in (r, Main.set_motor_controller mc5 self4)
  | (Exc e, mc3) => (Exc e, Main.set_motor_controller mc3 self2)
  end.
Proof.
  destruct self as [cam srv mc run str vt ct th].
  unfold Main.stop, Main.stop_video_streaming, Main.on_motor_controller, Main.on_camera.
  unfold bind, modify, get, ret, zoom.
  cbn [Main.streaming Main.set_running Main.camera Main.tcp_server Main.motor_controller
       Main.running Main.video_thread Main.command_thread Main.threads].
  destruct str; cbn [negb Main.streaming Main.set_running Main.set_streaming
                     Main.set_video_thread Main.set_camera Main.set_tcp_server
                     Main.set_motor_controller Main.camera Main.tcp_server
                     Main.motor_controller Main.running Main.video_thread
                     Main.command_thread Main.threads].
  - destruct vt; cbn [Main.streaming Main.set_running Main.set_streaming
                     Main.set_video_thread Main.set_camera Main.set_tcp_server
                     Main.set_motor_controller Main.camera Main.tcp_server
                     Main.motor_controller Main.running Main.video_thread
                     Main.command_thread Main.threads];
      destruct (Motor.stop mc) as [[u|e] mc3]; try reflexivity;
      cbn [Main.streaming Main.set_running Main.set_streaming
           Main.set_video_thread Main.set_camera Main.set_tcp_server
           Main.set_motor_controller Main.camera Main.tcp_server
           Main.motor_controller Main.running Main.video_thread
           Main.command_thread Main.threads];
      destruct (Motor.close mc3) as [r mc5]; reflexivity.
  - destruct (Motor.stop mc) as [[u|e] mc3]; try reflexivity;
      cbn [Main.streaming Main.set_running Main.set_streaming
           Main.set_video_thread Main.set_camera Main.set_tcp_server
           Main.set_motor_controller Main.camera Main.tcp_server
           Main.motor_controller Main.running Main.video_thread
           Main.command_thread Main.threads];
      destruct (Motor.close mc3) as [r mc5]; reflexivity.
Qed.

(** X19. [stop()] on a car whose chip answers (or whose motor controller
    was never initialized) returns, with [running] and [streaming] off, the
    TCP server stopped and both registries empty, the camera released and
    not streaming, and no thread started.  The wheels are braked twice, by
    [stop()] of the motor controller and again by its [close()]. *)
Theorem stop_shuts_down (self : Main.LaneFollowingCar) :
  Motor.responsive (Main.motor_controller self) = true ->
  Camera.consistent (Main.camera self) ->
  let self' := snd (Main.stop self) in
  fst (Main.stop self) = Ret tt /\
  Main.running self' = false /\
  Main.streaming self' = false /\
  Main.tcp_server self' = TcpServer.stop_server (Main.tcp_server self) /\
  TcpServer.running (Main.tcp_server self') = false /\
  TcpServer.command_clients (Main.tcp_server self') = [] /\
  TcpServer.video_clients (Main.tcp_server self') = [] /\
  Camera.camera (Main.camera self') = None /\
  Camera.is_streaming (Main.camera self') = false /\
  Main.threads self' = Main.threads self /\
  Motor.speed_calls (Main.motor_controller self') =
    Motor.speed_calls (Main.motor_controller self) ++
    (0, 0, 0, 0) :: (if Motor.initialized (Main.motor_controller self)
                     then [(0, 0, 0, 0)] else []) /\
  Motor.writes (Main.motor_controller self') =
    Motor.writes (Main.motor_controller self) ++
    (if Motor.initialized (Main.motor_controller self)
     then Motor.speed_writes 0 0 0 0 ++ Motor.speed_writes 0 0 0 0 else []).
Proof.
  intros Hr Hcam self'. subst self'. rewrite stop_unfold.
  destruct (set_motor_speeds_returns 0 0 0 0 _ Hr) as [Hret Hw].
  destruct (set_motor_speeds_keeps 0 0 0 0 _ Hr) as [Hi3 Hr3].
  pose proof (set_motor_speeds_call 0 0 0 0 (Main.motor_controller self)) as Hc.
  fold Motor.stop in Hret, Hw, Hi3, Hr3, Hc.
  destruct (Motor.stop (Main.motor_controller self)) as [o mc3].
  cbn [fst snd] in Hret, Hw, Hi3, Hr3, Hc. subst o.
  destruct (motor_close_responsive mc3 Hr3) as (Hret5 & Hc5 & Hw5).
  destruct (Motor.close mc3) as [r mc5]. cbn [fst snd] in Hret5, Hc5, Hw5 |- *. subst r.
  assert (Hcam2 : Camera.consistent
                    (Main.camera
                       (if Main.streaming self
                        then Main.set_camera (Camera.stop_streaming (Main.camera self))
                               (Main.set_video_thread None
                                  (Main.set_streaming false (Main.set_running false self)))
                        else Main.set_running false self))).
  { destruct (Main.streaming self); simpl; [apply consistent_stop|]; exact Hcam. }
  destruct (close_off _ Hcam2) as [Hoff Hnone].
  split; [reflexivity|].
  split; [destruct (Main.streaming self); reflexivity|].
  split; [destruct (Main.streaming self) eqn:Hs; simpl; [reflexivity | exact Hs]|].
  split; [reflexivity|]. split; [reflexivity|]. split; [reflexivity|].
  split; [reflexivity|].
  split; [exact Hnone|]. split; [exact Hoff|].
  split; [destruct (Main.streaming self); reflexivity|].
  cbn [Main.motor_controller Main.set_motor_controller].
  rewrite Hc5, Hc, Hw5, Hw, Hi3.
  destruct (Motor.initialized (Main.motor_controller self));
    rewrite <- ?app_assoc; split; reflexivity.
Qed.

Lemma stop_shuts_down_witness :
  let self := snd (Main.parse_and_execute_command Sample.viewer "STREAM#START" Sample.car) in
  let self' := snd (Main.stop self) in
  Main.streaming self = true /\
  fst (Main.stop self) = Ret tt /\
  Main.streaming self' = false /\
  Camera.camera (Main.camera self') = None /\
  TcpServer.running (Main.tcp_server self') = false.
Proof.
  intros self self'.
  assert (Hcam : Camera.consistent (Main.camera self)).
  { unfold Camera.consistent. split; [|split].
    - intros _. exists 0%nat. split; reflexivity.
    - intros H. vm_compute in H. discriminate.
    - intros o Ho. vm_compute in Ho. injection Ho as <-. vm_compute. lia. }
  destruct (stop_shuts_down self eq_refl Hcam)
    as (H1 & _ & H3 & _ & H5 & _ & _ & H8 & _).
  split; [reflexivity|]. repeat split; assumption.
Defined.

(** X20. [stop()] on a car whose initialized chip has stopped answering
    raises the chip's error at the first brake: by then [running] and
    [streaming] are off, but the TCP server is not stopped, no client
    socket is closed, and the camera is not released. *)
Theorem stop_aborted_by_chip_error (self : Main.LaneFollowingCar) (dev : Motor.PCA9685)
    (e : string) :
  Motor.initialized (Main.motor_controller self) = true ->
  Motor.pwm (Main.motor_controller self) = Some dev ->
  Motor.pwm_fault dev = Some e ->
  let self' := snd (Main.stop self) in
  fst (Main.stop self) = Exc e /\
  Main.running self' = false /\
  Main.streaming self' = false /\
  Main.tcp_server self' = Main.tcp_server self /\
  Main.camera self' =
    (if Main.streaming self then Camera.stop_streaming (Main.camera self)
     else Main.camera self) /\
  (Camera.camera (Main.camera self) <> None -> Camera.camera (Main.camera self') <> None) /\
  Motor.writes (Main.motor_controller self') = Motor.writes (Main.motor_controller self).
Proof.
  intros Hi Hp Hf self'. subst self'. rewrite stop_unfold. unfold Motor.stop.
  rewrite (set_motor_speeds_chip_error_any 0 0 0 0 _ dev e Hi Hp Hf).
  cbn [fst snd].
  split; [reflexivity|].
  split; [destruct (Main.streaming self); reflexivity|].
  split; [destruct (Main.streaming self) eqn:Hs; simpl; [reflexivity | exact Hs]|].
  split; [destruct (Main.streaming self); reflexivity|].
  split; [destruct (Main.streaming self); reflexivity|].
  split.
  - intros Hcam. destruct (Main.streaming self); simpl; [|exact Hcam].
    unfold Camera.stop_streaming.
    destruct (Camera.is_streaming (Main.camera self)); simpl; [|exact Hcam].
    destruct (Camera.camera (Main.camera self)); simpl;
      [discriminate | exfalso; apply Hcam; reflexivity].
  - destruct (Main.streaming self); simpl; unfold Motor.writes; simpl; rewrite Hp; reflexivity.
Qed.

Lemma stop_aborted_by_chip_error_witness :
  let self' := snd (Main.stop Sample.car_with_silent_chip) in
  fst (Main.stop Sample.car_with_silent_chip) = Exc "[Errno 121] Remote I/O error" /\
  TcpServer.running (Main.tcp_server self') = true /\
  Camera.camera (Main.camera self') <> None.
Proof.
  intros self'.
  destruct (stop_aborted_by_chip_error Sample.car_with_silent_chip
              (Motor.mkPCA9685 (Some "[Errno 121] Remote I/O error") (Some 50%Z) [])
              "[Errno 121] Remote I/O error" eq_refl eq_refl eq_refl)
    as (H1 & _ & _ & H4 & _ & H6 & _).
  split; [exact H1|]. split.
  - fold self' in H4. rewrite H4. reflexivity.
  - apply H6. discriminate.
Defined.

(* ------------------------------------------------------------------ *)
(** ** A frame from the encoder to a viewer *)

Lemma send_video_data_delivers (P : list byte) (srv : TcpServer.TCPServer)
    (s : nat) (a : TcpServer.address) (sk : TcpServer.Socket) :
  Z.of_nat (List.length P) <= 4294967295 ->
  NoDup (map fst (TcpServer.video_clients srv)) ->
  In (s, a) (TcpServer.video_clients srv) ->
  nth_error (TcpServer.sockets srv) s = Some sk ->
  TcpServer.healthy sk ->
  exists srv',
    TcpServer.send_video_data P srv = (Ret true, srv') /\
    In (s, a) (TcpServer.video_clients srv') /\
    nth_error (TcpServer.sockets srv') s =
      Some (TcpServer.mkSocket false None (TcpServer.inbox sk)
              (TcpServer.sent sk ++ [Py.le_u32 (Z.of_nat (List.length P)); P])).
Proof.
  intros HL Hnd Hin Hn Hh. set (L := Z.of_nat (List.length P)).
  assert (Hkey : In s (map fst (TcpServer.video_clients srv)))
    by (apply in_map_iff; exists (s, a); auto).
  destruct (send_frame_loop_spec (Py.le_u32 L) P (TcpServer.video_clients srv) Hnd srv)
    as (failed & l1 & H1 & Hincl & Hndf & _ & Hdel).
  destruct (Hdel s sk Hkey Hn Hh) as [Hnf Hl1].
  destruct (remove_failed_loop_spec failed Hndf (TcpServer.set_sockets l1 srv) Hincl)
    as (l2 & vc2 & H2 & Hsock & Hreg).
  exists (TcpServer.set_video_clients vc2 (TcpServer.set_sockets l2 srv)).
  split; [|split].
  - unfold TcpServer.send_video_data, bind at 1, get.
    destruct (TcpServer.video_clients srv) as [|item items] eqn:Hvc; [destruct Hin|].
    unfold bind at 1, Py.pack_L. fold L.
    assert (Hrange : ((0 <=? L) && (L <=? 4294967295)) = true).
    { apply andb_true_iff. split; apply Z.leb_le; subst L; lia. }
    rewrite Hrange. unfold ret at 1. unfold bind at 1. rewrite H1.
    unfold bind. rewrite H2. reflexivity.
  - simpl. apply (Hreg (s, a)); assumption.
  - simpl. rewrite Hsock by assumption. exact Hl1.
Qed.

(** X21. One turn of the video thread, end to end.  With [streaming] and
    [running] set, a video client registered and the camera streaming, the
    thread blocks in [get_frame] on the current output; the next non-empty
    frame [buf] the encoder writes wakes it; [get_frame] returns [buf]; and
    the client's socket, when in order, gets the four bytes of the length
    of [buf] and then [buf], the client staying registered. *)
Theorem frame_reaches_viewer (t : Camera.thread) (o : nat) (out : Camera.StreamingOutput)
    (b : byte) (data : list byte) (s : nat) (a : TcpServer.address)
    (sk : TcpServer.Socket) (self : Main.LaneFollowingCar) :
  Main.streaming self = true -> Main.running self = true ->
  Camera.is_streaming (Main.camera self) = true ->
  Camera.streaming_output (Main.camera self) = Some o ->
  nth_error (Camera.outputs (Main.camera self)) o = Some out ->
  Z.of_nat (List.length (b :: data)) <= 4294967295 ->
  NoDup (map fst (TcpServer.video_clients (Main.tcp_server self))) ->
  In (s, a) (TcpServer.video_clients (Main.tcp_server self)) ->
  nth_error (TcpServer.sockets (Main.tcp_server self)) s = Some sk ->
  TcpServer.healthy sk ->
  let buf := b :: data in
  let self1 := snd (Main.stream_video_frames_turn t self) in
  let cam2 := Camera.write o buf (Main.camera self1) in
  let cam3 := snd (Camera.get_frame_return t cam2) in
  let self4 := snd (Main.stream_video_frames_send (Some buf) (Main.set_camera cam3 self1)) in
  fst (Main.stream_video_frames_turn t self) = Main.Frame (Camera.Blocked o) /\
  Camera.waits_on t o (Main.camera self1) /\
  In t (Camera.woken cam2) /\
  fst (Camera.get_frame_return t cam2) = Camera.Returned (Some buf) /\
  ~ In t (Camera.woken cam3) /\
  fst (Main.stream_video_frames_send (Some buf) (Main.set_camera cam3 self1)) = Ret tt /\
  In (s, a) (TcpServer.video_clients (Main.tcp_server self4)) /\
  nth_error (TcpServer.sockets (Main.tcp_server self4)) s =
    Some (TcpServer.mkSocket false None (TcpServer.inbox sk)
            (TcpServer.sent sk ++ [Py.le_u32 (Z.of_nat (List.length buf)); buf])).
Proof.
  intros Hstr Hrun Hcs Ho Hn HL Hnd Hin Hsk Hh buf self1 cam2 cam3 self4.
  assert (Hhas : TcpServer.has_video_clients (Main.tcp_server self) = true).
  { unfold TcpServer.has_video_clients, Dict.len.
    destruct (TcpServer.video_clients (Main.tcp_server self)); [destruct Hin|].
    simpl List.length. apply Z.gtb_lt. lia. }
  assert (Hturn : Main.stream_video_frames_turn t self =
                  (Main.Frame (Camera.Blocked o),
                   Main.set_camera
                     (Camera.set_outputs
                        (update o (fun out => Camera.mkStreamingOutput (Camera.frame out)
                                                (Camera.waiters out ++ [t]))
                           (Camera.outputs (Main.camera self)))
                        (Main.camera self)) self)).
  { unfold Main.stream_video_frames_turn. rewrite Hstr, Hrun, Hhas. simpl.
    unfold Camera.get_frame_call. rewrite Hcs, Ho. reflexivity. }
  assert (Hn1 : nth_error (Camera.outputs (Main.camera self1)) o =
                Some (Camera.mkStreamingOutput (Camera.frame out)
                        (Camera.waiters out ++ [t]))).
  { subst self1. rewrite Hturn. simpl. rewrite nth_error_update, Nat.eqb_refl, Hn.
    reflexivity. }
  assert (Hso1 : Camera.streaming_output (Main.camera self1) = Some o).
  { subst self1. rewrite Hturn. exact Ho. }
  assert (Hsrv1 : Main.tcp_server self1 = Main.tcp_server self).
  { subst self1. rewrite Hturn. reflexivity. }
  assert (Hcam2 : cam2 =
                  Camera.mkCamera (Camera.camera (Main.camera self1)) (Some o)
                    (Camera.is_streaming (Main.camera self1))
                    (update o (fun _ => Camera.mkStreamingOutput (Some buf) [])
                       (Camera.outputs (Main.camera self1)))
                    (Camera.woken (Main.camera self1) ++ (Camera.waiters out ++ [t]))).
  { subst cam2. unfold Camera.write. rewrite Hn1, Hso1. reflexivity. }
  assert (Hret : Camera.get_frame_return t cam2 =
                 (Camera.Returned (Some buf),
                  Camera.set_woken
                    (filter (fun t' => negb (t' =? t)%nat) (Camera.woken cam2)) cam2)).
  { unfold Camera.get_frame_return. rewrite Hcam2 at 1. cbn [Camera.streaming_output].
    rewrite Hcam2 at 1. cbn [Camera.outputs].
    rewrite nth_error_update, Nat.eqb_refl, Hn1. reflexivity. }
  destruct (send_video_data_delivers buf (Main.tcp_server self) s a sk HL Hnd Hin Hsk Hh)
    as (srv' & Hsend & Hreg & Hsock).
  assert (Hsendm : Main.stream_video_frames_send (Some buf) (Main.set_camera cam3 self1) =
                   (Ret tt, Main.set_tcp_server srv' (Main.set_camera cam3 self1))).
  { unfold Main.stream_video_frames_send, buf, bind, Main.on_tcp_server, zoom.
    cbn [Main.tcp_server Main.set_camera]. rewrite Hsrv1. fold buf. rewrite Hsend.
    reflexivity. }
  split; [rewrite Hturn; reflexivity|].
  split; [eexists; split; [exact Hn1 | apply in_or_app; right; now left]|].
  split; [rewrite Hcam2; simpl; apply in_or_app; right; apply in_or_app; right; now left|].
  split; [rewrite Hret; reflexivity|].
  split.
  - subst cam3. rewrite Hret. simpl. intros Hin'. apply filter_In in Hin'.
    destruct Hin' as [_ Hneq]. rewrite Nat.eqb_refl in Hneq. discriminate.
  - subst self4. rewrite Hsendm. split; [reflexivity|]. split; [exact Hreg | exact Hsock].
Qed.

Lemma frame_reaches_viewer_witness :
  let self :=
    snd (Main.parse_and_execute_command Sample.peer "STREAM#START"
           (Main.set_tcp_server Sample.server_with_viewer Sample.car)) in
  let self1 := snd (Main.stream_video_frames_turn 1%nat self) in
  let cam2 := Camera.write 0%nat [xff; xd8] (Main.camera self1) in
  let cam3 := snd (Camera.get_frame_return 1%nat cam2) in
  let self4 := snd (Main.stream_video_frames_send (Some [xff; xd8])
                      (Main.set_camera cam3 self1)) in
  nth_error (TcpServer.sockets (Main.tcp_server self4)) 0%nat =
    Some (TcpServer.mkSocket false None [] [[x02; x00; x00; x00]; [xff; xd8]]).
Proof.
  intros self self1 cam2 cam3 self4.
  destruct (frame_reaches_viewer 1%nat 0%nat (Camera.mkStreamingOutput None [])
              xff [xd8] 0%nat Sample.viewer (TcpServer.mkSocket false None [] []) self
              eq_refl eq_refl eq_refl eq_refl eq_refl
              ltac:(simpl; lia) ltac:(repeat constructor; simpl; tauto)
              ltac:(now left) eq_refl (conj eq_refl eq_refl))
    as (_ & _ & _ & _ & _ & _ & _ & H).
  exact H.
Defined.
